(** * EPCL safety dashboard: dashboard synchronizer and streaming consumer

    A shallow embedding of the stateful core of
    [client/src/components/SafetyDashboard.tsx] and
    [client/src/components/chat/ChatWidget.tsx], and the properties the
    specification states about it.

    Conventions of the embedding:
    - a JavaScript string is a [string] of code units below 256;
    - a JavaScript number is an integer or [NaN] (the payloads are counts);
    - a value of type [any] is the tree [any] below, with [undefined];
    - React state is threaded explicitly, one setter call after the other;
    - an [async] function is cut at its [await]s into the steps the event
      loop runs;
    - what the JavaScript engine supplies and the repository does not define
      ([JSON.parse], numeric parsing of strings, the text of a [TypeError])
      is the interface [Platform]. *)

From Stdlib Require Import Bool Arith ZArith List String Ascii Lia.
From Stdlib Require Import DecimalString.
From Stdlib Require Import Permutation Sorted.
Import ListNotations.

Local Open Scope string_scope.
Local Open Scope Z_scope.

Set Implicit Arguments.
Set Warnings "-register-all".

(** ** JavaScript strings *)

Module Js.

Definition LF : ascii := "010"%char.
Definition DQUOTE : ascii := "034"%char.

Definition str (c : ascii) : string := String c EmptyString.

Definition len (s : string) : Z := Z.of_nat (String.length s).

Definition isEmpty (s : string) : bool :=
  match s with EmptyString => true | String _ _ => false end.

Fixpoint take (n : nat) (s : string) : string :=
  match n, s with
  | S n', String c s' => String c (take n' s')
  | _, _ => EmptyString
  end.

Fixpoint drop (n : nat) (s : string) : string :=
  match n, s with
  | S n', String _ s' => drop n' s'
  | _, _ => s
  end.

(** [s.slice(from, to)] and [s.slice(from)]: negative indices count from the
    end, and both are clamped to the string. *)
Definition clamp (i : Z) (s : string) : nat :=
  Z.to_nat (if i <? 0 then Z.max (len s + i) 0 else Z.min i (len s)).

Definition slice (s : string) (from to : Z) : string :=
  take (clamp to s - clamp from s) (drop (clamp from s) s).

Definition sliceFrom (s : string) (from : Z) : string :=
  drop (clamp from s) s.

Definition startsWith (s pat : string) : bool := String.prefix pat s.

(** [s.indexOf(pat)]: the least index at which [pat] occurs, or [-1]. *)
Fixpoint indexOfFrom (s pat : string) (i : Z) : Z :=
  if String.prefix pat s then i
  else match s with
       | EmptyString => -1
       | String _ s' => indexOfFrom s' pat (i + 1)
       end.

Definition indexOf (s pat : string) : Z := indexOfFrom s pat 0.

(** [s.lastIndexOf(pat)]: the greatest index at which [pat] occurs, or [-1]. *)
Fixpoint lastIndexOfFrom (s pat : string) (i : Z) : Z :=
  match s with
  | EmptyString => if String.prefix pat s then i else -1
  | String _ s' =>
      let later := lastIndexOfFrom s' pat (i + 1) in
      if 0 <=? later then later
      else if String.prefix pat s then i else -1
  end.

Definition lastIndexOf (s pat : string) : Z := lastIndexOfFrom s pat 0.

(** White space and line terminators of ECMAScript among the code units
    below 256: TAB, LF, VT, FF, CR, SPACE and NBSP. *)
Definition isWhiteSpace (c : ascii) : bool :=
  let n := nat_of_ascii c in
  ((9 <=? n) && (n <=? 13) || (n =? 32) || (n =? 160))%nat.

Fixpoint trimStart (s : string) : string :=
  match s with
  | EmptyString => EmptyString
  | String c s' => if isWhiteSpace c then trimStart s' else s
  end.

Fixpoint trimEnd (s : string) : string :=
  match s with
  | EmptyString => EmptyString
  | String c s' =>
      let t := trimEnd s' in
      if isWhiteSpace c && isEmpty t then EmptyString else String c t
  end.

Definition trim (s : string) : string := trimEnd (trimStart s).

(** [s.toLowerCase()] on code units below 256: A-Z and the Latin-1 capitals. *)
Definition lowerChar (c : ascii) : ascii :=
  let n := nat_of_ascii c in
  if ((65 <=? n) && (n <=? 90)
      || (192 <=? n) && (n <=? 222) && negb (n =? 215))%nat
  then ascii_of_nat (n + 32) else c.

Fixpoint toLowerCase (s : string) : string :=
  match s with
  | EmptyString => EmptyString
  | String c s' => String (lowerChar c) (toLowerCase s')
  end.

(** Decimal rendering of an integer, as in a template literal. *)
Definition decimal (z : Z) : string := NilEmpty.string_of_int (Z.to_int z).

(** [contains s c]: the code unit [c] occurs in [s]. *)
Fixpoint contains (s : string) (c : ascii) : bool :=
  match s with
  | EmptyString => false
  | String d s' => Ascii.eqb d c || contains s' c
  end.

(** [occursAt s pat i]: [pat] occurs in [s] at index [i]. *)
Definition occursAt (s pat : string) (i : nat) : Prop :=
  (i <= String.length s)%nat /\ String.prefix pat (drop i s) = true.

End Js.

(** ** JavaScript values, errors and the engine interface *)

(** A number: an integer, or [NaN] where a conversion fails. *)
Inductive number : Type :=
| Int (z : Z)
| NaN.

(** A value of TypeScript type [any]: what [JSON.parse] returns, and
    [undefined] for what a property read finds absent. An object lists its
    own properties, each key once. *)
Inductive any : Type :=
| VUndefined
| VNull
| VBool (b : bool)
| VNum (n : number)
| VStr (s : string)
| VArr (items : list any)
| VObj (fields : list (string * any)).

(** An [Error] object: [e.message], and [e.name] for [String(e)]. *)
Record Error : Type := mkError { name : string; message : string }.

(** The outcome of an expression that can throw. *)
Inductive result (A : Type) : Type :=
| Ok (a : A)
| Throw (e : Error).

Arguments Ok {A} a.
Arguments Throw {A} e.

Definition bind {A B : Type} (c : result A) (k : A -> result B) : result B :=
  match c with
  | Ok a => k a
  | Throw e => Throw e
  end.

Declare Scope js_scope.
Delimit Scope js_scope with js.
Notation "x <- c ;; k" := (bind c (fun x => k))
  (at level 61, c at next level, right associativity) : js_scope.
Local Open Scope js_scope.

(** What the engine supplies. [JSON_parse] is [None] where [JSON.parse]
    throws a [SyntaxError]; [StringToNumber] is the numeric value of a string
    ([Number("12") = 12], [Number("x") = NaN]); [TypeError site] is the error
    the engine throws when the expression [site] is not callable or reads a
    property of [null]. *)
Class Platform : Type := {
  JSON_parse : string -> option any;
  StringToNumber : string -> number;
  TypeError : string -> Error
}.

Module Value.

Definition numberTruthy (n : number) : bool :=
  match n with
  | Int z => negb (z =? 0)
  | NaN => false
  end.

(** ToBoolean. *)
Definition truthy (v : any) : bool :=
  match v with
  | VUndefined | VNull => false
  | VBool b => b
  | VNum n => numberTruthy n
  | VStr s => negb (Js.isEmpty s)
  | VArr _ | VObj _ => true
  end.

(** [a || b]. *)
Definition orElse (a b : any) : any := if truthy a then a else b.

Definition nullish (v : any) : bool :=
  match v with
  | VUndefined | VNull => true
  | _ => false
  end.

Fixpoint lookup (fields : list (string * any)) (k : string) : any :=
  match fields with
  | [] => VUndefined
  | (k', v) :: rest => if String.eqb k' k then v else lookup rest k
  end.

(** [v.k] for a [v] that is neither [null] nor [undefined]: the own property
    [k], the [length] of a string or array, otherwise [undefined]. (Of the
    inherited members the program can only meet [Array.prototype.values], a
    function, and only as the argument of [Array.isArray], where a function
    and [undefined] behave alike.) *)
Definition prop (v : any) (k : string) : any :=
  match v with
  | VObj fields => lookup fields k
  | VArr items =>
      if String.eqb k "length" then VNum (Int (Z.of_nat (List.length items)))
      else VUndefined
  | VStr s => if String.eqb k "length" then VNum (Int (Js.len s)) else VUndefined
  | _ => VUndefined
  end.

(** [v?.k]. *)
Definition optProp (v : any) (k : string) : any :=
  if nullish v then VUndefined else prop v k.

(** [v[i]] for a [v] that is neither [null] nor [undefined]. *)
Definition index (v : any) (i : nat) : any :=
  match v with
  | VArr items => nth i items VUndefined
  | VStr s =>
      match String.get i s with
      | Some c => VStr (Js.str c)
      | None => VUndefined
      end
  | VObj fields => lookup fields (Js.decimal (Z.of_nat i))
  | _ => VUndefined
  end.

(** [v?.[i]]. *)
Definition optIndex (v : any) (i : nat) : any :=
  if nullish v then VUndefined else index v i.

Definition numberToString (n : number) : string :=
  match n with
  | Int z => Js.decimal z
  | NaN => "NaN"
  end.

(** [String(v)], also the property key a value is converted to. *)
Fixpoint toString (v : any) : string :=
  match v with
  | VUndefined => "undefined"
  | VNull => "null"
  | VBool b => if b then "true" else "false"
  | VNum n => numberToString n
  | VStr s => s
  | VArr items =>
      String.concat ","
        (List.map (fun x => if nullish x then EmptyString else toString x) items)
  | VObj _ => "[object Object]"
  end.

Section WithPlatform.
Context {P : Platform}.

(** [Number(v)]. *)
Definition toNumber (v : any) : number :=
  match v with
  | VUndefined => NaN
  | VNull => Int 0
  | VBool b => Int (if b then 1 else 0)
  | VNum n => n
  | VStr s => StringToNumber s
  | VArr _ | VObj _ => StringToNumber (toString v)
  end.

(** [Number(v || 0)]. *)
Definition numberOr0 (v : any) : number := toNumber (orElse v (VNum (Int 0))).

(** [v.k] where [v] may be [null] or [undefined]: the read throws there. *)
Definition read (site : string) (v : any) (k : string) : result any :=
  if nullish v then Throw (TypeError site) else Ok (prop v k).

(** The elements of [v] for [v.map], [v.forEach], [v.reduce], which exist on
    arrays only: on anything else the call throws. *)
Definition elements (site : string) (v : any) : result (list any) :=
  match v with
  | VArr items => Ok items
  | _ => Throw (TypeError site)
  end.

End WithPlatform.

Definition add (a b : number) : number :=
  match a, b with
  | Int x, Int y => Int (x + y)
  | _, _ => NaN
  end.

(** [Math.min(x, ...xs)] and [Math.max(x, ...xs)]: [NaN] as soon as one
    argument is. *)
Definition min2 (a b : number) : number :=
  match a, b with
  | Int x, Int y => Int (Z.min x y)
  | _, _ => NaN
  end.

Definition max2 (a b : number) : number :=
  match a, b with
  | Int x, Int y => Int (Z.max x y)
  | _, _ => NaN
  end.

Definition mathMin (x : number) (xs : list number) : number := fold_left min2 xs x.
Definition mathMax (x : number) (xs : list number) : number := fold_left max2 xs x.

End Value.

(** ** The dashboard: chart models, normalizers and the refresh cycle
    ([SafetyDashboard.tsx]) *)

Module Dashboard.

Import Value.

Record KPI : Type := mkKPI {
  label : string;
  kpiValue : number;
  delta : option number
}.

(** [{ name, value }]; [name] is the label as the payload has it. *)
Record SimpleDatum : Type := mkSimple { datumName : any; value : number }.

Record TrendDatum : Type := mkTrend { month : string; trendValue : number }.

(** [{ name, [series]: number }]: the properties of one row, in the order
    the object lists them ([Object.keys]). *)
Definition GroupDatum : Type := list (string * any).

Record HeatMatrix : Type := mkHeat {
  x_labels : list string;
  y_labels : list string;
  values : list (list number);
  min : number;
  max : number;
  title : option string
}.

(** What a slot holds: each slot has one of the five chart models. *)
Inductive ChartData : Type :=
| Simple (d : list SimpleDatum)
| Trend (d : list TrendDatum)
| Group (d : list GroupDatum)
| Heat (d : HeatMatrix)
| Kpis (d : list KPI).

Record ApiState : Type := mkApi {
  loading : bool;
  error : option string;
  data : option ChartData
}.

(** The array index that a property key is, if it is one: the decimal form,
    without leading zero, of an integer from 0 to 2^32 - 2. *)
Fixpoint digitsValue (s : string) (acc : Z) : option Z :=
  match s with
  | EmptyString => Some acc
  | String c s' =>
      let n := nat_of_ascii c in
      if ((48 <=? n) && (n <=? 57))%nat
      then digitsValue s' (10 * acc + Z.of_nat (n - 48))
      else None
  end.

Definition arrayIndex (key : string) : option Z :=
  match key with
  | EmptyString => None
  | String c rest =>
      if Ascii.eqb c "0" && negb (Js.isEmpty rest) then None
      else match digitsValue key 0 with
           | Some n => if n <=? 4294967294 then Some n else None
           | None => None
           end
  end.

(** The value of an existing property is replaced where the property is. *)
Fixpoint replace (row : GroupDatum) (key : string) (v : any) : GroupDatum :=
  match row with
  | [] => []
  | (k, w) :: rest =>
      if String.eqb k key then (k, v) :: rest else (k, w) :: replace rest key v
  end.

(** A new property whose key is the array index [n] is listed among the
    array indices, in ascending order, before every other key. *)
Fixpoint insertIndex (n : Z) (key : string) (v : any) (row : GroupDatum)
  : GroupDatum :=
  match row with
  | [] => [(key, v)]
  | (k, w) :: rest =>
      match arrayIndex k with
      | Some m =>
          if n <? m then (key, v) :: (k, w) :: rest
          else (k, w) :: insertIndex n key v rest
      | None => (key, v) :: (k, w) :: rest
      end
  end.

(** [row[key] = v] on an object literal: a property that exists keeps its
    place and gets the value; a new property is listed with the array
    indices if its key is one, and last otherwise. Assigning a number to
    [__proto__] changes nothing. *)
Definition assign (row : GroupDatum) (key : string) (v : any) : GroupDatum :=
  if existsb (fun kv => String.eqb (fst kv) key) row then replace row key v
  else match arrayIndex key with
       | Some n => insertIndex n key v row
       | None => (row ++ [(key, v)])%list
       end.

Definition setProperty (row : GroupDatum) (key : string) (v : any) : GroupDatum :=
  if String.eqb key "__proto__" then row else assign row key v.




(** [xs.map((x, i) => f x i)] for an [f] that can throw. *)
Fixpoint mapi {A B : Type} (f : A -> nat -> result B) (xs : list A) (i : nat)
  : result (list B) :=
  match xs with
  | [] => Ok []
  | x :: rest =>
      y <- f x i ;;
      ys <- mapi f rest (S i) ;;
      Ok (y :: ys)
  end.

(** [xs.reduce((acc, x) => f acc x, init)] and [xs.forEach] with an
    accumulated effect, for an [f] that can throw. *)
Fixpoint foldM {A S : Type} (f : S -> A -> result S) (xs : list A) (init : S)
  : result S :=
  match xs with
  | [] => Ok init
  | x :: rest => acc <- f init x ;; foldM f rest acc
  end.

(** [xs.find(p)] for a [p] that can throw. *)
Fixpoint findM {A : Type} (p : A -> result bool) (xs : list A)
  : result (option A) :=
  match xs with
  | [] => Ok None
  | x :: rest =>
      b <- p x ;;
      if (b : bool) then Ok (Some x) else findM p rest
  end.

Section Normalizers.
Context {P : Platform}.

Definition parseCategoryChart (json : any) : result (list SimpleDatum) :=
  if negb (truthy json) || truthy (prop json "error") then Ok []
  else
    let labels := orElse (prop json "labels") (VArr []) in
    let data := orElse (optProp (optIndex (prop json "datasets") 0) "data") (VArr []) in
    items <- elements "labels.map" labels ;;
    mapi (fun name i =>
            Ok {| datumName := name; value := numberOr0 (index data i) |})
         items 0.

Definition parseStackedChart (json : any) : result (list GroupDatum) :=
  if negb (truthy json) || truthy (prop json "error") then Ok []
  else
    let labels := orElse (prop json "labels") (VArr []) in
    let datasets := orElse (prop json "datasets") (VArr []) in
    items <- elements "labels.map" labels ;;
    mapi (fun name i =>
            let row : GroupDatum := [("name", name)] in
            dss <- elements "datasets.forEach" datasets ;;
            foldM (fun row ds =>
                     l <- read "ds.label" ds "label" ;;
                     let key := orElse l (VStr "series") in
                     Ok (setProperty row (toString key)
                           (VNum (numberOr0 (optIndex (prop ds "data") i)))))
                  dss row)
         items 0.

Definition parseMonthlyTrends (json : any) : result (list TrendDatum) :=
  if negb (truthy json) || truthy (prop json "error") then Ok []
  else
    let labels := orElse (prop json "labels") (VArr []) in
    let datasets := orElse (prop json "datasets") (VArr []) in
    items <- elements "labels.map" labels ;;
    mapi (fun month i =>
            dss <- elements "datasets.reduce" datasets ;;
            total <- foldM (fun sum ds =>
                              d <- read "ds.data" ds "data" ;;
                              Ok (add sum (numberOr0 (optIndex d i))))
                           dss (Int 0) ;;
            Ok {| month := toString month; trendValue := total |})
         items 0.

Definition stringsOf (v : any) : list string :=
  match v with
  | VArr items => List.map toString items
  | _ => []
  end.

Definition parseHeatmap (json : any) : HeatMatrix :=
  if negb (truthy json) || truthy (prop json "error") then
    {| x_labels := []; y_labels := []; values := [];
       min := Int 0; max := Int 0; title := None |}
  else
    let x := stringsOf (prop json "x_labels") in
    let y := stringsOf (prop json "y_labels") in
    let valsRaw := match prop json "values" with VArr rows => rows | _ => [] end in
    let vals :=
      List.map (fun row => match row with
                           | VArr vs => List.map numberOr0 vs
                           | _ => []
                           end) valsRaw in
    let min0 := match prop json "min" with VNum n => n | _ => Int 0 end in
    let max0 := match prop json "max" with VNum n => n | _ => Int 0 end in
    let '(min1, max1) :=
      if negb (truthy (prop json "min")) || negb (truthy (prop json "max")) then
        match List.concat vals with
        | [] => (min0, max0)
        | v :: flat => (mathMin v flat, mathMax v flat)
        end
      else (min0, max0) in
    {| x_labels := x; y_labels := y; values := vals; min := min1; max := max1;
       title := match prop json "title" with VStr t => Some t | _ => None end |}.

(** [d.name?.toLowerCase() === wanted]: [toLowerCase] exists on strings
    only. *)
Definition nameIs (wanted : string) (d : SimpleDatum) : result bool :=
  match datumName d with
  | VUndefined | VNull => Ok false
  | VStr s => Ok (String.eqb (Js.toLowerCase s) wanted)
  | _ => Throw (TypeError "d.name?.toLowerCase")
  end.

(** [byCat?.find((d) => d.name?.toLowerCase() === wanted)?.value || 0]. *)
Definition total (byCat : list SimpleDatum) (wanted : string) : result number :=
  found <- findM (nameIs wanted) byCat ;;
  Ok match found with
     | Some d => if numberTruthy (value d) then value d else Int 0
     | None => Int 0
     end.

Definition composeKpis (byCat : list SimpleDatum) : result (list KPI) :=
  totalIncidents <- total byCat "incidents" ;;
  totalHazards <- total byCat "hazards" ;;
  totalAudits <- total byCat "audits" ;;
  totalInspections <- total byCat "inspections" ;;
  Ok [ {| label := "Incidents"; kpiValue := totalIncidents; delta := None |};
       {| label := "Hazards"; kpiValue := totalHazards; delta := None |};
       {| label := "Audits"; kpiValue := totalAudits; delta := None |};
       {| label := "Inspections"; kpiValue := totalInspections; delta := None |} ].

End Normalizers.

(** *** Requests *)

(** What [fetch] comes back with: a rejection (the network failed), or a
    response with its [ok] flag, its status, its body as text ([None] where
    [res.text()] rejects) and its body read as JSON. *)
Inductive Fetched : Type :=
| NetworkFailure (e : Error)
| Response (ok : bool) (status : Z) (text : option string) (json : result any).

Definition fetchJSON (f : Fetched) : result any :=
  match f with
  | NetworkFailure e => Throw e
  | Response ok status text json =>
      if negb ok then
        let text := match text with Some t => t | None => EmptyString end in
        Throw (mkError "Error"
                 (if Js.isEmpty text then "Request failed: " ++ Js.decimal status
                  else text))
      else json
  end.

(** One of the promises handed to [Promise.all]: the instant it settles and
    what it settles with. *)
Record Settled : Type := mkSettled { settledAt : nat; outcome : result any }.

(** The rejection that settles first (the earlier promise on a tie). *)
Fixpoint firstRejection (ps : list Settled) : option (nat * Error) :=
  match ps with
  | [] => None
  | p :: rest =>
      match outcome p, firstRejection rest with
      | Throw e, Some (t, e') => if (settledAt p <=? t)%nat then Some (settledAt p, e) else Some (t, e')
      | Throw e, None => Some (settledAt p, e)
      | Ok _, later => later
      end
  end.

Definition fulfilled (ps : list Settled) : list any :=
  flat_map (fun p => match outcome p with Ok v => [v] | Throw _ => [] end) ps.

(** [await Promise.all(ps)]: the values in the order of [ps], or the first
    rejection. *)
Definition Promise_all (ps : list Settled) : result (list any) :=
  match firstRejection ps with
  | Some (_, e) => Throw e
  | None => Ok (fulfilled ps)
  end.

(** *** Slots and the refresh cycle *)

Inductive Slot : Type :=
| kpis
| entriesByCategory
| incidentHazardTypes
| monthlyTrends
| entriesByLocation
| stackedEntriesByLocation
| typesByLocation
| proportionByLocation
| statusByLocation
| heatmap
| incidentsTypes
| incidentsTopLocations
| hazardsMonthly
| hazardsByLocation
| hazardsByRisk
| hazardsByArea
| hazardsHeatmap
| hazVsIncByDept.

Definition allSlots : list Slot :=
  [ kpis; entriesByCategory; incidentHazardTypes; monthlyTrends;
    entriesByLocation; stackedEntriesByLocation; typesByLocation;
    proportionByLocation; statusByLocation; heatmap; incidentsTypes;
    incidentsTopLocations; hazardsMonthly; hazardsByLocation; hazardsByRisk;
    hazardsByArea; hazardsHeatmap; hazVsIncByDept ].

Definition Slot_eq_dec (a b : Slot) : {a = b} + {a <> b}.
Proof. decide equality. Defined.

Record Toast : Type := mkToast { toastTitle : string; description : string }.

(** The state of the component: one [ApiState] per slot, the time of the
    last successful cycle and the notifications shown so far. *)
Record State : Type := mkState {
  slots : Slot -> ApiState;
  lastUpdated : option Z;
  toasts : list Toast
}.

(** [useState({ loading: true, error: null, data: null })] for every slot. *)
Definition initial : State :=
  {| slots := fun _ => {| loading := true; error := None; data := None |};
     lastUpdated := None;
     toasts := [] |}.

(** [setX(f)] for the setter of slot [x]. *)
Definition set (x : Slot) (f : ApiState -> ApiState) (st : State) : State :=
  {| slots := fun y => if Slot_eq_dec x y then f (slots st y) else slots st y;
     lastUpdated := lastUpdated st;
     toasts := toasts st |}.

(** [(s) => ({ ...s, loading: true, error: null })]. *)
Definition markLoading (s : ApiState) : ApiState :=
  {| loading := true; error := None; data := data s |}.

(** [{ loading: false, error: null, data: d }]. *)
Definition loaded (d : ChartData) (_ : ApiState) : ApiState :=
  {| loading := false; error := None; data := Some d |}.

(** [(s) => ({ ...s, loading: false, error: msg })]. *)
Definition failed (msg : string) (s : ApiState) : ApiState :=
  {| loading := false; error := Some msg; data := data s |}.

Definition toastError (title msg : string) (st : State) : State :=
  {| slots := slots st; lastUpdated := lastUpdated st;
     toasts := toasts st ++ [ {| toastTitle := title; description := msg |} ] |}.

Definition setLastUpdated (now : Z) (st : State) : State :=
  {| slots := slots st; lastUpdated := Some now; toasts := toasts st |}.

(** [f1 |> f2 |> ...]: the setter calls of a block, first to last. *)
Definition run (calls : list (State -> State)) (st : State) : State :=
  fold_left (fun s call => call s) calls st.

(** The part of [refreshAll] before its [await]. *)
Definition refreshAll_begin : State -> State :=
  run [ set kpis markLoading;
        set entriesByCategory markLoading;
        set incidentHazardTypes markLoading;
        set monthlyTrends markLoading;
        set entriesByLocation markLoading;
        set stackedEntriesByLocation markLoading;
        set typesByLocation markLoading;
        set proportionByLocation markLoading;
        set statusByLocation markLoading;
        set heatmap markLoading;
        set incidentsTypes markLoading;
        set incidentsTopLocations markLoading;
        set hazardsMonthly markLoading;
        set hazardsByLocation markLoading ].

(** [e?.message || "Failed to load charts"]. *)
Definition failureMessage (e : Error) : string :=
  if Js.isEmpty (message e) then "Failed to load charts" else message e.

(** The [catch] block. *)
Definition refreshAll_catch (e : Error) : State -> State :=
  let msg := failureMessage e in
  run [ set entriesByCategory (failed msg);
        set incidentHazardTypes (failed msg);
        set monthlyTrends (failed msg);
        set entriesByLocation (failed msg);
        set stackedEntriesByLocation (failed msg);
        set typesByLocation (failed msg);
        set proportionByLocation (failed msg);
        set statusByLocation (failed msg);
        set heatmap (failed msg);
        set incidentsTypes (failed msg);
        set incidentsTopLocations (failed msg);
        set hazardsMonthly (failed msg);
        set hazardsByLocation (failed msg);
        set hazardsByRisk (failed msg);
        set hazardsByArea (failed msg);
        set hazardsHeatmap (failed msg);
        set hazVsIncByDept (failed msg);
        set kpis (failed msg);
        toastError "Error loading data" msg ].

Section Refresh.
Context {P : Platform}.

(** The [try] block from the [await] on: the state it leaves, and whether it
    completed or threw. The destructuring reads the seventeen results by
    position, [undefined] where the array is shorter. *)
Definition refreshAll_try (ps : list Settled) (now : Z) (st : State)
  : State * result unit :=
  match Promise_all ps with
  | Throw e => (st, Throw e)
  | Ok js =>
      let json (i : nat) := nth i js VUndefined in
      let parsed :=
        byCat <- parseCategoryChart (json 0%nat) ;;
        types <- parseCategoryChart (json 1%nat) ;;
        trends <- parseMonthlyTrends (json 2%nat) ;;
        byLoc <- parseCategoryChart (json 3%nat) ;;
        stackedLoc <- parseStackedChart (json 4%nat) ;;
        typesLoc <- parseStackedChart (json 5%nat) ;;
        propLoc <- parseCategoryChart (json 6%nat) ;;
        statusLoc <- parseStackedChart (json 7%nat) ;;
        let heat := parseHeatmap (json 8%nat) in
        incTypes <- parseCategoryChart (json 9%nat) ;;
        incTopLoc <- parseCategoryChart (json 10%nat) ;;
        hazMonthly <- parseMonthlyTrends (json 11%nat) ;;
        hazLoc <- parseCategoryChart (json 12%nat) ;;
        hazRisk <- parseCategoryChart (json 13%nat) ;;
        hazArea <- parseCategoryChart (json 14%nat) ;;
        let hazHeat := parseHeatmap (json 15%nat) in
        hazVsInc <- parseStackedChart (json 16%nat) ;;
        Ok (byCat,
            run [ set entriesByCategory (loaded (Simple byCat));
                  set incidentHazardTypes (loaded (Simple types));
                  set monthlyTrends (loaded (Trend trends));
                  set entriesByLocation (loaded (Simple byLoc));
                  set stackedEntriesByLocation (loaded (Group stackedLoc));
                  set typesByLocation (loaded (Group typesLoc));
                  set proportionByLocation (loaded (Simple propLoc));
                  set statusByLocation (loaded (Group statusLoc));
                  set heatmap (loaded (Heat heat));
                  set incidentsTypes (loaded (Simple incTypes));
                  set incidentsTopLocations (loaded (Simple incTopLoc));
                  set hazardsMonthly (loaded (Trend hazMonthly));
                  set hazardsByLocation (loaded (Simple hazLoc));
                  set hazardsByRisk (loaded (Simple hazRisk));
                  set hazardsByArea (loaded (Simple hazArea));
                  set hazardsHeatmap (loaded (Heat hazHeat));
                  set hazVsIncByDept (loaded (Group hazVsInc)) ]) in
      match parsed with
      | Throw e => (st, Throw e)
      | Ok (byCat, commit) =>
          let st1 := commit st in
          match composeKpis byCat with
          | Throw e => (st1, Throw e)
          | Ok kpiData =>
              (run [ set kpis (loaded (Kpis kpiData)); setLastUpdated now ] st1,
               Ok tt)
          end
      end
  end.

(** The part of [refreshAll] after its [await]: [ps] are the seventeen
    requests as they settled, [now] is [new Date()]. *)
Definition refreshAll_settle (ps : list Settled) (now : Z) (st : State) : State :=
  match refreshAll_try ps now st with
  | (st', Ok _) => st'
  | (st', Throw e) => refreshAll_catch e st'
  end.

(** A refresh cycle whose requests settle before another cycle starts. *)
Definition refreshAll (ps : list Settled) (now : Z) (st : State) : State :=
  refreshAll_settle ps now (refreshAll_begin st).

End Refresh.

(** The invariant of a slot as the specification words it: exactly one of
    [loading = true] or ([data] set xor [error] set). *)
Definition isSet {A : Type} (o : option A) : bool :=
  match o with Some _ => true | None => false end.

Definition exactlyOneOf (s : ApiState) : bool :=
  xorb (loading s) (xorb (isSet (data s)) (isSet (error s))).

(** Seventeen requests that all come back with the status [status] and the
    JSON body [body]. *)
Definition respond (ok : bool) (status : Z) (body : any) : list Settled :=
  List.map (fun t => {| settledAt := t;
                        outcome := fetchJSON (Response ok status (Some EmptyString) (Ok body)) |})
           (seq 0 17).

(** [{ labels: ["Incidents"], datasets: [{ label: "Count", data: [42] }] }]. *)
Definition countPayload : any :=
  VObj [ ("labels", VArr [VStr "Incidents"]);
         ("datasets", VArr [VObj [("label", VStr "Count");
                                  ("data", VArr [VNum (Int 42)])]]) ].

(** Seventeen requests of which the sixth alone is answered with status 503. *)
Definition oneRejects : list Settled :=
  List.map (fun t => {| settledAt := t;
                        outcome := fetchJSON
                                     (Response (negb (t =? 5)%nat)
                                        (if (t =? 5)%nat then 503 else 200)
                                        (Some "backend down") (Ok countPayload)) |})
           (seq 0 17).

End Dashboard.

(** ** The chat turn: frame decoder, render scheduler and error path
    ([sendQuestion] in [ChatWidget.tsx]) *)

Module Chat.

Import Value.

Inductive Role : Type := user | assistant | system.

Definition Role_eqb (a b : Role) : bool :=
  match a, b with
  | user, user | assistant, assistant | system, system => true
  | _, _ => false
  end.

Record ChatMessage : Type := mkMessage {
  id : string;
  role : Role;
  content : string;
  meta : any
}.

(** A request handed to [fetch]. *)
Record Request : Type := mkRequest {
  endpoint : string;
  question : string;
  model : string
}.

(** The React state of the widget that [sendQuestion] reads and writes, and
    the requests it has issued. *)
Record Ui : Type := mkUi {
  messages : list ChatMessage;
  input : string;
  loading : bool;
  requests : list Request
}.

(** The variables of one invocation of [sendQuestion] past its guard:
    [assistantId], [textAccum], [scheduled] and [buffer] are the locals of
    that name; [pending] counts the callbacks this invocation has handed to
    [requestAnimationFrame] (or [setTimeout]) and that have not run yet.
    Two history variables observe the decoder: [emitted] records, oldest
    first, the pieces that [textAccum] was put together from, and
    [sentinel] is set once the loop has left at a [[DONE]] line. *)
Record Locals : Type := mkLocals {
  assistantId : string;
  textAccum : string;
  scheduled : bool;
  buffer : string;
  pending : nat;
  emitted : list string;
  sentinel : bool
}.

(** The locals as [sendQuestion] declares them. *)
Definition fresh (assistantId : string) : Locals :=
  {| assistantId := assistantId; textAccum := EmptyString; scheduled := false;
     buffer := EmptyString; pending := 0%nat; emitted := [];
     sentinel := false |}.

Definition setMessages (f : list ChatMessage -> list ChatMessage) (u : Ui) : Ui :=
  {| messages := f (messages u); input := input u; loading := loading u;
     requests := requests u |}.

Definition setInput (s : string) (u : Ui) : Ui :=
  {| messages := messages u; input := s; loading := loading u;
     requests := requests u |}.

Definition setLoading (b : bool) (u : Ui) : Ui :=
  {| messages := messages u; input := input u; loading := b;
     requests := requests u |}.

Definition fetch (r : Request) (u : Ui) : Ui :=
  {| messages := messages u; input := input u; loading := loading u;
     requests := requests u ++ [r] |}.

Definition setContent (text : string) (msg : ChatMessage) : ChatMessage :=
  {| id := id msg; role := role msg; content := text; meta := meta msg |}.

(** [setMessages((m) => m.map((msg) => (msg.id === assistantId ?
    { ...msg, content: textAccum } : msg)))]. *)
Definition commit (l : Locals) : Ui -> Ui :=
  setMessages
    (List.map (fun msg =>
                 if String.eqb (id msg) (assistantId l)
                 then setContent (textAccum l) msg else msg)).

(** What the messages with the id [assistantId] show, first to last. *)
Definition turnContents (assistantId : string) (u : Ui) : list string :=
  List.map content
    (List.filter (fun msg => String.eqb (id msg) assistantId) (messages u)).

Section SendQuestion.
Context {P : Platform}.

(** The resolved configuration: [NEXT_PUBLIC_CHAT_BASE] without its final
    slash, and [NEXT_PUBLIC_CHAT_MODEL], or their defaults. *)
Variables chatBase chatModel : string.

(** [sendQuestion(q)] up to its first [await]. [now1] and [now2] are the two
    readings of [Date.now()], [rnd] is [Math.random().toString(36)]. The
    result is the state after the call and, past the guard, the locals of
    the invocation that goes on. *)
Definition sendQuestion (q : string) (now1 now2 : Z) (rnd : string) (u : Ui)
  : Ui * option Locals :=
  let question := Js.trim q in
  if Js.isEmpty question || loading u then (u, None)
  else
    let userId := "u_" ++ Js.decimal now1 in
    let assistantId := "a_" ++ Js.decimal now2 ++ "_" ++ Js.slice rnd 2 8 in
    let u := setMessages
               (fun m => (m ++ [ {| id := userId; role := user;
                                    content := question; meta := VUndefined |};
                                 {| id := assistantId; role := assistant;
                                    content := EmptyString; meta := VUndefined |} ])%list)
               u in
    let u := setInput EmptyString u in
    let u := setLoading true u in
    let u := fetch {| endpoint := chatBase ++ "/chat/stream";
                      question := question; model := chatModel |} u in
    (u, Some (fresh assistantId)).

(** [scheduleFlush()]. *)
Definition scheduleFlush (l : Locals) : Locals :=
  if scheduled l then l
  else {| assistantId := assistantId l; textAccum := textAccum l;
          scheduled := true; buffer := buffer l;
          pending := S (pending l); emitted := emitted l;
          sentinel := sentinel l |}.

(** [cb], the callback [scheduleFlush] registers. *)
Definition cb (s : Ui * Locals) : Ui * Locals :=
  let '(u, l) := s in
  let l := {| assistantId := assistantId l; textAccum := textAccum l;
              scheduled := false; buffer := buffer l;
              pending := pending l; emitted := emitted l;
              sentinel := sentinel l |} in
  (commit l u, l).

Definition setBuffer (b : string) (l : Locals) : Locals :=
  {| assistantId := assistantId l; textAccum := textAccum l;
     scheduled := scheduled l; buffer := b;
     pending := pending l; emitted := emitted l; sentinel := sentinel l |}.

(** [textAccum += piece]. *)
Definition accumulate (piece : string) (l : Locals) : Locals :=
  {| assistantId := assistantId l; textAccum := textAccum l ++ piece;
     scheduled := scheduled l; buffer := buffer l;
     pending := pending l; emitted := emitted l ++ [piece];
     sentinel := sentinel l |}.

(** The [break] at the [[DONE]] line. *)
Definition leaveAtSentinel (l : Locals) : Locals :=
  {| assistantId := assistantId l; textAccum := textAccum l;
     scheduled := scheduled l; buffer := buffer l;
     pending := pending l; emitted := emitted l; sentinel := true |}.

(** The inner [while (nl !== -1)] loop, at most [fuel] rounds of it. *)
Fixpoint pump (fuel : nat) (l : Locals) : Locals :=
  match fuel with
  | O => l
  | S fuel' =>
      let nl := Js.indexOf (buffer l) (Js.str Js.LF) in
      if nl =? -1 then l
      else
        let line := Js.trim (Js.slice (buffer l) 0 nl) in
        let l := setBuffer (Js.sliceFrom (buffer l) (nl + 1)) l in
        if Js.startsWith line "data:" then
          let payload := Js.trim (Js.sliceFrom line 5) in
          if String.eqb payload "[DONE]" then leaveAtSentinel l
          else
            match JSON_parse payload with
            | Some obj =>
                let piece := match optProp obj "content" with
                             | VStr s => s
                             | _ => EmptyString
                             end in
                if Js.isEmpty piece then pump fuel' l
                else pump fuel' (scheduleFlush (accumulate piece l))
            | None => pump fuel' l
            end
        else pump fuel' l
  end.

(** One round of the outer loop for a chunk that [reader.read()] delivered:
    [chunk] is [decoder.decode(value, { stream: true })]. Every round of the
    inner loop shortens the buffer, so the fuel given is never used up. *)
Definition feed (chunk : string) (l : Locals) : Locals :=
  let l := setBuffer (buffer l ++ chunk) l in
  pump (S (String.length (buffer l))) l.

(** The chunks of a stream, fed one after the other. *)
Definition feedAll (chunks : list string) (l : Locals) : Locals :=
  fold_left (fun l chunk => feed chunk l) chunks l.

(** The chunks of a stream as one text. *)
Definition joined (chunks : list string) : string :=
  fold_right append EmptyString chunks.

(** What the event loop can deliver to an invocation that is under way. *)
Inductive Event : Type :=
| Chunk (chunk : string)     (* [reader.read()] resolves with a value *)
| Eof                        (* [reader.read()] resolves with [done] *)
| NoReader (txt : string)    (* [res.body] is absent, [res.text()] resolves *)
| Fail (err : Error)         (* [fetch], a non-2xx status, or a read rejects *)
| Frame.                     (* the display refreshes: pending callbacks run *)

(** The callbacks of one display frame: every pending callback runs once. *)
Fixpoint runCallbacks (n : nat) (s : Ui * Locals) : Ui * Locals :=
  match n with
  | O => s
  | S n' => runCallbacks n' (cb s)
  end.

Definition clearPending (l : Locals) : Locals :=
  {| assistantId := assistantId l; textAccum := textAccum l;
     scheduled := scheduled l; buffer := buffer l;
     pending := 0%nat; emitted := emitted l; sentinel := sentinel l |}.

(** The [catch] block: an assistant message whose content is the empty
    string gets the content [`Error: ${err?.message || "Something went wrong"}`],
    every other message is kept. *)
Definition onError (err : Error) : Ui -> Ui :=
  setMessages
    (List.map (fun msg =>
                 if Role_eqb (role msg) assistant && Js.isEmpty (content msg)
                 then setContent ("Error: " ++
                                  (if Js.isEmpty (message err)
                                   then "Something went wrong" else message err))
                                 msg
                 else msg)).

Definition step (s : Ui * Locals) (ev : Event) : Ui * Locals :=
  let '(u, l) := s in
  match ev with
  | Chunk chunk => (u, feed chunk l)
  | Eof => (setLoading false (commit l u), l)
  | NoReader txt =>
      let l := {| assistantId := assistantId l; textAccum := txt;
                  scheduled := scheduled l; buffer := buffer l;
                  pending := pending l; emitted := [txt];
                  sentinel := sentinel l |} in
      (setLoading false (commit l u), l)
  | Fail err => (setLoading false (onError err u), l)
  | Frame => runCallbacks (pending l) (u, clearPending l)
  end.

Definition steps (s : Ui * Locals) (evs : list Event) : Ui * Locals :=
  fold_left step evs s.

(** What the callbacks of one display frame commit: for each callback that
    runs, what the messages of the turn show once it has run. *)
Fixpoint frameCommits (n : nat) (s : Ui * Locals) : list (list string) :=
  match n with
  | O => []
  | S n' =>
      turnContents (assistantId (snd s)) (fst (cb s)) :: frameCommits n' (cb s)
  end.

End SendQuestion.

(** The scheduler's flag and the callbacks that are pending agree: one
    callback is pending while [scheduled] is set, none otherwise. *)
Definition coherent (l : Locals) : Prop :=
  pending l = if scheduled l then 1%nat else 0%nat.

(** [textAccum] is the pieces received so far, in the order they came. *)
Definition whole (l : Locals) : Prop :=
  textAccum l = joined (emitted l).

(** [after] is [before] with a non-empty annotation appended. *)
Definition annotated (before after : string) : Prop :=
  exists note, note <> EmptyString /\ after = before ++ note.

(** The widget as [useState] creates it (the typographic quotation marks of
    the greeting are written as apostrophes). *)
Definition greeting : string :=
  "Hi! I can answer questions about your uploaded Excel data, like totals, top locations, or counts in a month/year. Try: 'Total incidents', 'Top hazard location', or 'Incidents in March 2024'.".

Definition initial : Ui :=
  {| messages := [ {| id := "m0"; role := assistant; content := greeting;
                      meta := VUndefined |} ];
     input := EmptyString;
     loading := false;
     requests := [] |}.

End Chat.

(** ** The insights request and its view ([fetchInsights] and
    [InsightsView] in [SafetyDashboard.tsx]) *)

Module Insights.

(** The React state of one [ChartCard] that [fetchInsights] writes, and the
    number of times it has aborted a controller. *)
Record State : Type := mkState {
  insights : string;
  loading : bool;
  aborts : nat
}.

(** [String(e)] for an [Error] object. *)
Definition errorToString (e : Error) : string :=
  if Js.isEmpty (name e) then message e
  else if Js.isEmpty (message e) then name e
  else name e ++ ": " ++ message e.


(** What the event loop can deliver to a request that is under way. When
    [reader.read()] resolves with a value, the loop decodes that value
    twice: [first] is what [decoder.decode(value, { stream: true })] returns
    for [acc], [second] is what the same call returns, on the same bytes,
    in the updater of [setInsights]. The two differ where a character of
    several bytes lies across two values. *)
Inductive Event : Type :=
| Chunk (first second : string)  (* [reader.read()] resolves with a value *)
| Eof                            (* [reader.read()] resolves with [done] *)
| Fail (e : Error).       (* [fetch], a non-2xx status, or a read rejects *)

(** [`\n[insights error] ${e?.message || String(e)}`]. *)
Definition annotation (e : Error) : string :=
  Js.str Js.LF ++ "[insights error] " ++
  (if Js.isEmpty (message e) then errorToString e else message e).

(** One event. The local [acc], to which [first] is appended, is never
    read; the state gets [second]. *)
Definition step (st : State) (ev : Event) : State :=
  match ev with
  | Chunk _ second =>
      {| insights := insights st ++ second; loading := loading st;
         aborts := aborts st |}
  | Eof =>
      {| insights := insights st; loading := false; aborts := aborts st |}
  | Fail e =>
      {| insights := insights st ++ annotation e; loading := false;
         aborts := aborts st |}
  end.

Definition steps (st : State) (evs : list Event) : State :=
  fold_left step evs st.

Definition META : string := "[[META]]".

(** The [body] that [InsightsView] hands to the markdown renderer. *)
Definition body (text : string) : string :=
  let idx := Js.lastIndexOf text META in
  if 0 <=? idx then Js.slice text 0 idx else text.

End Insights.

(** ** A reference engine

    A reader for the JSON texts of the streaming protocol (objects, arrays,
    strings without escapes, integers and the three literals) and a reader
    of decimal integers. It instantiates [Platform] where a statement is
    evaluated on a concrete input. *)

Module Reference.

Definition isDigit (c : ascii) : bool :=
  let n := nat_of_ascii c in ((48 <=? n) && (n <=? 57))%nat.

Fixpoint skipSpace (s : string) : string :=
  match s with
  | String c s' =>
      let n := nat_of_ascii c in
      if ((n =? 32) || (n =? 9) || (n =? 10) || (n =? 13))%nat then skipSpace s' else s
  | EmptyString => s
  end.

(** The characters of a string literal after its opening quote. *)
Fixpoint readString (s : string) : option (string * string) :=
  match s with
  | EmptyString => None
  | String c s' =>
      if Ascii.eqb c Js.DQUOTE then Some (EmptyString, s')
      else if Ascii.eqb c "092"%char || (nat_of_ascii c <? 32)%nat then None
      else match readString s' with
           | Some (body, rest) => Some (String c body, rest)
           | None => None
           end
  end.

Fixpoint readDigits (s : string) (acc : Z) : Z * string :=
  match s with
  | String c s' =>
      if isDigit c then readDigits s' (10 * acc + Z.of_nat (nat_of_ascii c - 48))
      else (acc, s)
  | EmptyString => (acc, s)
  end.

Definition readNumber (s : string) : option (Z * string) :=
  match s with
  | String "-" (String c _ as s') =>
      if isDigit c then let '(z, rest) := readDigits s' 0 in Some (- z, rest) else None
  | String c _ =>
      if isDigit c then Some (readDigits s 0) else None
  | EmptyString => None
  end.

Definition expect (lit : string) (v : any) (s : string) : option (any * string) :=
  if String.prefix lit s then Some (v, Js.drop (String.length lit) s) else None.

Fixpoint readValue (fuel : nat) (s : string) {struct fuel} : option (any * string) :=
  match fuel with
  | O => None
  | S fuel' =>
      let readItems :=
        fix items (n : nat) (s : string) (acc : list any) {struct n}
          : option (any * string) :=
          match n with
          | O => None
          | S n' =>
              match readValue fuel' s with
              | Some (v, rest) =>
                  match skipSpace rest with
                  | String "," rest' => items n' rest' (acc ++ [v])%list
                  | String "]" rest' => Some (VArr (acc ++ [v])%list, rest')
                  | _ => None
                  end
              | None => None
              end
          end in
      let readFields :=
        fix fields (n : nat) (s : string) (acc : list (string * any)) {struct n}
          : option (any * string) :=
          match n with
          | O => None
          | S n' =>
              match skipSpace s with
              | String c s1 =>
                  if Ascii.eqb c Js.DQUOTE then
                    match readString s1 with
                    | Some (k, s2) =>
                        match skipSpace s2 with
                        | String ":" s3 =>
                            match readValue fuel' s3 with
                            | Some (v, rest) =>
                                match skipSpace rest with
                                | String "," rest' => fields n' rest' (acc ++ [(k, v)])%list
                                | String "}" rest' => Some (VObj (acc ++ [(k, v)])%list, rest')
                                | _ => None
                                end
                            | None => None
                            end
                        | _ => None
                        end
                    | None => None
                    end
                  else None
              | EmptyString => None
              end
          end in
      match skipSpace s with
      | EmptyString => None
      | String c s' =>
          if Ascii.eqb c Js.DQUOTE then
            match readString s' with
            | Some (body, rest) => Some (VStr body, rest)
            | None => None
            end
          else if Ascii.eqb c "[" then
            match skipSpace s' with
            | String "]" rest => Some (VArr [], rest)
            | _ => readItems (String.length s') s' []
            end
          else if Ascii.eqb c "{" then
            match skipSpace s' with
            | String "}" rest => Some (VObj [], rest)
            | _ => readFields (String.length s') s' []
            end
          else if Ascii.eqb c "t" then expect "true" (VBool true) (String c s')
          else if Ascii.eqb c "f" then expect "false" (VBool false) (String c s')
          else if Ascii.eqb c "n" then expect "null" VNull (String c s')
          else match readNumber (String c s') with
               | Some (z, rest) => Some (VNum (Int z), rest)
               | None => None
               end
      end
  end.

Definition parse (s : string) : option any :=
  match readValue (S (String.length s)) s with
  | Some (v, rest) => if Js.isEmpty (skipSpace rest) then Some v else None
  | None => None
  end.

Definition numberOf (s : string) : number :=
  match Js.trim s with
  | EmptyString => Int 0
  | t => match readNumber t with
         | Some (z, EmptyString) => Int z
         | _ => NaN
         end
  end.

#[export] Instance engine : Platform := {|
  JSON_parse := parse;
  StringToNumber := numberOf;
  TypeError := fun site => mkError "TypeError" (site ++ " is not a function")
|}.

Definition quoted (s : string) : string :=
  String Js.DQUOTE (s ++ Js.str Js.DQUOTE).

(** The frame [data: {"content":"<text>"}] and its line terminator. *)
Definition contentFrame (text : string) : string :=
  "data: {" ++ quoted "content" ++ ":" ++ quoted text ++ "}".

End Reference.

(** ** One line of the stream

    What the body of the inner loop of [sendQuestion] makes of one line cut
    from the buffer: nothing, the end of the round at the sentinel, or a
    piece of text to append. *)

Module Decoder.

Import Value.

Inductive Decoded : Type :=
| Ignored
| AtSentinel
| Piece (text : string).

Section WithPlatform.
Context {P : Platform}.

Definition decode (rawLine : string) : Decoded :=
  let line := Js.trim rawLine in
  if Js.startsWith line "data:" then
    let payload := Js.trim (Js.sliceFrom line 5) in
    if String.eqb payload "[DONE]" then AtSentinel
    else
      match JSON_parse payload with
      | Some obj =>
          match optProp obj "content" with
          | VStr s => if Js.isEmpty s then Ignored else Piece s
          | _ => Ignored
          end
      | None => Ignored
      end
  else Ignored.

End WithPlatform.

(** The events that leave a turn under way, and those that end it. *)
Definition underWay (ev : Chat.Event) : bool :=
  match ev with
  | Chat.Chunk _ | Chat.Frame => true
  | _ => false
  end.

(** [messages.some((m) => m.role === "user")]. *)
Definition hasUserMessage (u : Chat.Ui) : bool :=
  existsb (fun m => Chat.Role_eqb (Chat.role m) Chat.user) (Chat.messages u).

End Decoder.

(** ** One chat turn, from the question to the end of its stream *)

Module Turn.

Import Chat.

(** The messages of the turn that [assistantId] names. *)
Definition own (assistantId : string) (m : ChatMessage) : bool :=
  String.eqb (id m) assistantId.

(** What ties the turn's message to the locals of the turn while the stream
    is under way: the message is an assistant message, it shows [textAccum]
    unless a flush is scheduled, and a flush is scheduled only once text
    has come. *)
Definition inStep (assistantId : string) (s : Ui * Locals) : Prop :=
  Chat.assistantId (snd s) = assistantId /\
  coherent (snd s) /\
  (scheduled (snd s) = true -> textAccum (snd s) <> EmptyString) /\
  Forall (fun m => own assistantId m = true ->
                   role m = assistant /\
                   (scheduled (snd s) = false -> content m = textAccum (snd s)))
         (messages (fst s)) /\
  existsb (own assistantId) (messages (fst s)) = true.

(** The text of the [catch] block for an error. *)
Definition errorText (err : Error) : string :=
  "Error: " ++ (if Js.isEmpty (message err) then "Something went wrong"
                else message err).

End Turn.

(** ** Reading the indicators off the category series *)

Module Kpi.

Import Value Dashboard.




(** [{ labels: [5], datasets: [{ data: [1] }] }]: a category whose label
    is a number. *)
Definition numericLabel : any :=
  VObj [ ("labels", VArr [VNum (Int 5)]);
         ("datasets", VArr [VObj [("data", VArr [VNum (Int 1)])]]) ].

End Kpi.

(** ** What a chart card shows of its insights *)

Module InsightsView.

Import Insights.

(** [e?.message || String(e)]: the message the [catch] block of
    [fetchInsights] appends. *)
Definition shownMessage (e : Error) : string :=
  if Js.isEmpty (message e) then errorToString e else message e.

(** The text [InsightsView] hands to the markdown renderer in a state. *)
Definition shown (st : State) : string := body (insights st).

(** The values of a stream, each with its two decodings. *)
Definition chunks (cs : list (string * string)) : list Event :=
  List.map (fun c => Chunk (fst c) (snd c)) cs.

(** What the local [acc] holds after the values [cs]. *)
Definition acc (cs : list (string * string)) : string :=
  Chat.joined (List.map fst cs).


End InsightsView.

(** ** Uploading a workbook ([onFiles] in [SafetyDashboard.tsx]) *)

Module Upload.

Import Value Dashboard.

(** [s.endsWith(suffix)]. *)
Definition endsWith (s suffix : string) : bool :=
  (String.length suffix <=? String.length s)%nat &&
  String.eqb (Js.drop (String.length s - String.length suffix) s) suffix.

Record File : Type := mkFile { fileName : string }.

(** The component around [onFiles]: the state of the charts, with the
    [toast.error] notifications, the two flags, the [toast.success]
    notifications, the names of the files posted to [/upload-excel], and the
    value of the file input ([None] where [inputRef.current] is null). *)
Record Page : Type := mkPage {
  charts : State;
  uploading : bool;
  hasUploaded : bool;
  successes : list Toast;
  posted : list string;
  inputValue : option string
}.

Definition onCharts (f : State -> State) (pg : Page) : Page :=
  {| charts := f (charts pg); uploading := uploading pg;
     hasUploaded := hasUploaded pg; successes := successes pg;
     posted := posted pg; inputValue := inputValue pg |}.

Definition setUploading (b : bool) (pg : Page) : Page :=
  {| charts := charts pg; uploading := b;
     hasUploaded := hasUploaded pg; successes := successes pg;
     posted := posted pg; inputValue := inputValue pg |}.

Definition setHasUploaded (b : bool) (pg : Page) : Page :=
  {| charts := charts pg; uploading := uploading pg;
     hasUploaded := b; successes := successes pg;
     posted := posted pg; inputValue := inputValue pg |}.

Definition toastSuccess (title msg : string) (pg : Page) : Page :=
  {| charts := charts pg; uploading := uploading pg;
     hasUploaded := hasUploaded pg;
     successes := successes pg ++ [ {| toastTitle := title; description := msg |} ];
     posted := posted pg; inputValue := inputValue pg |}.

(** [fetch(`${API_BASE}/upload-excel`, { method: "POST", body: fd })]. *)
Definition post (file : File) (pg : Page) : Page :=
  {| charts := charts pg; uploading := uploading pg;
     hasUploaded := hasUploaded pg; successes := successes pg;
     posted := posted pg ++ [fileName file]; inputValue := inputValue pg |}.

(** [if (inputRef.current) inputRef.current.value = ""]. *)
Definition clearInput (pg : Page) : Page :=
  {| charts := charts pg; uploading := uploading pg;
     hasUploaded := hasUploaded pg; successes := successes pg;
     posted := posted pg;
     inputValue := match inputValue pg with
                   | Some _ => Some EmptyString
                   | None => None
                   end |}.

(** The test of the file name. *)
Definition accepted (file : File) : bool :=
  let lower := Js.toLowerCase (fileName file) in
  endsWith lower ".xlsx" || endsWith lower ".xls".

Section WithPlatform.
Context {P : Platform}.

(** The [try] block after the request: [resp] is what [fetch] came back
    with, [ps] and [now] are what the awaited [refreshAll] meets. *)
Definition upload_try (resp : Fetched) (ps : list Settled) (now : Z) (pg : Page)
  : Page * result unit :=
  match resp with
  | NetworkFailure e => (pg, Throw e)
  | Response ok _ text _ =>
      if negb ok then
        let text := match text with Some t => t | None => EmptyString end in
        (pg, Throw (mkError "Error"
                      (if Js.isEmpty text then "Upload failed" else text)))
      else
        let pg := toastSuccess "Upload complete"
                    "Your Excel data has been processed." pg in
        let pg := onCharts (refreshAll ps now) pg in
        (setHasUploaded true pg, Ok tt)
  end.

(** [onFiles(files)], with the request and the refresh it awaits settled
    before anything else happens in the component; [files] is [None] for
    [null]. *)
Definition onFiles (files : option (list File)) (resp : Fetched)
  (ps : list Settled) (now : Z) (pg : Page) : Page :=
  match files with
  | None | Some [] => pg
  | Some (file :: _) =>
      if negb (accepted file) then
        onCharts (toastError "Invalid file type"
                    "Please upload an Excel file (.xlsx or .xls).") pg
      else
        let pg := setUploading true pg in
        let pg := post file pg in
        let '(pg, r) := upload_try resp ps now pg in
        let pg :=
          match r with
          | Ok _ => pg
          | Throw e =>
              onCharts (toastError "Upload failed"
                          (if Js.isEmpty (message e) then "Please try again."
                           else message e)) pg
          end in
        clearInput (setUploading false pg)
  end.

End WithPlatform.

(** [n > 0]. *)
Definition positive (n : number) : bool :=
  match n with Int z => 0 <? z | NaN => false end.

(** The effect on [entriesByCategory.data]: data with a positive value
    counts as an uploaded dataset. *)
Definition dataEffect (pg : Page) : Page :=
  match data (slots (charts pg) entriesByCategory) with
  | Some (Simple ds) =>
      if existsb (fun d => positive (value d)) ds then setHasUploaded true pg
      else pg
  | _ => pg
  end.

End Upload.

(** ** The pie of shares by location: the fifteen largest and [Others]
    (the [render] of the card [Proportion Analysis]) *)

Module Pie.

Import Value Dashboard.

(** [x - y]. *)
Definition sub (x y : number) : number :=
  match x, y with
  | Int a, Int b => Int (a - b)
  | _, _ => NaN
  end.

(** [(a, b) => b.value - a.value]. *)
Definition byValueDesc (a b : SimpleDatum) : number := sub (value b) (value a).

Section Sort.
Variable A : Type.
Variable cmp : A -> A -> number.

(** [x] goes behind [y] only where [cmp(x, y) > 0]. *)
Fixpoint insert (x : A) (sorted : list A) : list A :=
  match sorted with
  | [] => [x]
  | y :: ys =>
      if Upload.positive (cmp x y) then y :: insert x ys else x :: y :: ys
  end.

(** [[...xs].sort(cmp)]: the sort of an array is stable, so with a
    consistent comparator its result is this one. *)
Definition sort (xs : list A) : list A := fold_right insert [] xs.

End Sort.

Definition N : nat := 15.

(** [sorted.slice(N).reduce((s, d) => s + d.value, 0)]. *)
Definition othersTotal (sorted : list SimpleDatum) : number :=
  fold_left (fun s d => add s (value d)) (skipn N sorted) (Int 0).

(** [finalData]. *)
Definition finalData (data : list SimpleDatum) : list SimpleDatum :=
  let sorted := sort byValueDesc data in
  let top := firstn N sorted in
  if Upload.positive (othersTotal sorted)
  then (top ++ [ {| datumName := VStr "Others"; value := othersTotal sorted |} ])%list
  else top.

(** The value of a datum as an integer, zero for [NaN]. *)
Definition valueZ (d : SimpleDatum) : Z :=
  match value d with Int z => z | NaN => 0 end.

Definition sumZ (ds : list SimpleDatum) : Z :=
  fold_right (fun d s => valueZ d + s) 0 ds.

(** A datum whose value is a number other than [NaN]. *)
Definition integral (d : SimpleDatum) : Prop := exists z, value d = Int z.

End Pie.

(** ** The chart of a chat message ([shortenLabel] and the chart blocks of
    [ChatWidget.tsx], [ChartRenderer.tsx]) *)

Module Labels.

Import Value.

(** [a ?? b]. *)
Definition coalesce (a b : any) : any := if nullish a then b else a.

Section Ellipsis.

(** The code unit U+2026 that [shortenLabel] appends; all that is used of it
    is that it is one code unit. *)
Variable ELLIPSIS : ascii.

(** [shortenLabel(label, max = 16)]. *)
Definition shortenLabel (label : any) (max : option Z) : string :=
  let max := match max with Some m => m | None => 16 end in
  let s := toString (coalesce label (VStr EmptyString)) in
  if Js.len s <=? max then s
  else Js.slice s 0 (Z.max 1 (max - 1)) ++ Js.str ELLIPSIS.

End Ellipsis.

Definition isDigit (c : ascii) : bool :=
  let n := nat_of_ascii c in ((48 <=? n) && (n <=? 57))%nat.

(** [/\d{4}-\d{2}/] matches at the start of [s]. *)
Definition yearMonthAt (s : string) : bool :=
  match s with
  | String a (String b (String c (String d (String e (String f (String g _)))))) =>
      isDigit a && isDigit b && isDigit c && isDigit d &&
      Ascii.eqb e "-" && isDigit f && isDigit g
  | _ => false
  end.

(** [/\d{4}-\d{2}/.test(s)]: the pattern matches somewhere in [s]. *)
Fixpoint test (s : string) : bool :=
  yearMonthAt s ||
  match s with
  | String _ s' => test s'
  | EmptyString => false
  end.

(** [labels.length > 0 && /\d{4}-\d{2}/.test(labels[0])]. *)
Definition isTime (labels : list any) : bool :=
  match labels with
  | [] => false
  | l :: _ => test (toString l)
  end.

Record Point : Type := mkPoint { pointName : any; pointValue : any }.

(** [labels.map((l, i) => ({ name: l, value: ds?.data?.[i] ?? 0 }))], from
    index [i] on. *)
Fixpoint pointsFrom (labels : list any) (ds : any) (i : nat) : list Point :=
  match labels with
  | [] => []
  | l :: rest =>
      {| pointName := l;
         pointValue := coalesce (optIndex (optProp ds "data") i) (VNum (Int 0)) |}
      :: pointsFrom rest ds (S i)
  end.

(** The X axis of a bar chart; [preserveStartEnd] is the [interval] when it
    is not [0]. *)
Record Axis : Type := mkAxis {
  angle : Z;
  height : Z;
  preserveStartEnd : bool;
  fontSize : Z;
  maxChars : Z
}.

Inductive Chart : Type :=
| LineChart (data : list Point)
| BarChart (data : list Point) (axis : Axis).

(** The chart of a block of a chat message: [labels] is
    [chart_data.labels], [ds] is [chart_data.datasets?.[0]]. *)
Definition chart (labels : list any) (ds : any) : Chart :=
  let data := pointsFrom labels ds 0 in
  if isTime labels then LineChart data
  else
    let labelCount := List.length data in
    BarChart data
      {| angle := if (8 <? labelCount)%nat then -35 else 0;
         height := if (8 <? labelCount)%nat then 72 else 40;
         preserveStartEnd := (12 <? labelCount)%nat;
         fontSize := if (12 <? labelCount)%nat then 10 else 11;
         maxChars := if (8 <? labelCount)%nat then 12 else 18 |}.

(** The [tickFormatter] of the X axis of a bar chart:
    [(v) => shortenLabel(v, maxChars)]. *)
Definition tick (ELLIPSIS : ascii) (axis : Axis) (v : any) : string :=
  shortenLabel ELLIPSIS v (Some (maxChars axis)).

End Labels.

(** ** Follow-up suggestions ([buildSuggestions] in [ChatWidget.tsx]) *)

Module Suggestions.

Import Value Chat.

(** [s.includes(pat)]. *)
Definition includes (s pat : string) : bool := 0 <=? Js.indexOf s pat.

(** [pushLabel(s)]. *)
Definition pushLabel (s : any) (labels : list string) : list string :=
  if negb (truthy s) then labels
  else (labels ++ [Js.toLowerCase (toString s)])%list.

(** The labels of the datasets the reply came with, in lower case. *)
Definition datasetLabels (meta : any) : list string :=
  let labels :=
    if truthy (optProp (optProp (prop meta "chart_data") "datasets") "length")
    then pushLabel (optProp (index (prop (prop meta "chart_data") "datasets") 0) "label") []
    else [] in
  match prop meta "chart_blocks" with
  | VArr blocks =>
      fold_left
        (fun labels blk =>
           pushLabel (optProp (optIndex (optProp (optProp blk "chart_data") "datasets") 0)
                              "label") labels)
        blocks labels
  | _ => labels
  end.

(** The prompts pushed for the categories found, and the general ones when
    none was found. The dash U+2014 of a prompt is written as the bytes of
    its UTF-8 form; prompts are only trimmed and compared. *)
Definition curated (hasInc hasHaz hasAud hasIns : bool) : list string :=
  let suggestions :=
    ((if hasInc then
        [ "Incidents — Monthly trend"; "Top incident locations"; "Incidents by type";
          "Incidents in 2024"; "Incidents in March 2024" ]
      else []) ++
     (if hasHaz then
        [ "Hazards — Monthly trend"; "Hazards by location"; "Hazards by risk level";
          "Hazards in 2024"; "Hazards in March 2024" ]
      else []) ++
     (if hasAud then
        [ "Audits — Monthly trend"; "Audits by department"; "Audits by status";
          "Audits in 2024" ]
      else []) ++
     (if hasIns then
        [ "Inspections — Monthly trend"; "Inspections by area";
          "Inspections by status"; "Inspections in 2024" ]
      else []))%list in
  if (List.length suggestions =? 0)%nat then
    [ "Monthly incidents"; "Top hazard locations"; "Audits — Monthly trend";
      "Inspections — Monthly trend"; "Incident types distribution" ]
  else suggestions.

(** [suggestions.filter((s) => (s = s.trim()) && !seen.has(s) &&
    (seen.add(s), true))]: the element kept is the one of the array, the one
    remembered is trimmed. *)
Fixpoint uniq (suggestions seen : list string) : list string :=
  match suggestions with
  | [] => []
  | s :: rest =>
      let t := Js.trim s in
      if negb (Js.isEmpty t) && negb (existsb (String.eqb t) seen)
      then s :: uniq rest (t :: seen)
      else uniq rest seen
  end.

(** [buildSuggestions(lastAssistant)]; [None] is [undefined]. *)
Definition buildSuggestions (lastAssistant : option ChatMessage) : list string :=
  match lastAssistant with
  | None => []
  | Some m =>
      let text := Js.toLowerCase (content m) in
      let meta := orElse (meta m) (VObj []) in
      let labels := datasetLabels meta in
      let has word := existsb (fun l => includes l word) labels || includes text word in
      firstn 6 (uniq (curated (has "incident") (has "hazard") (has "audit")
                              (has "inspection")) [])
  end.

(** [[...messages].reverse().find((m) => m.role === "assistant")]. *)
Definition lastAssistant (ms : list ChatMessage) : option ChatMessage :=
  List.find (fun m => Role_eqb (role m) assistant) (rev ms).

End Suggestions.

(** ** The typewriter of the headline ([Typewriter] in the hero section) *)

Module Typewriter.

(** The four pieces of state; [index] is [None] where it is [NaN]. *)
Record State : Type := mkState {
  index : option nat;
  subIndex : nat;
  deleting : bool;
  paused : bool
}.

Definition initial : State :=
  {| index := Some 0%nat; subIndex := 0; deleting := false; paused := false |}.

Section Words.

Variable words : list string.
Variables typingSpeed deletingSpeed pauseMs : Z.

(** [words[index % words.length] || '']. *)
Definition current (st : State) : string :=
  match index st, words with
  | Some i, _ :: _ => nth (i mod List.length words)%nat words EmptyString
  | _, _ => EmptyString
  end.

(** [(i + 1) % words.length]. *)
Definition next (i : option nat) : option nat :=
  match i, words with
  | Some i, _ :: _ => Some ((i + 1) mod List.length words)%nat
  | _, _ => None
  end.

(** The callback of the timer that the effect sets in a state. *)
Definition tick (st : State) : State :=
  if paused st then
    {| index := index st; subIndex := subIndex st; deleting := deleting st;
       paused := false |}
  else if negb (deleting st) then
    if (subIndex st <? String.length (current st))%nat then
      {| index := index st; subIndex := subIndex st + 1; deleting := deleting st;
         paused := paused st |}
    else
      {| index := index st; subIndex := subIndex st; deleting := true;
         paused := true |}
  else
    if (0 <? subIndex st)%nat then
      {| index := index st; subIndex := subIndex st - 1; deleting := deleting st;
         paused := paused st |}
    else
      {| index := next (index st); subIndex := subIndex st; deleting := false;
         paused := paused st |}.

(** What the loop keeps: the index names a word, the cursor is within it,
    and a pause is only made on the whole word, before deleting. *)
Definition steady (st : State) : Prop :=
  (exists i, index st = Some i /\ (i < List.length words)%nat) /\
  (subIndex st <= String.length (current st))%nat /\
  (paused st = true ->
   deleting st = true /\ subIndex st = String.length (current st)).

(** The delay of that timer. *)
Definition delay (st : State) : Z :=
  if paused st then pauseMs
  else if deleting st then deletingSpeed else typingSpeed.

(** The text rendered in a state, without reduced motion. *)
Definition text (st : State) : string :=
  Js.slice (current st) 0 (Z.of_nat (subIndex st)).

(** The state after [n] timers. *)
Fixpoint run (n : nat) (st : State) : State :=
  match n with
  | O => st
  | S n' => run n' (tick st)
  end.

(** The states in which the next [n] timers are set. *)
Fixpoint trace (n : nat) (st : State) : list State :=
  match n with
  | O => []
  | S n' => st :: trace n' (tick st)
  end.

(** The time the next [n] timers take. *)
Definition elapsed (n : nat) (st : State) : Z :=
  fold_right Z.add 0 (List.map delay (trace n st)).

End Words.

(** The prefixes of [w] of the lengths [from], [from + 1], ... ([count] of
    them). *)
Fixpoint prefixes (w : string) (from count : nat) : list string :=
  match count with
  | O => []
  | S c => Js.take from w :: prefixes w (S from) c
  end.

(** The state in which word [i] starts. *)
Definition start (i : nat) : State :=
  {| index := Some i; subIndex := 0; deleting := false; paused := false |}.

End Typewriter.

(** * Properties *)

(** ** Facts about strings *)

Module JsFacts.

Import Js.

Lemma append_nil_r (s : string) : s ++ EmptyString = s.
Proof. induction s as [|c s IH]; simpl; [reflexivity | now rewrite IH]. Qed.

Lemma append_assoc (a b c : string) : (a ++ b) ++ c = a ++ (b ++ c).
Proof. induction a as [|x a IH]; simpl; [reflexivity | now rewrite IH]. Qed.

Lemma length_append (a b : string) :
  String.length (a ++ b) = (String.length a + String.length b)%nat.
Proof. induction a as [|x a IH]; simpl; [reflexivity | now rewrite IH]. Qed.

Lemma take_drop (n : nat) (s : string) : take n s ++ drop n s = s.
Proof.
  revert s; induction n as [|n IH]; intros [|c s]; simpl; try reflexivity.
  now rewrite IH.
Qed.

Lemma take_length_app (a b : string) : take (String.length a) (a ++ b) = a.
Proof.
  induction a as [|x a IH]; simpl.
  - now destruct b.
  - now rewrite IH.
Qed.

Lemma length_take (n : nat) (s : string) :
  (n <= String.length s)%nat -> String.length (take n s) = n.
Proof.
  revert s; induction n as [|n IH]; intros [|c s] H; simpl in *; try lia.
  now rewrite IH by lia.
Qed.

Lemma prefix_split (p s : string) :
  String.prefix p s = true -> exists r, s = p ++ r.
Proof.
  revert s; induction p as [|c p IH]; intros s H.
  - now exists s.
  - destruct s as [|d s]; simpl in H; [discriminate|].
    destruct (ascii_dec c d) as [->|_]; [|discriminate].
    destruct (IH _ H) as [r ->]. now exists r.
Qed.

Lemma isEmpty_false (s : string) : isEmpty s = false <-> s <> EmptyString.
Proof. destruct s; simpl; split; congruence. Qed.

(** [slice] and [sliceFrom] at indices inside the string. *)
Lemma clamp_inside (s : string) (n : nat) :
  (n <= String.length s)%nat -> clamp (Z.of_nat n) s = n.
Proof.
  intros H. unfold clamp, len.
  destruct (Z.ltb_spec (Z.of_nat n) 0); lia.
Qed.

Lemma slice_0 (s : string) (n : nat) :
  (n <= String.length s)%nat -> slice s 0 (Z.of_nat n) = take n s.
Proof.
  intros H. unfold slice.
  rewrite (clamp_inside s H).
  change 0 with (Z.of_nat 0). rewrite clamp_inside by lia.
  simpl. now rewrite Nat.sub_0_r.
Qed.

Lemma sliceFrom_inside (s : string) (n : nat) :
  (n <= String.length s)%nat -> sliceFrom s (Z.of_nat n) = drop n s.
Proof. intros H. unfold sliceFrom. now rewrite clamp_inside. Qed.

(** *** [lastIndexOf] *)

Lemma occursAt_nil (pat : string) (i : nat) :
  occursAt EmptyString pat i <-> i = 0%nat /\ String.prefix pat EmptyString = true.
Proof.
  unfold occursAt; simpl. split.
  - intros [H1 H2]. assert (i = 0%nat) by lia. subst. now split.
  - intros [-> H]. split; [lia | exact H].
Qed.

Lemma occursAt_cons (c : ascii) (s pat : string) (i : nat) :
  occursAt (String c s) pat i <->
  (i = 0%nat /\ String.prefix pat (String c s) = true) \/
  (exists j, i = S j /\ occursAt s pat j).
Proof.
  unfold occursAt. destruct i as [|j]; simpl.
  - split.
    + intros [_ H]. left. now split.
    + intros [[_ H]|[j [E _]]]; [split; [lia | exact H] | discriminate].
  - split.
    + intros [H1 H2]. right. exists j. repeat split; [lia | exact H2].
    + intros [[E _]|[k [E [H1 H2]]]]; [discriminate|].
      injection E as ->. split; [lia | exact H2].
Qed.

Lemma lastIndexOfFrom_spec (pat s : string) (i : Z) :
  0 <= i ->
  (lastIndexOfFrom s pat i = -1 /\ forall j, ~ occursAt s pat j) \/
  (exists k : nat,
      lastIndexOfFrom s pat i = i + Z.of_nat k /\
      occursAt s pat k /\
      forall j, (k < j)%nat -> ~ occursAt s pat j).
Proof.
  revert i; induction s as [|c s IH]; intros i Hi.
  - cbn [lastIndexOfFrom]. destruct (String.prefix pat EmptyString) eqn:E.
    + right. exists 0%nat. split; [lia|]. split.
      * apply occursAt_nil. now split.
      * intros j Hj [H _]. simpl in H. lia.
    + left. split; [reflexivity|].
      intros j H. apply occursAt_nil in H. destruct H as [_ H]. congruence.
  - cbn [lastIndexOfFrom].
    destruct (IH (i + 1)) as [[E N]|[k [E [O L]]]]; [lia| |].
    + rewrite E. cbn [Z.leb Z.compare].
      destruct (String.prefix pat (String c s)) eqn:Pf.
      * right. exists 0%nat. split; [lia|]. split.
        -- apply occursAt_cons. left. now split.
        -- intros j Hj H. apply occursAt_cons in H.
           destruct H as [[-> _]|[j' [-> H]]]; [lia | exact (N _ H)].
      * left. split; [reflexivity|].
        intros j H. apply occursAt_cons in H.
        destruct H as [[_ H]|[j' [_ H]]]; [congruence | exact (N _ H)].
    + rewrite E.
      destruct (Z.leb_spec 0 (i + 1 + Z.of_nat k)) as [_|Hneg]; [|lia].
      right. exists (S k). split; [lia|]. split.
      * apply occursAt_cons. right. now exists k.
      * intros j Hj H. apply occursAt_cons in H.
        destruct H as [[-> _]|[j' [-> H]]]; [lia|].
        apply (L j'); [lia | exact H].
Qed.

End JsFacts.

(** ** The insights view *)

Module InsightsSpec.

Import Js JsFacts Insights.

(** C9. [InsightsView] displays the text unchanged when it holds no
    [[[META]]] marker; otherwise it displays what precedes the last
    occurrence of the marker, dropping the marker and all that follows. *)
Theorem body_strips_last_META (text : string) :
  ((forall i, ~ occursAt text META i) -> body text = text) /\
  ((exists i, occursAt text META i) ->
   exists rest,
     text = body text ++ META ++ rest /\
     forall j, (String.length (body text) < j)%nat -> ~ occursAt text META j).
Proof.
  unfold body, lastIndexOf.
  destruct (@lastIndexOfFrom_spec META text 0) as [[E N]|[k [E [O L]]]]; [lia| |].
  - rewrite E. cbn [Z.leb Z.compare]. split; [reflexivity|].
    intros [i H]. now elim (N i).
  - rewrite E. destruct (Z.leb_spec 0 (0 + Z.of_nat k)) as [_|Hneg]; [|lia].
    split.
    + intros N. now elim (N k).
    + intros _. destruct O as [Hk Hp].
      rewrite Z.add_0_l, slice_0 by exact Hk.
      destruct (prefix_split _ _ Hp) as [rest Hrest].
      exists rest. split.
      * rewrite <- Hrest. symmetry. apply take_drop.
      * rewrite length_take by exact Hk. exact L.
Qed.

(** The marker occurs twice in the first text and not at all in the second. *)
Lemma body_strips_last_META_witness :
  ((exists i, occursAt "ab[[META]]cd[[META]]ef" META i) /\
   exists rest,
     "ab[[META]]cd[[META]]ef" = body "ab[[META]]cd[[META]]ef" ++ META ++ rest /\
     forall j, (String.length (body "ab[[META]]cd[[META]]ef") < j)%nat ->
               ~ occursAt "ab[[META]]cd[[META]]ef" META j) /\
  ((forall i, ~ occursAt "abc" META i) /\ body "abc" = "abc").
Proof.
  assert (H1 : exists i, occursAt "ab[[META]]cd[[META]]ef" META i).
  { exists 2%nat. split; [simpl; lia | reflexivity]. }
  assert (H2 : forall i, ~ occursAt "abc" META i).
  { intros i [L M]. simpl in L.
    destruct i as [|[|[|[|i]]]]; try discriminate M; lia. }
  split; split.
  - exact H1.
  - exact (proj2 (body_strips_last_META "ab[[META]]cd[[META]]ef") H1).
  - exact H2.
  - exact (proj1 (body_strips_last_META "abc") H2).
Defined.

End InsightsSpec.

(** ** The chat turn *)

Module ChatSpec.

Import Js JsFacts Value Chat.

Section WithPlatform.
Context {P : Platform}.
Variables chatBase chatModel : string.

Abbreviation sendQuestion := (sendQuestion chatBase chatModel).

(** C10. A question that trims to the empty string, or a call made while
    [loading] is set, leaves the widget as it was: no message is appended,
    no request is issued, the input field and the loading flag keep their
    values, and no invocation goes on. *)
Theorem sendQuestion_guard (q : string) (now1 now2 : Z) (rnd : string) (u : Ui) :
  trim q = EmptyString \/ loading u = true ->
  sendQuestion q now1 now2 rnd u = (u, None) /\
  messages (fst (sendQuestion q now1 now2 rnd u)) = messages u /\
  requests (fst (sendQuestion q now1 now2 rnd u)) = requests u /\
  input (fst (sendQuestion q now1 now2 rnd u)) = input u /\
  loading (fst (sendQuestion q now1 now2 rnd u)) = loading u.
Proof.
  intros H.
  assert (E : sendQuestion q now1 now2 rnd u = (u, None)).
  { unfold Chat.sendQuestion.
    destruct H as [-> | ->]; [reflexivity|].
    now rewrite orb_true_r. }
  rewrite E. now repeat split.
Qed.

(** *** The line terminator in the buffer *)

Lemma indexOfFrom_LF_none (s : string) (i : Z) :
  contains s LF = false -> indexOfFrom s (str LF) i = -1.
Proof.
  revert i; induction s as [|c s IH]; intros i H; [reflexivity|].
  simpl in H. apply orb_false_elim in H. destruct H as [Hc Hs].
  cbn [indexOfFrom str String.prefix].
  destruct (ascii_dec LF c) as [<-|_].
  - now rewrite Ascii.eqb_refl in Hc.
  - now apply IH.
Qed.

Lemma indexOfFrom_LF_some (pre post : string) (i : Z) :
  contains pre LF = false ->
  indexOfFrom (pre ++ String LF post) (str LF) i = i + len pre.
Proof.
  revert i; induction pre as [|c pre IH]; intros i H.
  - cbn [append indexOfFrom str String.prefix].
    destruct (ascii_dec LF LF) as [_|N]; [|now elim N].
    unfold len. destruct post; cbn; lia.
  - simpl in H. apply orb_false_elim in H. destruct H as [Hc Hs].
    cbn [append indexOfFrom str String.prefix].
    destruct (ascii_dec LF c) as [<-|_].
    + now rewrite Ascii.eqb_refl in Hc.
    + rewrite IH by exact Hs. unfold len; simpl String.length. lia.
Qed.

Lemma contains_app (a b : string) (c : ascii) :
  contains (a ++ b) c = contains a c || contains b c.
Proof.
  induction a as [|x a IH]; simpl; [reflexivity|].
  now rewrite IH, orb_assoc.
Qed.

Lemma contains_split (s : string) :
  contains s LF = true ->
  exists pre post, s = pre ++ String LF post /\ contains pre LF = false.
Proof.
  induction s as [|c s IH]; simpl; [discriminate|].
  destruct (Ascii.eqb c LF) eqn:E; simpl.
  - intros _. apply Ascii.eqb_eq in E. subst c.
    now exists EmptyString, s.
  - intros H. destruct (IH H) as [pre [post [-> Hpre]]].
    exists (String c pre), post. split; [reflexivity|].
    simpl. now rewrite E.
Qed.

(** The first line of a buffer and what follows it, as the loop cuts them. *)
Lemma first_line (pre post : string) :
  contains pre LF = false ->
  let b := pre ++ String LF post in
  let nl := indexOf b (str LF) in
  (nl =? -1) = false /\ slice b 0 nl = pre /\ sliceFrom b (nl + 1) = post.
Proof.
  intros H b nl. subst nl b. unfold indexOf.
  rewrite indexOfFrom_LF_some by exact H. rewrite Z.add_0_l. unfold len.
  assert (L : (String.length pre <= String.length (pre ++ String LF post))%nat)
    by (rewrite length_append; lia).
  split; [apply Z.eqb_neq; lia|]. split.
  - rewrite slice_0 by exact L. apply take_length_app.
  - replace (Z.of_nat (String.length pre) + 1)
      with (Z.of_nat (S (String.length pre))) by lia.
    rewrite sliceFrom_inside by (rewrite length_append; simpl; lia).
    change (S (String.length pre)) with (String.length (String LF pre)).
    clear L H. induction pre as [|c pre IH]; [reflexivity | exact IH].
Qed.

Lemma no_line (b : string) :
  contains b LF = false -> (indexOf b (str LF) =? -1) = true.
Proof.
  intros H. unfold indexOf. now rewrite indexOfFrom_LF_none.
Qed.

(** *** The loop ends within its fuel *)

Lemma buffer_scheduleFlush (l : Locals) : buffer (scheduleFlush l) = buffer l.
Proof. unfold scheduleFlush. now destruct (scheduled l). Qed.

Lemma pump_fuel (f1 f2 : nat) (l : Locals) :
  (String.length (buffer l) < f1)%nat ->
  (String.length (buffer l) < f2)%nat ->
  pump f1 l = pump f2 l.
Proof.
  revert f2 l; induction f1 as [|f1 IH]; intros f2 l H1 H2; [lia|].
  destruct f2 as [|f2]; [lia|].
  cbn [pump].
  destruct (contains (buffer l) LF) eqn:C.
  - destruct (@contains_split _ C) as [pre [post [E Hpre]]].
    destruct (@first_line pre post Hpre) as [N [S1 S2]]. cbv zeta in N, S1, S2.
    rewrite E in *. rewrite N, S1, S2.
    assert (L : (String.length post < String.length (pre ++ String LF post))%nat)
      by (rewrite length_append; simpl; lia).
    destruct (startsWith (trim pre) "data:"); [|apply IH; simpl; lia].
    destruct (String.eqb _ "[DONE]"); [reflexivity|].
    destruct (JSON_parse _) as [obj|]; [|apply IH; simpl; lia].
    destruct (isEmpty _); apply IH;
      rewrite ?buffer_scheduleFlush; simpl; lia.
  - now rewrite (no_line _ C).
Qed.

(** *** Text after the last line terminator stays in the buffer *)

Lemma flush_accumulate_tail (piece p : string) (l : Locals) :
  scheduleFlush (accumulate piece (setBuffer (buffer l ++ p) l)) =
  setBuffer (buffer (scheduleFlush (accumulate piece l)) ++ p)
    (scheduleFlush (accumulate piece l)).
Proof. destruct l as [a t [|] b n e d]; reflexivity. Qed.

Lemma pump_tail (fuel : nat) (l : Locals) (p : string) :
  contains p LF = false ->
  pump fuel (setBuffer (buffer l ++ p) l) =
  setBuffer (buffer (pump fuel l) ++ p) (pump fuel l).
Proof.
  intros Hp. revert l; induction fuel as [|fuel IH]; intros l; [reflexivity|].
  cbn [pump]. cbn [buffer setBuffer].
  destruct (contains (buffer l) LF) eqn:C.
  - destruct (@contains_split _ C) as [pre [post [E Hpre]]].
    destruct (@first_line pre post Hpre) as [N [S1 S2]].
    destruct (@first_line pre (post ++ p) Hpre) as [N' [S1' S2']].
    cbv zeta in N, S1, S2, N', S1', S2'.
    rewrite E. rewrite append_assoc. cbn [append].
    rewrite N, S1, S2, N', S1', S2'.
    pose (l1 := setBuffer post l).
    assert (B : setBuffer (post ++ p)
                  (setBuffer (pre ++ String LF (post ++ p)) l)
                = setBuffer (buffer l1 ++ p) l1) by reflexivity.
    rewrite B. fold l1.
    destruct (startsWith (trim pre) "data:"); [|apply IH].
    destruct (String.eqb _ "[DONE]"); [reflexivity|].
    destruct (JSON_parse _) as [obj|]; [|apply IH].
    destruct (isEmpty _); [apply IH|].
    rewrite <- IH. f_equal. apply flush_accumulate_tail.
  - rewrite (no_line _ C).
    assert (C' : contains (buffer l ++ p) LF = false)
      by (now rewrite contains_app, C, Hp).
    now rewrite (no_line _ C').
Qed.

Lemma feed_tail (c p : string) (l : Locals) :
  contains p LF = false ->
  feed (c ++ p) l = setBuffer (buffer (feed c l) ++ p) (feed c l).
Proof.
  intros Hp. unfold feed. cbn [buffer setBuffer].
  rewrite <- append_assoc.
  change (setBuffer ((buffer l ++ c) ++ p) l)
    with (setBuffer (buffer (setBuffer (buffer l ++ c) l) ++ p)
            (setBuffer (buffer l ++ c) l)).
  rewrite pump_tail by exact Hp.
  rewrite (@pump_fuel (S (String.length ((buffer l ++ c) ++ p)))
             (S (String.length (buffer l ++ c)))).
  - reflexivity.
  - cbn [buffer setBuffer]. rewrite !length_append. lia.
  - cbn [buffer setBuffer]. lia.
Qed.

Lemma feed_setBuffer (c b : string) (l : Locals) :
  feed c (setBuffer b l) =
  pump (S (String.length (b ++ c))) (setBuffer (b ++ c) l).
Proof. reflexivity. Qed.


(** *** Chunk boundaries do not matter before the sentinel *)

Lemma sentinel_scheduleFlush (l : Locals) :
  sentinel (scheduleFlush l) = sentinel l.
Proof. unfold scheduleFlush. now destruct (scheduled l). Qed.

Lemma sentinel_pump (fuel : nat) (l : Locals) :
  sentinel (pump fuel l) = false -> sentinel l = false.
Proof.
  revert l; induction fuel as [|fuel IH]; intros l; [trivial|].
  cbn [pump].
  destruct (_ =? -1); [trivial|].
  destruct (startsWith _ _); [|intros H; exact (IH _ H)].
  destruct (String.eqb _ _); [discriminate|].
  destruct (JSON_parse _); [|intros H; exact (IH _ H)].
  destruct (isEmpty _); intros H; apply IH in H; [exact H|].
  now rewrite sentinel_scheduleFlush in H.
Qed.

Lemma pump_no_line (fuel : nat) (l : Locals) :
  contains (buffer l) LF = false -> pump fuel l = l.
Proof.
  intros C. destruct fuel as [|fuel]; [reflexivity|].
  cbn [pump]. now rewrite (no_line _ C).
Qed.

Lemma pump_app (f2 : nat) (l : Locals) (p : string) (f1 f3 : nat) :
  (String.length (buffer l ++ p) < f1)%nat ->
  (String.length (buffer l) < f2)%nat ->
  (String.length (buffer (pump f2 l) ++ p) < f3)%nat ->
  sentinel (pump f2 l) = false ->
  pump f1 (setBuffer (buffer l ++ p) l) =
  pump f3 (setBuffer (buffer (pump f2 l) ++ p) (pump f2 l)).
Proof.
  revert l f1 f3; induction f2 as [|f2 IH]; intros l f1 f3 H1 H2; [lia|].
  destruct f1 as [|f1]; [lia|].
  destruct (contains (buffer l) LF) eqn:C.
  - cbn [pump]. cbn [buffer setBuffer].
    destruct (@contains_split _ C) as [pre [post [E Hpre]]].
    destruct (@first_line pre post Hpre) as [N [S1 S2]].
    destruct (@first_line pre (post ++ p) Hpre) as [N' [S1' S2']].
    cbv zeta in N, S1, S2, N', S1', S2'.
    rewrite E in H1, H2 |- *. rewrite append_assoc in H1 |- *.
    cbn [append] in H1 |- *.
    rewrite N, S1, S2, N', S1', S2'.
    rewrite !length_append in H1. rewrite length_append in H2.
    cbn [String.length] in H1, H2. rewrite ?length_append in H1.
    pose (l1 := setBuffer post l).
    assert (B : setBuffer (post ++ p)
                  (setBuffer (pre ++ String LF (post ++ p)) l)
                = setBuffer (buffer l1 ++ p) l1) by reflexivity.
    rewrite B. fold l1.
    destruct (startsWith (trim pre) "data:").
    2:{ intros H3 H4. apply IH; trivial; cbn; rewrite ?length_append; lia. }
    destruct (String.eqb _ "[DONE]"); [discriminate 2|].
    destruct (JSON_parse _) as [obj|].
    2:{ intros H3 H4. apply IH; trivial; cbn; rewrite ?length_append; lia. }
    destruct (isEmpty _).
    + intros H3 H4. apply IH; trivial; cbn; rewrite ?length_append; lia.
    + intros H3 H4. rewrite flush_accumulate_tail.
      apply IH; trivial;
        rewrite ?buffer_scheduleFlush; cbn; rewrite ?length_append; lia.
  - rewrite (@pump_no_line (S f2) l C). intros H3 _. now apply pump_fuel.
Qed.

Lemma feed_app (c c' : string) (l : Locals) :
  sentinel (feed c l) = false -> feed (c ++ c') l = feed c' (feed c l).
Proof.
  intros H. unfold feed in *. cbn [buffer setBuffer] in *.
  rewrite <- append_assoc.
  change (setBuffer ((buffer l ++ c) ++ c') l)
    with (setBuffer (buffer (setBuffer (buffer l ++ c) l) ++ c')
            (setBuffer (buffer l ++ c) l)).
  apply pump_app; cbn [buffer setBuffer]; trivial; lia.
Qed.

Lemma sentinel_feed (c : string) (l : Locals) :
  sentinel (feed c l) = false -> sentinel l = false.
Proof. unfold feed. intros H. now apply sentinel_pump in H. Qed.

Lemma joined_snoc (chunks : list string) (c : string) :
  joined (chunks ++ [c]) = joined chunks ++ c.
Proof.
  induction chunks as [|x chunks IH]; cbn.
  - apply append_nil_r.
  - fold (joined (chunks ++ [c])). fold (joined chunks).
    now rewrite IH, append_assoc.
Qed.

Lemma feedAll_joined (assistantId : string) (chunks : list string) :
  sentinel (feedAll chunks (fresh assistantId)) = false ->
  feedAll chunks (fresh assistantId) = feed (joined chunks) (fresh assistantId).
Proof.
  induction chunks as [|c chunks IH] using rev_ind; [reflexivity|].
  unfold feedAll in *. rewrite fold_left_app. cbn [fold_left].
  intros H. pose proof (sentinel_feed _ _ H) as H'.
  rewrite IH in H |- * by exact H'.
  rewrite joined_snoc. symmetry. apply feed_app.
  now apply sentinel_feed in H.
Qed.

(** C3. Text that follows the last line terminator of a chunk stays in the
    buffer and is joined with the next chunk: a fragment [p] without a line
    terminator decodes the same whether it ends one chunk or begins the
    next, from every state of the decoder; and as long as the sentinel has
    not been met, the chunks of a turn decode as the one text they make up.
    Where [JSON.parse] reads the two payloads as JSON prescribes, the chunks
    [data: {"content":"ab"}\nda] and [ta: {"content":"c"}\n] yield the
    contents [ab] and then [c], and nothing else. *)
Theorem partial_line_is_buffered :
  (forall (l : Locals) (pre p rest : string),
      contains p LF = false ->
      buffer (feed (pre ++ p) l) = buffer (feed pre l) ++ p /\
      emitted (feed (pre ++ p) l) = emitted (feed pre l) /\
      feed rest (feed (pre ++ p) l) = feed (p ++ rest) (feed pre l)) /\
  (forall (assistantId : string) (chunks : list string),
      sentinel (feedAll chunks (fresh assistantId)) = false ->
      feedAll chunks (fresh assistantId) = feed (joined chunks) (fresh assistantId)) /\
  (forall assistantId : string,
      JSON_parse ("{" ++ Reference.quoted "content" ++ ":" ++ Reference.quoted "ab" ++ "}")
        = Some (VObj [("content", VStr "ab")]) ->
      JSON_parse ("{" ++ Reference.quoted "content" ++ ":" ++ Reference.quoted "c" ++ "}")
        = Some (VObj [("content", VStr "c")]) ->
      let chunk1 := Reference.contentFrame "ab" ++ str LF ++ "da" in
      let chunk2 := "ta: {" ++ Reference.quoted "content" ++ ":" ++ Reference.quoted "c" ++ "}" ++ str LF in
      emitted (feed chunk1 (fresh assistantId)) = ["ab"] /\
      buffer (feed chunk1 (fresh assistantId)) = "da" /\
      emitted (feed chunk2 (feed chunk1 (fresh assistantId))) = ["ab"; "c"] /\
      textAccum (feed chunk2 (feed chunk1 (fresh assistantId))) = "abc" /\
      buffer (feed chunk2 (feed chunk1 (fresh assistantId))) = EmptyString).
Proof.
  split; [|split].
  - intros l pre p rest Hp.
    rewrite (@feed_tail pre p l Hp). cbn [buffer emitted setBuffer].
    repeat split.
    rewrite feed_setBuffer. unfold feed at 3. now rewrite append_assoc.
  - exact feedAll_joined.
  - intros aid H1 H2 chunk1 chunk2.
    assert (F1 : feed chunk1 (fresh aid) =
                 {| assistantId := aid; textAccum := "ab"; scheduled := true;
                    buffer := "da"; pending := 1; emitted := ["ab"];
                    sentinel := false |}).
    { subst chunk1. cbv -[JSON_parse] in H1 |- *. rewrite H1. reflexivity. }
    rewrite F1.
    assert (F2 : feed chunk2
                   {| assistantId := aid; textAccum := "ab"; scheduled := true;
                      buffer := "da"; pending := 1; emitted := ["ab"];
                      sentinel := false |} =
                 {| assistantId := aid; textAccum := "abc"; scheduled := true;
                    buffer := EmptyString; pending := 1; emitted := ["ab"; "c"];
                    sentinel := false |}).
    { subst chunk2. cbv -[JSON_parse] in H2 |- *. rewrite H2. reflexivity. }
    rewrite F2. now repeat split.
Qed.

(** *** The render scheduler *)

Lemma coherent_scheduleFlush (l : Locals) :
  coherent l -> coherent (scheduleFlush l).
Proof.
  unfold coherent, scheduleFlush.
  destruct (scheduled l) eqn:E; cbn; [now rewrite E | congruence].
Qed.

Lemma coherent_pump (fuel : nat) (l : Locals) :
  coherent l -> coherent (pump fuel l).
Proof.
  revert l; induction fuel as [|fuel IH]; intros l H; [exact H|].
  cbn [pump].
  destruct (_ =? -1); [exact H|].
  destruct (startsWith _ _); [|now apply IH].
  destruct (String.eqb _ _); [exact H|].
  destruct (JSON_parse _); [|now apply IH].
  destruct (isEmpty _); apply IH; [exact H|].
  now apply coherent_scheduleFlush.
Qed.

Lemma coherent_step (u : Ui) (l : Locals) (ev : Event) :
  coherent l -> coherent (snd (step (u, l) ev)).
Proof.
  intros H. destruct ev; cbn [step snd]; try exact H.
  - unfold feed. now apply coherent_pump.
  - unfold coherent in *. destruct l as [a t s b n e d]; cbn in *.
    subst n. now destruct s.
Qed.

Lemma coherent_steps (evs : list Event) (u : Ui) (l : Locals) :
  coherent l -> coherent (snd (steps (u, l) evs)).
Proof.
  revert u l; induction evs as [|ev evs IH]; intros u l H; [exact H|].
  unfold steps; cbn [fold_left].
  pose proof (@coherent_step u l ev H) as H'.
  destruct (step (u, l) ev) as [u' l']. now apply IH.
Qed.

Lemma whole_scheduleFlush (l : Locals) : whole l -> whole (scheduleFlush l).
Proof. unfold whole, scheduleFlush. now destruct (scheduled l). Qed.

Lemma whole_pump (fuel : nat) (l : Locals) : whole l -> whole (pump fuel l).
Proof.
  revert l; induction fuel as [|fuel IH]; intros l H; [exact H|].
  cbn [pump].
  destruct (_ =? -1); [exact H|].
  destruct (startsWith _ _); [|now apply IH].
  destruct (String.eqb _ _); [exact H|].
  destruct (JSON_parse _); [|now apply IH].
  destruct (isEmpty _); apply IH; [exact H|].
  apply whole_scheduleFlush. unfold whole in *.
  cbn [textAccum emitted accumulate setBuffer].
  now rewrite joined_snoc, H.
Qed.

Lemma whole_step (u : Ui) (l : Locals) (ev : Event) :
  whole l -> whole (snd (step (u, l) ev)).
Proof.
  intros H. destruct ev; cbn [step snd]; try exact H.
  - unfold feed. now apply whole_pump.
  - unfold whole. cbn. now rewrite append_nil_r.
  - assert (G : forall n s, whole (snd s) -> whole (snd (runCallbacks n s))).
    { induction n as [|n IHn]; intros [u1 l1] W; [exact W|].
      cbn [runCallbacks]. apply IHn. exact W. }
    apply G. exact H.
Qed.

Lemma whole_steps (evs : list Event) (u : Ui) (l : Locals) :
  whole l -> whole (snd (steps (u, l) evs)).
Proof.
  revert u l; induction evs as [|ev evs IH]; intros u l H; [exact H|].
  unfold steps; cbn [fold_left].
  pose proof (@whole_step u l ev H) as H'.
  destruct (step (u, l) ev) as [u' l']. now apply IH.
Qed.

(** *** What the events keep, and what a commit writes *)

Lemma ids_commit (l : Locals) (u : Ui) :
  List.map id (messages (commit l u)) = List.map id (messages u).
Proof.
  unfold commit, setMessages. cbn [messages]. rewrite map_map.
  apply map_ext. intros m. now destruct (String.eqb _ _).
Qed.

Lemma ids_onError (e : Error) (u : Ui) :
  List.map id (messages (onError e u)) = List.map id (messages u).
Proof.
  unfold onError, setMessages. cbn [messages]. rewrite map_map.
  apply map_ext. intros m. now destruct (_ && _).
Qed.

Lemma ids_runCallbacks (n : nat) (s : Ui * Locals) :
  List.map id (messages (fst (runCallbacks n s))) = List.map id (messages (fst s)) /\
  assistantId (snd (runCallbacks n s)) = assistantId (snd s).
Proof.
  revert s; induction n as [|n IH]; intros [u l]; [now split|].
  cbn [runCallbacks]. destruct (IH (cb (u, l))) as [A B]. rewrite A, B.
  cbn [cb fst snd assistantId]. split; [apply ids_commit | reflexivity].
Qed.

Lemma aid_pump (fuel : nat) (l : Locals) :
  assistantId (pump fuel l) = assistantId l.
Proof.
  revert l; induction fuel as [|fuel IH]; intros l; [reflexivity|].
  cbn [pump].
  destruct (_ =? -1); [reflexivity|].
  destruct (startsWith _ _); [|now rewrite IH].
  destruct (String.eqb _ _); [reflexivity|].
  destruct (JSON_parse _); [|now rewrite IH].
  destruct (isEmpty _); rewrite IH; [reflexivity|].
  unfold scheduleFlush. now destruct (scheduled _).
Qed.

Lemma ids_step (s : Ui * Locals) (ev : Event) :
  List.map id (messages (fst (step s ev))) = List.map id (messages (fst s)) /\
  assistantId (snd (step s ev)) = assistantId (snd s).
Proof.
  destruct s as [u l]. destruct ev; cbn [step fst snd].
  - split; [reflexivity|]. unfold feed. now rewrite aid_pump.
  - split; [|reflexivity]. cbn [messages setLoading]. apply ids_commit.
  - split; [|reflexivity]. cbn [messages setLoading]. apply ids_commit.
  - split; [|reflexivity]. cbn [messages setLoading]. apply ids_onError.
  - apply (ids_runCallbacks (pending l) (u, clearPending l)).
Qed.

Lemma ids_steps (evs : list Event) (s : Ui * Locals) :
  List.map id (messages (fst (steps s evs))) = List.map id (messages (fst s)) /\
  assistantId (snd (steps s evs)) = assistantId (snd s).
Proof.
  revert s; induction evs as [|ev evs IH]; intros s; [now split|].
  unfold steps; cbn [fold_left]. fold (steps (step s ev) evs).
  destruct (IH (step s ev)) as [A B]. destruct (ids_step s ev) as [C D].
  split; congruence.
Qed.

Lemma turnContents_length (aid : string) (u : Ui) :
  List.length (turnContents aid u)
  = List.length (filter (fun i => String.eqb i aid) (List.map id (messages u))).
Proof.
  unfold turnContents. rewrite length_map.
  induction (messages u) as [|m ms IH]; [reflexivity|].
  cbn [filter List.map]. destruct (String.eqb (id m) aid); cbn [List.length];
    now rewrite IH.
Qed.

(** A commit writes [textAccum] into every message of the turn. *)
Lemma turnContents_commit (l : Locals) (u : Ui) :
  turnContents (assistantId l) (commit l u)
  = repeat (textAccum l) (List.length (turnContents (assistantId l) u)).
Proof.
  unfold turnContents, commit, setMessages. cbn [messages].
  induction (messages u) as [|m ms IH]; [reflexivity|].
  cbn [List.map filter]. destruct (String.eqb (id m) (assistantId l)) eqn:E.
  - cbn [id setContent]. rewrite E. cbn [List.map content List.length repeat].
    now rewrite IH.
  - rewrite E. exact IH.
Qed.

(** A commit changes nothing else. *)
Lemma commit_writes (l : Locals) (u : Ui) :
  Forall2 (fun m m' =>
             id m' = id m /\ role m' = role m /\ meta m' = meta m /\
             content m' = if String.eqb (id m) (assistantId l)
                          then textAccum l else content m)
          (messages u) (messages (commit l u)).
Proof.
  unfold commit, setMessages. cbn [messages].
  induction (messages u) as [|m ms IH]; [constructor|].
  cbn [List.map]. constructor; [|exact IH].
  destruct (String.eqb (id m) (assistantId l)); now repeat split.
Qed.

(** What the callback of the scheduler does when it runs. *)
Lemma cb_writes (u : Ui) (l : Locals) :
  turnContents (assistantId l) (fst (cb (u, l)))
  = repeat (textAccum l) (List.length (turnContents (assistantId l) u)) /\
  Forall2 (fun m m' =>
             id m' = id m /\ role m' = role m /\ meta m' = meta m /\
             content m' = if String.eqb (id m) (assistantId l)
                          then textAccum l else content m)
          (messages u) (messages (fst (cb (u, l)))) /\
  input (fst (cb (u, l))) = input u /\
  loading (fst (cb (u, l))) = loading u /\
  requests (fst (cb (u, l))) = requests u /\
  scheduled (snd (cb (u, l))) = false /\
  pending (snd (cb (u, l))) = pending l /\
  textAccum (snd (cb (u, l))) = textAccum l.
Proof.
  cbn [cb fst snd].
  set (lc := {| assistantId := assistantId l; textAccum := textAccum l;
                scheduled := false; buffer := buffer l; pending := pending l;
                emitted := emitted l; sentinel := sentinel l |}).
  split; [apply (turnContents_commit lc u)|].
  split; [apply (commit_writes lc u)|].
  now repeat split.
Qed.

(** C4. In every state a chat turn can reach, at most one callback of the
    scheduler is pending, so a display frame makes at most one commit: none
    when nothing was scheduled, and then the widget is left as it is;
    otherwise one, after which every message of the turn (there is one, and
    only one when no earlier message bears its id) shows [textAccum] as it
    stands when the frame runs, which is all the pieces received so far,
    whatever was appended since the callback was registered; every other
    message and the rest of the widget are as before. The frame leaves no
    callback pending. *)
Theorem scheduler_coalesces
  (q : string) (now1 now2 : Z) (rnd : string) (u u0 : Ui) (l0 : Locals)
  (evs : list Event) :
  sendQuestion q now1 now2 rnd u = (u0, Some l0) ->
  let u' := fst (steps (u0, l0) evs) in
  let l' := snd (steps (u0, l0) evs) in
  let after := step (u', l') Frame in
  (pending l' <= 1)%nat /\
  textAccum l' = joined (emitted l') /\
  turnContents (assistantId l0) u' <> [] /\
  ((forall m, In m (messages u) -> id m <> assistantId l0) ->
   List.length (turnContents (assistantId l0) u') = 1%nat) /\
  frameCommits (pending l') (u', clearPending l')
    = (if scheduled l'
       then [repeat (textAccum l') (List.length (turnContents (assistantId l0) u'))]
       else []) /\
  (scheduled l' = true ->
   turnContents (assistantId l0) (fst after)
   = repeat (textAccum l') (List.length (turnContents (assistantId l0) u')) /\
   Forall2 (fun m m' =>
              id m' = id m /\ role m' = role m /\ meta m' = meta m /\
              content m' = if String.eqb (id m) (assistantId l0)
                           then textAccum l' else content m)
           (messages u') (messages (fst after)) /\
   input (fst after) = input u' /\ loading (fst after) = loading u' /\
   requests (fst after) = requests u') /\
  (scheduled l' = false -> fst after = u') /\
  scheduled (snd after) = false /\
  pending (snd after) = 0%nat /\
  textAccum (snd after) = textAccum l'.
Proof.
  intros E.
  assert (Q : l0 = fresh (assistantId l0) /\
              exists uid question,
                String.eqb uid (assistantId l0) = false /\
                messages u0
                = (messages u ++
                   [ {| id := uid; role := user; content := question;
                        meta := VUndefined |};
                     {| id := assistantId l0; role := assistant;
                        content := EmptyString; meta := VUndefined |} ])%list).
  { unfold Chat.sendQuestion in E.
    destruct (isEmpty (trim q) || loading u); [discriminate|].
    injection E as <- <-. split; [reflexivity|].
    eexists. eexists. split; [|reflexivity]. reflexivity. }
  destruct Q as [F0 [uid [question [Hu M0]]]]. clear E.
  intros u' l' after.
  assert (C0 : coherent l0) by (rewrite F0; reflexivity).
  assert (W0 : whole l0) by (rewrite F0; reflexivity).
  pose proof (@coherent_steps evs u0 l0 C0) as C. fold l' in C.
  pose proof (@whole_steps evs u0 l0 W0) as W. fold l' in W.
  destruct (ids_steps evs (u0, l0)) as [I A]. fold u' in I. fold l' in A.
  cbn [fst snd] in I, A.
  unfold coherent in C. unfold whole in W.
  assert (Len : List.length (turnContents (assistantId l0) u')
                = S (List.length (filter (fun i => String.eqb i (assistantId l0))
                                         (List.map id (messages u))))).
  { rewrite turnContents_length, I, M0, map_app, filter_app, length_app.
    cbn [List.map filter id]. rewrite Hu, String.eqb_refl. cbn [List.length]. lia. }
  split; [destruct (scheduled l'); lia|].
  split; [exact W|].
  split; [intros N; rewrite N in Len; discriminate Len|].
  split.
  { intros Fr. rewrite Len. f_equal.
    assert (Z0 : filter (fun i => String.eqb i (assistantId l0))
                        (List.map id (messages u)) = []).
    { revert Fr. generalize (messages u). intros ms.
      induction ms as [|m ms IH]; intros Fr; [reflexivity|].
      cbn [List.map filter].
      destruct (String.eqb (id m) (assistantId l0)) eqn:Em.
      - apply String.eqb_eq in Em. elim (Fr m); [now left | exact Em].
      - apply IH. intros m' Hm'. apply Fr. now right. }
    now rewrite Z0. }
  subst after. cbn [step].
  destruct (scheduled l') eqn:S; rewrite C.
  - cbn [frameCommits runCallbacks snd].
    destruct (cb_writes u' (clearPending l')) as [T [F2 [Hi [Hl [Hr [Hs [Hp Ht]]]]]]].
    change (assistantId (clearPending l')) with (assistantId l') in *.
    change (textAccum (clearPending l')) with (textAccum l') in *.
    change (pending (clearPending l')) with 0%nat in *.
    rewrite A in *.
    split; [now rewrite T|]. split.
    + intros _. now repeat split.
    + split; [discriminate|]. now repeat split.
  - cbn [frameCommits runCallbacks fst snd clearPending].
    split; [reflexivity|]. split; [discriminate|]. now repeat split.
Qed.

(** C5, as the code has it. A transport error in an insights request appends
    the annotation [\n[insights error] <message>] to the accumulated text,
    which is kept. A transport error in a chat turn keeps the accumulated
    text and every message whose content is not empty as they are, and
    appends nothing to them: it writes [Error: <message>] into the assistant
    messages whose content is still empty, and into those only. *)
Theorem transport_error_keeps_text :
  (forall (st : Insights.State) (e : Error),
      Insights.insights (Insights.step st (Insights.Fail e))
        = Insights.insights st ++ Insights.annotation e /\
      Insights.annotation e <> EmptyString) /\
  (forall (u : Ui) (l : Locals) (e : Error),
      snd (step (u, l) (Fail e)) = l /\
      Forall2
        (fun m m' =>
           id m' = id m /\ role m' = role m /\ meta m' = meta m /\
           (content m <> EmptyString -> content m' = content m) /\
           (role m <> assistant -> content m' = content m) /\
           (role m = assistant -> content m = EmptyString ->
            content m' = "Error: " ++ (if isEmpty (message e)
                                       then "Something went wrong"
                                       else message e)))
        (messages u) (messages (fst (step (u, l) (Fail e))))).
Proof.
  split.
  - intros st e. split; [reflexivity|]. discriminate.
  - intros u l e. split; [reflexivity|].
    cbn [step fst]. unfold onError, setLoading, setMessages. cbn [messages].
    induction (messages u) as [|m ms IH]; [constructor|].
    cbn [List.map]. constructor; [|exact IH].
    destruct m as [i r c mt]; cbn.
    destruct r, c; cbn; repeat split; congruence.
Qed.

End WithPlatform.

(** *** Instances on the reference engine *)

#[local] Existing Instance Reference.engine.

Lemma sendQuestion_guard_witness :
  (trim "   " = EmptyString \/ loading initial = true) /\
  Chat.sendQuestion "http://127.0.0.1:8001" "openai/gpt-4o-mini"
    "   " 1700000000000 1700000000000 "0.4fzyo82mvyr" initial = (initial, None).
Proof.
  assert (H : trim "   " = EmptyString \/ loading initial = true)
    by (left; reflexivity).
  split; [exact H|].
  exact (proj1 (@sendQuestion_guard "http://127.0.0.1:8001" "openai/gpt-4o-mini"
                  "   " 1700000000000 1700000000000 "0.4fzyo82mvyr" initial H)).
Defined.

Lemma partial_line_is_buffered_witness :
  let chunk1 := Reference.contentFrame "ab" ++ str LF ++ "da" in
  let chunk2 := "ta: {" ++ Reference.quoted "content" ++ ":" ++ Reference.quoted "c" ++ "}" ++ str LF in
  (contains "da" LF = false /\
   feed "ta: x" (feed ("data: x" ++ str LF ++ "da") (fresh "a1"))
     = feed ("da" ++ "ta: x") (feed ("data: x" ++ str LF) (fresh "a1"))) /\
  (sentinel (feedAll [chunk1; chunk2] (fresh "a1")) = false /\
   feedAll [chunk1; chunk2] (fresh "a1") = feed (joined [chunk1; chunk2]) (fresh "a1")) /\
  (JSON_parse ("{" ++ Reference.quoted "content" ++ ":" ++ Reference.quoted "ab" ++ "}")
     = Some (VObj [("content", VStr "ab")]) /\
   JSON_parse ("{" ++ Reference.quoted "content" ++ ":" ++ Reference.quoted "c" ++ "}")
     = Some (VObj [("content", VStr "c")]) /\
   emitted (feed chunk2 (feed chunk1 (fresh "a1"))) = ["ab"; "c"]).
Proof.
  intros chunk1 chunk2.
  destruct (@partial_line_is_buffered Reference.engine) as [G [A E]].
  split; [|split].
  - assert (H : contains "da" LF = false) by reflexivity.
    split; [exact H|].
    pose proof (G (fresh "a1") ("data: x" ++ str LF) "da" "ta: x" H) as [_ [_ R]].
    rewrite <- R. now rewrite append_assoc.
  - assert (H : sentinel (feedAll [chunk1; chunk2] (fresh "a1")) = false)
      by reflexivity.
    split; [exact H|]. exact (A "a1" [chunk1; chunk2] H).
  - assert (H1 : JSON_parse
                   ("{" ++ Reference.quoted "content" ++ ":" ++ Reference.quoted "ab" ++ "}")
                 = Some (VObj [("content", VStr "ab")])) by reflexivity.
    assert (H2 : JSON_parse
                   ("{" ++ Reference.quoted "content" ++ ":" ++ Reference.quoted "c" ++ "}")
                 = Some (VObj [("content", VStr "c")])) by reflexivity.
    split; [exact H1|]. split; [exact H2|].
    exact (proj1 (proj2 (proj2 (E "a1" H1 H2)))).
Defined.

Lemma scheduler_coalesces_witness :
  let start := Chat.sendQuestion "http://127.0.0.1:8001" "openai/gpt-4o-mini"
                 "hi" 1700000000000 1700000000000 "0.4fzyo82mvyr" initial in
  let aid := "a_1700000000000_4fzyo8" in
  let evs := [ Chunk (Reference.contentFrame "ab" ++ str LF);
               Chunk (Reference.contentFrame "c" ++ str LF) ] in
  let s := steps (fst start, fresh aid) evs in
  start = (fst start, Some (fresh aid)) /\
  scheduled (snd s) = true /\
  textAccum (snd s) = "abc" /\
  turnContents aid (fst s) = [EmptyString] /\
  frameCommits (pending (snd s)) (fst s, clearPending (snd s)) = [["abc"]] /\
  turnContents aid (fst (step (fst s, snd s) Frame)) = ["abc"].
Proof.
  intros start aid evs s.
  assert (H : start = (fst start, Some (fresh aid))) by reflexivity.
  assert (S : scheduled (snd s) = true) by reflexivity.
  assert (T : textAccum (snd s) = "abc") by reflexivity.
  assert (B : turnContents aid (fst s) = [EmptyString]) by reflexivity.
  split; [exact H|]. split; [exact S|]. split; [exact T|]. split; [exact B|].
  pose proof (@scheduler_coalesces Reference.engine _ _ _ _ _ _ _ _ _ evs H)
    as [_ [_ [_ [_ [C [U _]]]]]].
  fold s in C, U. change (assistantId (fresh aid)) with aid in C, U.
  rewrite S, T, B in C. split; [exact C|].
  destruct (U S) as [V _]. rewrite T, B in V. exact V.
Defined.

(** C5, as the specification has it, fails for the chat turn. The frame
    [data: {"content":"ab"}] arrives and is shown, then the transport fails:
    the turn's message still reads [ab], and no message carries the
    accumulated text with an annotation after it. *)
Lemma chat_error_after_frames_not_annotated :
  let start := Chat.sendQuestion "http://127.0.0.1:8001" "openai/gpt-4o-mini"
                 "hi" 1700000000000 1700000000000 "0.4fzyo82mvyr" initial in
  let s1 := steps (fst start, fresh "a_1700000000000_4fzyo8")
              [ Chunk (Reference.contentFrame "ab" ++ str LF); Frame ] in
  let s2 := step s1 (Fail (mkError "TypeError" "network error")) in
  snd start = Some (fresh "a_1700000000000_4fzyo8") /\
  textAccum (snd s1) = "ab" /\
  List.map content (messages (fst s1)) = [greeting; "hi"; "ab"] /\
  List.map content (messages (fst s2)) = [greeting; "hi"; "ab"] /\
  ~ (exists m, In m (messages (fst s2)) /\ annotated "ab" (content m)).
Proof.
  intros start s1 s2.
  assert (M : List.map content (messages (fst s2)) = [greeting; "hi"; "ab"])
    by (vm_compute; reflexivity).
  split; [reflexivity|]. split; [vm_compute; reflexivity|].
  split; [vm_compute; reflexivity|]. split; [exact M|].
  intros [m [Hin [note [Hne Hc]]]].
  apply (in_map content) in Hin. rewrite M, Hc in Hin.
  destruct Hin as [Hin|[Hin|[Hin|[]]]].
  - discriminate Hin.
  - discriminate Hin.
  - injection Hin as Hin. now apply Hne.
Qed.

End ChatSpec.

(** ** The dashboard *)

Module DashboardSpec.

Import Js JsFacts Value Dashboard.

Section WithPlatform.
Context {P : Platform}.

(** *** The normalizers *)

(** C8. Each of the four normalizers, given [null], [undefined] or a
    document that carries an error marker (an [error] member that is
    truthy, as in [{ error: "x" }]), returns its empty shape and does not
    throw: the empty sequence, or the heat matrix without labels and values
    and with [min = max = 0]. *)
Theorem normalizers_degrade_to_empty (json : any) :
  json = VNull \/ json = VUndefined \/ truthy (prop json "error") = true ->
  parseCategoryChart json = Ok [] /\
  parseStackedChart json = Ok [] /\
  parseMonthlyTrends json = Ok [] /\
  parseHeatmap json =
    {| x_labels := []; y_labels := []; values := [];
       min := Int 0; max := Int 0; title := None |}.
Proof.
  intros H.
  assert (G : negb (truthy json) || truthy (prop json "error") = true).
  { destruct H as [-> | [-> | ->]]; [reflexivity | reflexivity |].
    apply orb_true_r. }
  unfold parseCategoryChart, parseStackedChart, parseMonthlyTrends, parseHeatmap.
  rewrite G. now repeat split.
Qed.

(** [Math.min] and [Math.max] over integers. *)
Lemma mathMin_Int (x : Z) (xs : list Z) :
  mathMin (Int x) (List.map Int xs) = Int (fold_left Z.min xs x).
Proof.
  unfold mathMin. revert x; induction xs as [|y xs IH]; intros x; [reflexivity|].
  cbn [List.map fold_left min2]. apply IH.
Qed.

Lemma mathMax_Int (x : Z) (xs : list Z) :
  mathMax (Int x) (List.map Int xs) = Int (fold_left Z.max xs x).
Proof.
  unfold mathMax. revert x; induction xs as [|y xs IH]; intros x; [reflexivity|].
  cbn [List.map fold_left max2]. apply IH.
Qed.

(** What [parseHeatmap] makes of [min] and [max], by cases on the document:
    both are kept when both are numbers other than zero; otherwise both are
    derived from the flattened values, where there is one. *)
Lemma parseHeatmap_supplied (json : any) (lo hi : Z) :
  truthy json = true -> truthy (prop json "error") = false ->
  prop json "min" = VNum (Int lo) -> prop json "max" = VNum (Int hi) ->
  lo <> 0 -> hi <> 0 ->
  min (parseHeatmap json) = Int lo /\ max (parseHeatmap json) = Int hi.
Proof.
  intros T E Hlo Hhi Nlo Nhi. unfold parseHeatmap.
  rewrite T, E, Hlo, Hhi. cbn.
  destruct (Z.eqb_spec lo 0); [contradiction|].
  destruct (Z.eqb_spec hi 0); [contradiction|].
  now split.
Qed.

Lemma parseHeatmap_absent (json : any) :
  truthy json = true -> truthy (prop json "error") = false ->
  prop json "min" = VUndefined -> prop json "max" = VUndefined ->
  match List.concat (values (parseHeatmap json)) with
  | [] => min (parseHeatmap json) = Int 0 /\ max (parseHeatmap json) = Int 0
  | v :: flat =>
      min (parseHeatmap json) = mathMin v flat /\
      max (parseHeatmap json) = mathMax v flat
  end.
Proof.
  intros T E Hlo Hhi. unfold parseHeatmap.
  rewrite T, E, Hlo, Hhi. cbn [negb orb truthy].
  match goal with
  | |- context [List.concat (List.map ?f ?rows)] => generalize (List.map f rows)
  end.
  intros vals. destruct (List.concat vals) eqn:F; cbn; rewrite F; now split.
Qed.

(** [values = [[1,2],[3,4]]] without [min] and [max]. *)
Lemma parseHeatmap_example :
  let json := VObj [("values",
                     VArr [VArr [VNum (Int 1); VNum (Int 2)];
                           VArr [VNum (Int 3); VNum (Int 4)]])] in
  min (parseHeatmap json) = Int 1 /\ max (parseHeatmap json) = Int 4.
Proof. now split. Qed.

(** C7 fails where the source supplies the number zero. For
    [{ values: [[1,2]], min: 0, max: 5 }] both [min] and [max] are
    numbers, and [parseHeatmap] returns [min = 1] and [max = 2], derived
    from the values, instead of the [0] and [5] supplied: the test
    [!json.min] takes the number zero for an absent member. *)
Theorem parseHeatmap_zero_min_is_overridden :
  let json := VObj [("values", VArr [VArr [VNum (Int 1); VNum (Int 2)]]);
                    ("min", VNum (Int 0));
                    ("max", VNum (Int 5))] in
  prop json "min" = VNum (Int 0) /\
  prop json "max" = VNum (Int 5) /\
  min (parseHeatmap json) = Int 1 /\
  max (parseHeatmap json) = Int 2.
Proof. now repeat split. Qed.


(** *** The refresh cycle *)

Lemma refreshAll_catch_slots (e : Error) (st : State) (x : Slot) :
  slots (refreshAll_catch e st) x = failed (failureMessage e) (slots st x).
Proof. destruct x; reflexivity. Qed.

Lemma refreshAll_begin_data (st : State) (x : Slot) :
  data (slots (refreshAll_begin st) x) = data (slots st x).
Proof. destruct x; reflexivity. Qed.

Lemma failureMessage_not_empty (e : Error) : failureMessage e <> EmptyString.
Proof.
  unfold failureMessage. destruct (isEmpty (message e)) eqn:E.
  - discriminate.
  - now apply isEmpty_false.
Qed.

(** [Promise.all] rejects as soon as one promise does, with the reason of
    one of the promises. *)
Lemma firstRejection_in (ps : list Settled) (t : nat) (e : Error) :
  firstRejection ps = Some (t, e) ->
  exists p, In p ps /\ outcome p = Throw e.
Proof.
  revert t e; induction ps as [|a ps IH]; intros t e; [discriminate|].
  cbn [firstRejection].
  destruct (outcome a) as [v|ea] eqn:Ea.
  - intros F. destruct (IH _ _ F) as [p [I O]].
    exists p. split; [now right | exact O].
  - destruct (firstRejection ps) as [[t' e']|].
    + destruct (settledAt a <=? t')%nat; intros F; injection F as <- <-.
      * exists a. split; [now left | exact Ea].
      * destruct (IH _ _ eq_refl) as [p [I O]].
        exists p. split; [now right | exact O].
    + intros F; injection F as <- <-.
      exists a. split; [now left | exact Ea].
Qed.

Lemma firstRejection_some (ps : list Settled) (p : Settled) (e : Error) :
  In p ps -> outcome p = Throw e -> firstRejection ps <> None.
Proof.
  induction ps as [|a ps IH]; intros Hin Ho; [contradiction|].
  cbn [firstRejection].
  destruct (outcome a) as [v|ea] eqn:Ea.
  - destruct Hin as [->|Hin]; [congruence | now apply IH].
  - destruct (firstRejection ps) as [[t' e']|]; [|discriminate].
    destruct (settledAt a <=? t')%nat; discriminate.
Qed.

Lemma Promise_all_rejects (ps : list Settled) (p : Settled) (e : Error) :
  In p ps -> outcome p = Throw e ->
  exists e', Promise_all ps = Throw e' /\
             exists p', In p' ps /\ outcome p' = Throw e'.
Proof.
  intros Hin Ho. unfold Promise_all.
  destruct (firstRejection ps) as [[t e']|] eqn:F.
  - exists e'. split; [reflexivity|]. exact (@firstRejection_in ps t e' F).
  - now elim (@firstRejection_some ps p e Hin Ho).
Qed.

Lemma committed_slots (st : State) (x : Slot)
  (byCat types byLoc propLoc incTypes incTopLoc hazLoc hazRisk hazArea : list SimpleDatum)
  (trends hazMonthly : list TrendDatum)
  (stackedLoc typesLoc statusLoc hazVsInc : list GroupDatum)
  (heat hazHeat : HeatMatrix) :
  let st1 :=
    run [ set entriesByCategory (loaded (Simple byCat));
          set incidentHazardTypes (loaded (Simple types));
          set monthlyTrends (loaded (Trend trends));
          set entriesByLocation (loaded (Simple byLoc));
          set stackedEntriesByLocation (loaded (Group stackedLoc));
          set typesByLocation (loaded (Group typesLoc));
          set proportionByLocation (loaded (Simple propLoc));
          set statusByLocation (loaded (Group statusLoc));
          set heatmap (loaded (Heat heat));
          set incidentsTypes (loaded (Simple incTypes));
          set incidentsTopLocations (loaded (Simple incTopLoc));
          set hazardsMonthly (loaded (Trend hazMonthly));
          set hazardsByLocation (loaded (Simple hazLoc));
          set hazardsByRisk (loaded (Simple hazRisk));
          set hazardsByArea (loaded (Simple hazArea));
          set hazardsHeatmap (loaded (Heat hazHeat));
          set hazVsIncByDept (loaded (Group hazVsInc)) ] st in
  x <> kpis ->
  loading (slots st1 x) = false /\ error (slots st1 x) = None /\
  data (slots st1 x) <> None.
Proof.
  intros st1 N. subst st1.
  destruct x; try (now elim N); cbn; repeat split; discriminate.
Qed.

(** What a settled cycle leaves in a slot, by the way the [try] block ended. *)
Lemma refreshAll_settle_slot (ps : list Settled) (now : Z) (st : State) (x : Slot) :
  let st' := refreshAll_settle ps now st in
  loading (slots st' x) = false /\
  match snd (refreshAll_try ps now st) with
  | Ok _ => error (slots st' x) = None /\ data (slots st' x) <> None
  | Throw e => error (slots st' x) = Some (failureMessage e)
  end.
Proof.
  cbv zeta. unfold refreshAll_settle, refreshAll_try.
  destruct (Promise_all ps) as [js|e];
    [|cbn [snd]; rewrite refreshAll_catch_slots; now split].
  repeat match goal with
         | |- context [bind ?c _] =>
             destruct c; cbn [bind];
             [|cbn [snd]; rewrite refreshAll_catch_slots; now split]
         end.
  destruct (composeKpis _) as [kpiData|e];
    [|cbn [snd]; rewrite refreshAll_catch_slots; now split].
  cbn [snd].
  destruct (Slot_eq_dec x kpis) as [->|N].
  - cbn. repeat split; discriminate.
  - match goal with
    | |- context [run [set kpis ?f; setLastUpdated now] ?s] =>
        assert (E : slots (run [set kpis f; setLastUpdated now] s) x = slots s x)
    end.
    { destruct x; try (now elim N); reflexivity. }
    rewrite E. split; [|split]; now apply committed_slots.
Qed.

(** C1, as the code has it. When one of the requests of a cycle rejects,
    whatever their number, the cycle commits to every slot [loading = false]
    and one and the same message, which is not empty and comes from one of
    the rejections; [data] is left as it was before the cycle: [null] where
    the slot held none, and the earlier data where it held some. *)
Theorem rejection_fails_every_slot
  (ps : list Settled) (now : Z) (st : State) (p : Settled) (e : Error) :
  In p ps -> outcome p = Throw e ->
  exists (p' : Settled) (e' : Error),
    In p' ps /\ outcome p' = Throw e' /\
    failureMessage e' <> EmptyString /\
    forall x : Slot,
      loading (slots (refreshAll_settle ps now st) x) = false /\
      error (slots (refreshAll_settle ps now st) x) = Some (failureMessage e') /\
      data (slots (refreshAll_settle ps now st) x) = data (slots st x) /\
      data (slots (refreshAll ps now st) x) = data (slots st x).
Proof.
  intros Hin Ho.
  destruct (@Promise_all_rejects ps p e Hin Ho) as [e' [R [p' [I O]]]].
  exists p', e'. split; [exact I|]. split; [exact O|].
  split; [apply failureMessage_not_empty|].
  assert (S : forall s, refreshAll_settle ps now s = refreshAll_catch e' s).
  { intros s. unfold refreshAll_settle, refreshAll_try. now rewrite R. }
  intros x. unfold refreshAll. rewrite !S, !refreshAll_catch_slots.
  cbn [failed loading error data]. repeat split.
  apply refreshAll_begin_data.
Qed.

(** C2, as the code has it. After every settled cycle, from whatever state
    it started, every slot has [loading = false] and holds data or an error:
    after a cycle that succeeded it holds data and no error, after a cycle
    that failed it holds an error (and the data it held before, if any). *)
Theorem settled_slot_has_data_or_error
  (ps : list Settled) (now : Z) (st : State) (x : Slot) :
  loading (slots (refreshAll_settle ps now st) x) = false /\
  (data (slots (refreshAll_settle ps now st) x) <> None \/
   error (slots (refreshAll_settle ps now st) x) <> None) /\
  match snd (refreshAll_try ps now st) with
  | Ok _ => error (slots (refreshAll_settle ps now st) x) = None /\
            data (slots (refreshAll_settle ps now st) x) <> None
  | Throw _ => error (slots (refreshAll_settle ps now st) x) <> None
  end.
Proof.
  destruct (@refreshAll_settle_slot ps now st x) as [L M].
  split; [exact L|].
  destruct (snd (refreshAll_try ps now st)) as [u|e].
  - destruct M as [E D]. split; [now left | now split].
  - split; [right|]; rewrite M; discriminate.
Qed.

(** C6 fails for four slots. [refreshAll] marks fourteen slots as loading
    and leaves [hazardsByRisk], [hazardsByArea], [hazardsHeatmap] and
    [hazVsIncByDept] as they are: after a cycle that failed, these four
    still read [loading = false] with the old error while the next cycle
    is under way. *)
Theorem refresh_begin_skips_four_slots :
  (forall st : State,
      Forall (fun x => slots (refreshAll_begin st) x = markLoading (slots st x))
        [ kpis; entriesByCategory; incidentHazardTypes; monthlyTrends;
          entriesByLocation; stackedEntriesByLocation; typesByLocation;
          proportionByLocation; statusByLocation; heatmap; incidentsTypes;
          incidentsTopLocations; hazardsMonthly; hazardsByLocation ] /\
      Forall (fun x => slots (refreshAll_begin st) x = slots st x)
        [ hazardsByRisk; hazardsByArea; hazardsHeatmap; hazVsIncByDept ]) /\
  (let st := refreshAll (respond false 500 VNull) 0 initial in
   Forall (fun x =>
             slots (refreshAll_begin st) x =
             {| loading := false; error := Some "Request failed: 500";
                data := None |})
     [ hazardsByRisk; hazardsByArea; hazardsHeatmap; hazVsIncByDept ]).
Proof.
  split.
  - intros st. split; repeat constructor.
  - cbv zeta. repeat constructor.
Qed.

End WithPlatform.

(** *** Instances on the reference engine *)

#[local] Existing Instance Reference.engine.

Lemma normalizers_degrade_to_empty_witness :
  let json := VObj [("error", VStr "x"); ("labels", VArr [VStr "A"])] in
  (json = VNull \/ json = VUndefined \/ truthy (prop json "error") = true) /\
  parseCategoryChart json = Ok [] /\
  parseStackedChart json = Ok [] /\
  parseMonthlyTrends json = Ok [] /\
  parseHeatmap json =
    {| x_labels := []; y_labels := []; values := [];
       min := Int 0; max := Int 0; title := None |}.
Proof.
  intros json.
  assert (H : json = VNull \/ json = VUndefined \/ truthy (prop json "error") = true)
    by (right; right; reflexivity).
  split; [exact H|].
  exact (@normalizers_degrade_to_empty Reference.engine json H).
Defined.

Lemma rejection_fails_every_slot_witness :
  let p := {| settledAt := 5%nat; outcome := Throw (mkError "Error" "backend down") |} in
  In p oneRejects /\
  outcome p = Throw (mkError "Error" "backend down") /\
  exists (p' : Settled) (e' : Error),
    In p' oneRejects /\ outcome p' = Throw e' /\
    failureMessage e' <> EmptyString /\
    forall x : Slot,
      loading (slots (refreshAll_settle oneRejects 0 initial) x) = false /\
      error (slots (refreshAll_settle oneRejects 0 initial) x)
        = Some (failureMessage e') /\
      data (slots (refreshAll_settle oneRejects 0 initial) x)
        = data (slots initial x) /\
      data (slots (refreshAll oneRejects 0 initial) x)
        = data (slots initial x).
Proof.
  intros p.
  assert (H1 : In p oneRejects) by (do 5 right; left; reflexivity).
  assert (H2 : outcome p = Throw (mkError "Error" "backend down")) by reflexivity.
  split; [exact H1|]. split; [exact H2|].
  exact (@rejection_fails_every_slot Reference.engine oneRejects 0 initial p _ H1 H2).
Defined.

(** C1, as the specification has it, fails for a slot that holds data: a
    cycle that succeeds and then a cycle in which the requests are answered
    with status 500 leave the slot with the error and the data of the first
    cycle, not with [null]. *)
Lemma rejection_leaves_earlier_data :
  let st1 := refreshAll (respond true 200 countPayload) 0 initial in
  let st2 := refreshAll (respond false 500 VNull) 1 st1 in
  loading (slots st2 entriesByCategory) = false /\
  error (slots st2 entriesByCategory) = Some "Request failed: 500" /\
  data (slots st2 entriesByCategory)
    = Some (Simple [ {| datumName := VStr "Incidents"; value := Int 42 |} ]) /\
  data (slots st2 entriesByCategory) <> None.
Proof. cbv zeta. repeat split. discriminate. Qed.

(** C2, as the specification has it, fails after a failure that follows a
    success: every slot then holds data and an error at once, with
    [loading = false]. *)
Lemma settled_slot_with_data_and_error :
  let st1 := refreshAll (respond true 200 countPayload) 0 initial in
  let st2 := refreshAll (respond false 500 VNull) 1 st1 in
  Forall (fun x => loading (slots st2 x) = false /\
                   isSet (data (slots st2 x)) = true /\
                   isSet (error (slots st2 x)) = true /\
                   exactlyOneOf (slots st2 x) = false)
         allSlots.
Proof. cbv zeta. repeat constructor. Qed.

End DashboardSpec.

(** ** The frame decoder, line by line *)

Module DecoderSpec.

Import Js JsFacts Value Chat Decoder ChatSpec.

Section WithPlatform.
Context {P : Platform}.

(** One round of the inner loop on a buffer that holds a complete line. *)
Lemma pump_line (fuel : nat) (l : Locals) (pre post : string) :
  buffer l = pre ++ String LF post ->
  contains pre LF = false ->
  pump (S fuel) l =
  match decode pre with
  | Ignored => pump fuel (setBuffer post l)
  | AtSentinel => leaveAtSentinel (setBuffer post l)
  | Piece s => pump fuel (scheduleFlush (accumulate s (setBuffer post l)))
  end.
Proof.
  intros E Hpre. cbn [pump].
  destruct (@first_line pre post Hpre) as [N [S1 S2]].
  cbv zeta in N, S1, S2. rewrite E, N, S1, S2. unfold decode.
  destruct (startsWith (trim pre) "data:"); [|reflexivity].
  destruct (String.eqb _ "[DONE]"); [reflexivity|].
  destruct (JSON_parse _) as [obj|]; [|reflexivity].
  destruct (optProp obj "content"); try reflexivity.
  now destruct (isEmpty s).
Qed.

Lemma feed_line (l : Locals) (line rest : string) :
  contains (buffer l ++ line) LF = false ->
  feed (line ++ str LF ++ rest) l =
  match decode (buffer l ++ line) with
  | Ignored => feed rest (setBuffer EmptyString l)
  | AtSentinel => leaveAtSentinel (setBuffer rest l)
  | Piece s => feed rest (scheduleFlush (accumulate s (setBuffer EmptyString l)))
  end.
Proof.
  intros C. unfold feed. cbn [buffer setBuffer].
  assert (E : buffer l ++ line ++ str LF ++ rest
              = (buffer l ++ line) ++ String LF rest)
    by now rewrite append_assoc.
  rewrite (@pump_line _ (setBuffer (buffer l ++ line ++ str LF ++ rest) l)
             (buffer l ++ line) rest E C).
  destruct (decode (buffer l ++ line)) as [| |s]; try reflexivity.
  - apply pump_fuel; cbn; rewrite ?length_append; cbn; lia.
  - rewrite buffer_scheduleFlush. cbn [buffer accumulate setBuffer append].
    assert (B : setBuffer rest (scheduleFlush (accumulate s (setBuffer EmptyString l)))
                = scheduleFlush
                    (accumulate s
                       (setBuffer rest
                          (setBuffer (buffer l ++ line ++ str LF ++ rest) l))))
      by (destruct l as [a t [|] b n e d]; reflexivity).
    rewrite B.
    apply pump_fuel; rewrite ?buffer_scheduleFlush; cbn;
      rewrite ?length_append; cbn; lia.
Qed.

(** X1. A complete line that is not a [data:] line, or whose payload is not
    JSON, or whose [content] is not a non-empty string, is dropped: the
    decoder goes on with what follows it as if the line had not been there,
    and a line that carries a piece appends it and schedules a flush before
    it goes on. *)
Theorem line_is_dropped_or_appended (l : Locals) (line rest : string) :
  contains (buffer l ++ line) LF = false ->
  (decode (buffer l ++ line) = Ignored ->
   feed (line ++ str LF ++ rest) l = feed rest (setBuffer EmptyString l)) /\
  (startsWith (trim (buffer l ++ line)) "data:" = false ->
   decode (buffer l ++ line) = Ignored) /\
  (JSON_parse (trim (sliceFrom (trim (buffer l ++ line)) 5)) = None ->
   decode (buffer l ++ line) <> AtSentinel ->
   decode (buffer l ++ line) = Ignored) /\
  (forall s, decode (buffer l ++ line) = Piece s ->
   s <> EmptyString /\
   feed (line ++ str LF ++ rest) l =
   feed rest (scheduleFlush (accumulate s (setBuffer EmptyString l)))).
Proof.
  intros C. pose proof (@feed_line l line rest C) as F.
  split; [|split; [|split]].
  - intros D. now rewrite D in F.
  - intros S. unfold decode. now rewrite S.
  - unfold decode. intros J.
    destruct (startsWith _ _); [|reflexivity].
    destruct (String.eqb _ _); [intros N; now elim N|].
    now rewrite J.
  - intros s D. rewrite D in F. split; [|exact F].
    unfold decode in D.
    destruct (startsWith _ _); [|discriminate].
    destruct (String.eqb _ _); [discriminate|].
    destruct (JSON_parse _) as [obj|]; [|discriminate].
    destruct (optProp obj "content"); try discriminate.
    destruct (isEmpty s0) eqn:E; [discriminate|].
    injection D as <-. now apply isEmpty_false.
Qed.

(** X2. The sentinel ends one round only. What follows [data: [DONE]] in
    the buffer is kept, untouched, and is decoded together with the next
    chunk: the line itself is all that is skipped. *)
Theorem sentinel_defers_the_rest (l : Locals) (line rest chunk : string) :
  contains (buffer l ++ line) LF = false ->
  decode (buffer l ++ line) = AtSentinel ->
  feed (line ++ str LF ++ rest) l = leaveAtSentinel (setBuffer rest l) /\
  feed chunk (feed (line ++ str LF ++ rest) l) =
  feed (rest ++ chunk) (leaveAtSentinel (setBuffer EmptyString l)).
Proof.
  intros C D. pose proof (@feed_line l line rest C) as F.
  rewrite D in F. rewrite F. split; reflexivity.
Qed.

(** *** What a chunk adds *)

Lemma pump_adds (fuel : nat) (l : Locals) :
  exists pieces,
    emitted (pump fuel l) = (emitted l ++ pieces)%list /\
    textAccum (pump fuel l) = textAccum l ++ joined pieces /\
    Forall (fun p => p <> EmptyString) pieces /\
    assistantId (pump fuel l) = assistantId l /\
    scheduled (pump fuel l) = (scheduled l || negb (Nat.eqb (List.length pieces) 0)).
Proof.
  revert l; induction fuel as [|fuel IH]; intros l.
  - exists []. cbn. rewrite app_nil_r, append_nil_r, orb_false_r. now repeat split.
  - cbn [pump].
    assert (Z0 : exists pieces : list string,
               emitted l = (emitted l ++ pieces)%list /\
               textAccum l = textAccum l ++ joined pieces /\
               Forall (fun p => p <> EmptyString) pieces /\
               assistantId l = assistantId l /\
               scheduled l = (scheduled l || negb (Nat.eqb (List.length pieces) 0))).
    { exists []. cbn. rewrite app_nil_r, append_nil_r, orb_false_r. now repeat split. }
    destruct (_ =? -1); [exact Z0|].
    destruct (startsWith _ _); [|exact (IH _)].
    destruct (String.eqb _ _); [exact Z0|].
    destruct (JSON_parse _) as [obj|]; [|exact (IH _)].
    destruct (isEmpty _) eqn:E; [exact (IH _)|].
    match goal with
    | |- context [accumulate ?s ?l0] =>
        destruct (IH (scheduleFlush (accumulate s l0))) as [ps [H1 [H2 [H3 [H4 H5]]]]];
        exists (s :: ps)
    end.
    rewrite H1, H2, H4, H5. clear H1 H2 H4 H5.
    unfold scheduleFlush.
    destruct (scheduled (accumulate _ _)) eqn:Sc; cbn in Sc |- *; rewrite ?Sc;
      rewrite <- ?app_assoc, ?append_assoc; cbn.
    + repeat split; trivial. constructor; [now apply isEmpty_false | exact H3].
    + repeat split; trivial. constructor; [now apply isEmpty_false | exact H3].
Qed.

(** X3. A chunk only ever adds to the accumulated text: what [feed] emits
    are non-empty pieces, appended in order to [textAccum], and a flush is
    scheduled as soon as one piece was appended; a chunk without a piece
    leaves the scheduler alone. *)
Theorem feed_only_appends (chunk : string) (l : Locals) :
  exists pieces,
    emitted (feed chunk l) = (emitted l ++ pieces)%list /\
    textAccum (feed chunk l) = textAccum l ++ joined pieces /\
    Forall (fun p => p <> EmptyString) pieces /\
    scheduled (feed chunk l) = (scheduled l || negb (Nat.eqb (List.length pieces) 0)).
Proof.
  unfold feed.
  destruct (pump_adds (S (String.length (buffer (setBuffer (buffer l ++ chunk) l))))
              (setBuffer (buffer l ++ chunk) l)) as [ps [H1 [H2 [H3 [_ H5]]]]].
  exists ps. now repeat split.
Qed.

(** *** The loop ends by its own exit *)

Lemma pump_exit (fuel : nat) (l : Locals) :
  (String.length (buffer l) < fuel)%nat ->
  sentinel (pump fuel l) = false ->
  contains (buffer (pump fuel l)) LF = false.
Proof.
  revert l; induction fuel as [|fuel IH]; intros l H; [lia|].
  destruct (contains (buffer l) LF) eqn:C.
  - destruct (@contains_split _ C) as [pre [post [E Hpre]]].
    rewrite (@pump_line fuel l pre post E Hpre).
    rewrite E, length_append in H. cbn [String.length] in H.
    destruct (decode pre) as [| |s].
    + apply IH. cbn. lia.
    + discriminate.
    + apply IH. rewrite buffer_scheduleFlush. cbn. lia.
  - rewrite pump_no_line by exact C. now intros _.
Qed.

(** X4. The inner loop ends on every buffer, and by its own exit: the
    rounds [feed] allows are never used up, so more of them change nothing,
    and when the loop has not left at the sentinel, no complete line is left
    in the buffer. *)
Theorem inner_loop_ends (chunk : string) (l : Locals) (more : nat) :
  pump (S (String.length (buffer l ++ chunk)) + more)
       (setBuffer (buffer l ++ chunk) l) = feed chunk l /\
  (sentinel (feed chunk l) = false ->
   contains (buffer (feed chunk l)) LF = false).
Proof.
  split.
  - unfold feed. cbn [buffer setBuffer]. apply pump_fuel; cbn; lia.
  - unfold feed. apply pump_exit. cbn. lia.
Qed.

End WithPlatform.

(** *** Instances on the reference engine *)

#[local] Existing Instance Reference.engine.

(** A line that is no [data:] line is dropped, and a frame appends its
    piece. *)
Lemma line_is_dropped_or_appended_witness :
  (contains (buffer (fresh "a1") ++ "event: ping") LF = false /\
   startsWith (trim (buffer (fresh "a1") ++ "event: ping")) "data:" = false /\
   feed ("event: ping" ++ str LF ++ "x") (fresh "a1")
   = feed "x" (setBuffer EmptyString (fresh "a1"))) /\
  (contains (buffer (fresh "a1") ++ Reference.contentFrame "ab") LF = false /\
   decode (buffer (fresh "a1") ++ Reference.contentFrame "ab") = Piece "ab" /\
   feed (Reference.contentFrame "ab" ++ str LF ++ "x") (fresh "a1")
   = feed "x" (scheduleFlush (accumulate "ab" (setBuffer EmptyString (fresh "a1"))))).
Proof.
  split.
  - assert (C : contains (buffer (fresh "a1") ++ "event: ping") LF = false)
      by reflexivity.
    assert (S : startsWith (trim (buffer (fresh "a1") ++ "event: ping")) "data:" = false)
      by reflexivity.
    split; [exact C|]. split; [exact S|].
    destruct (@line_is_dropped_or_appended Reference.engine
                (fresh "a1") "event: ping" "x" C) as [A [B _]].
    exact (A (B S)).
  - assert (C : contains (buffer (fresh "a1") ++ Reference.contentFrame "ab") LF = false)
      by reflexivity.
    assert (D : decode (buffer (fresh "a1") ++ Reference.contentFrame "ab") = Piece "ab")
      by reflexivity.
    split; [exact C|]. split; [exact D|].
    destruct (@line_is_dropped_or_appended Reference.engine
                (fresh "a1") (Reference.contentFrame "ab") "x" C) as [_ [_ [_ A]]].
    exact (proj2 (A "ab" D)).
Defined.

Lemma sentinel_defers_the_rest_witness :
  contains (buffer (fresh "a1") ++ "data: [DONE]") LF = false /\
  decode (buffer (fresh "a1") ++ "data: [DONE]") = AtSentinel /\
  feed ("data: [DONE]" ++ str LF ++ "data: x") (fresh "a1")
  = leaveAtSentinel (setBuffer "data: x" (fresh "a1")) /\
  feed "y" (feed ("data: [DONE]" ++ str LF ++ "data: x") (fresh "a1"))
  = feed ("data: x" ++ "y") (leaveAtSentinel (setBuffer EmptyString (fresh "a1"))).
Proof.
  assert (C : contains (buffer (fresh "a1") ++ "data: [DONE]") LF = false)
    by reflexivity.
  assert (D : decode (buffer (fresh "a1") ++ "data: [DONE]") = AtSentinel)
    by reflexivity.
  split; [exact C|]. split; [exact D|].
  exact (@sentinel_defers_the_rest Reference.engine
           (fresh "a1") "data: [DONE]" "data: x" "y" C D).
Defined.

Lemma inner_loop_ends_witness :
  sentinel (feed ("ab" ++ str LF ++ "cd") (fresh "a1")) = false /\
  contains (buffer (feed ("ab" ++ str LF ++ "cd") (fresh "a1"))) LF = false.
Proof.
  assert (S : sentinel (feed ("ab" ++ str LF ++ "cd") (fresh "a1")) = false)
    by reflexivity.
  split; [exact S|].
  exact (proj2 (@inner_loop_ends Reference.engine
                  ("ab" ++ str LF ++ "cd") (fresh "a1") 3%nat) S).
Defined.

End DecoderSpec.

(** ** The chat turn as a whole *)

Module TurnSpec.

Import Js JsFacts Value Chat Decoder Turn ChatSpec DecoderSpec.

Section WithPlatform.
Context {P : Platform}.
Variables chatBase chatModel : string.

Abbreviation ask := (Chat.sendQuestion chatBase chatModel).

Lemma asked (q : string) (now1 now2 : Z) (rnd : string) (u u0 : Ui) (l0 : Locals) :
  ask q now1 now2 rnd u = (u0, Some l0) ->
  exists userId question,
    l0 = fresh (assistantId l0) /\
    String.get 0 userId = Some "u"%char /\
    String.get 0 (assistantId l0) = Some "a"%char /\
    question <> EmptyString /\ question = trim q /\
    loading u = false /\ loading u0 = true /\ input u0 = EmptyString /\
    requests u0 = (requests u ++ [ {| endpoint := chatBase ++ "/chat/stream";
                                     question := question;
                                     model := chatModel |} ])%list /\
    messages u0 = (messages u ++
                   [ {| id := userId; role := user; content := question;
                        meta := VUndefined |};
                     {| id := assistantId l0; role := assistant;
                        content := EmptyString; meta := VUndefined |} ])%list.
Proof.
  unfold Chat.sendQuestion.
  destruct (isEmpty (trim q)) eqn:E; [discriminate|].
  destruct (loading u) eqn:L; [discriminate|].
  cbn [orb]. intros H. injection H as <- <-.
  eexists. exists (trim q). cbn.
  repeat split; try reflexivity. now apply isEmpty_false.
Qed.

(** *** While the stream is under way *)

Lemma loading_cb (s : Ui * Locals) : loading (fst (cb s)) = loading (fst s).
Proof. now destruct s. Qed.

Lemma loading_runCallbacks (n : nat) (s : Ui * Locals) :
  loading (fst (runCallbacks n s)) = loading (fst s).
Proof.
  revert s; induction n as [|n IH]; intros s; [reflexivity|].
  cbn [runCallbacks]. now rewrite IH, loading_cb.
Qed.

Lemma loading_underWay (s : Ui * Locals) (ev : Event) :
  underWay ev = true -> loading (fst (step s ev)) = loading (fst s).
Proof.
  destruct s as [u l]. destruct ev; try discriminate; intros _; cbn [step].
  - reflexivity.
  - now rewrite loading_runCallbacks.
Qed.

Lemma loading_steps (evs : list Event) (s : Ui * Locals) :
  forallb underWay evs = true -> loading (fst (steps s evs)) = loading (fst s).
Proof.
  revert s; induction evs as [|ev evs IH]; intros s H; [reflexivity|].
  cbn in H. apply andb_prop in H. destruct H as [H1 H2].
  unfold steps; cbn [fold_left]. fold (steps (step s ev) evs).
  now rewrite IH, loading_underWay.
Qed.

(** X5. One turn at a time. From the question until its stream ends or
    fails, [loading] stays set, so a further call of [sendQuestion], with
    whatever text, changes nothing and issues no request; the event that
    ends the stream, whichever it is, clears [loading]. *)
Theorem turn_under_way_blocks_questions
  (q : string) (now1 now2 : Z) (rnd : string) (u u0 : Ui) (l0 : Locals)
  (evs : list Event) :
  ask q now1 now2 rnd u = (u0, Some l0) ->
  forallb underWay evs = true ->
  loading (fst (steps (u0, l0) evs)) = true /\
  (forall (q' : string) (t1 t2 : Z) (rnd' : string),
      ask q' t1 t2 rnd' (fst (steps (u0, l0) evs))
      = (fst (steps (u0, l0) evs), None)) /\
  (forall ev, underWay ev = false ->
              loading (fst (steps (u0, l0) (evs ++ [ev]))) = false).
Proof.
  intros A U.
  destruct (asked _ _ _ _ _ A) as [uid [qu [_ [_ [_ [_ [_ [_ [L _]]]]]]]]].
  assert (L' : loading (fst (steps (u0, l0) evs)) = true)
    by (rewrite loading_steps by exact U; exact L).
  split; [exact L'|]. split.
  - intros q' t1 t2 rnd'. unfold Chat.sendQuestion.
    now rewrite L', orb_true_r.
  - intros ev N. unfold steps. rewrite fold_left_app. cbn [fold_left].
    fold (steps (u0, l0) evs).
    destruct (steps (u0, l0) evs) as [u1 l1].
    destruct ev; try discriminate N; reflexivity.
Qed.

(** *** What an event can change *)

Lemma thread_commit (l : Locals) (u : Ui) :
  Forall2 (fun m m' : ChatMessage =>
             id m' = id m /\ role m' = role m /\ meta m' = meta m /\
             (id m <> assistantId l -> content m' = content m))
          (messages u) (messages (commit l u)).
Proof.
  unfold commit, setMessages. cbn [messages].
  induction (messages u) as [|m ms IH]; [constructor|].
  cbn [List.map]. constructor; [|exact IH].
  destruct (String.eqb_spec (id m) (assistantId l)) as [E|N]; cbn.
  - repeat split. intros N. now elim N.
  - now repeat split.
Qed.

Lemma thread_onError (e : Error) (u : Ui) :
  Forall2 (fun m m' : ChatMessage =>
             id m' = id m /\ role m' = role m /\ meta m' = meta m /\
             (content m <> EmptyString \/ role m <> assistant ->
              content m' = content m))
          (messages u) (messages (onError e u)).
Proof.
  unfold onError, setMessages. cbn [messages].
  induction (messages u) as [|m ms IH]; [constructor|].
  cbn [List.map]. constructor; [|exact IH].
  destruct m as [i r c mt]; cbn.
  destruct r, c; cbn; repeat split; intros [N|N]; now elim N.
Qed.

Lemma Forall2_thread_refl (aid : string) (ms : list ChatMessage) :
  Forall2 (fun m m' : ChatMessage =>
             id m' = id m /\ role m' = role m /\ meta m' = meta m /\
             (id m <> aid ->
              content m <> EmptyString \/ role m <> assistant ->
              content m' = content m))
          ms ms.
Proof. induction ms; constructor; [now repeat split | assumption]. Qed.

Lemma Forall2_thread_trans (aid : string) (a b c : list ChatMessage) :
  Forall2 (fun m m' : ChatMessage =>
             id m' = id m /\ role m' = role m /\ meta m' = meta m /\
             (id m <> aid ->
              content m <> EmptyString \/ role m <> assistant ->
              content m' = content m)) a b ->
  Forall2 (fun m m' : ChatMessage =>
             id m' = id m /\ role m' = role m /\ meta m' = meta m /\
             (id m <> aid ->
              content m <> EmptyString \/ role m <> assistant ->
              content m' = content m)) b c ->
  Forall2 (fun m m' : ChatMessage =>
             id m' = id m /\ role m' = role m /\ meta m' = meta m /\
             (id m <> aid ->
              content m <> EmptyString \/ role m <> assistant ->
              content m' = content m)) a c.
Proof.
  intros H; revert c; induction H as [|x y a b [I [R [M C]]] H IH];
    intros c G; inversion G as [|y' z b' c' [I' [R' [M' C']]] G']; subst;
    constructor.
  - repeat split; try congruence.
    intros N K. rewrite C', C; trivial; try congruence.
    rewrite C by trivial. destruct K as [K|K]; [now left | right; congruence].
  - now apply IH.
Qed.

Lemma thread_cb (s : Ui * Locals) :
  assistantId (snd (cb s)) = assistantId (snd s) /\
  input (fst (cb s)) = input (fst s) /\
  requests (fst (cb s)) = requests (fst s) /\
  Forall2 (fun m m' : ChatMessage =>
             id m' = id m /\ role m' = role m /\ meta m' = meta m /\
             (id m <> assistantId (snd s) ->
              content m <> EmptyString \/ role m <> assistant ->
              content m' = content m))
          (messages (fst s)) (messages (fst (cb s))).
Proof.
  destruct s as [u l]. cbn [cb fst snd assistantId]. repeat split.
  eapply Forall2_impl; [|apply thread_commit].
  cbn. intros m m' [I [R [M C]]]. repeat split; trivial;
    intros N K; now apply C.
Qed.

Lemma thread_runCallbacks (n : nat) (s : Ui * Locals) :
  assistantId (snd (runCallbacks n s)) = assistantId (snd s) /\
  input (fst (runCallbacks n s)) = input (fst s) /\
  requests (fst (runCallbacks n s)) = requests (fst s) /\
  Forall2 (fun m m' : ChatMessage =>
             id m' = id m /\ role m' = role m /\ meta m' = meta m /\
             (id m <> assistantId (snd s) ->
              content m <> EmptyString \/ role m <> assistant ->
              content m' = content m))
          (messages (fst s)) (messages (fst (runCallbacks n s))).
Proof.
  revert s; induction n as [|n IH]; intros s.
  - cbn. repeat split. apply Forall2_thread_refl.
  - cbn [runCallbacks].
    destruct (IH (cb s)) as [A [I [R F]]].
    destruct (thread_cb s) as [A' [I' [R' F']]].
    rewrite A' in A, F. repeat split; try congruence.
    exact (Forall2_thread_trans F' F).
Qed.

Lemma assistantId_pump (fuel : nat) (l : Locals) :
  assistantId (pump fuel l) = assistantId l.
Proof. destruct (pump_adds fuel l) as [ps [_ [_ [_ [H _]]]]]. exact H. Qed.

Lemma assistantId_feed (chunk : string) (l : Locals) :
  assistantId (feed chunk l) = assistantId l.
Proof. unfold feed. now rewrite assistantId_pump. Qed.

(** X6. The events of a stream never add, remove or reorder messages,
    never change an id, a role or a [meta], and touch neither the input
    field nor the requests. A message that is not the turn's own keeps its
    content, unless it is an assistant message with empty content. *)
Theorem events_keep_the_thread (evs : list Event) (s : Ui * Locals) :
  assistantId (snd (steps s evs)) = assistantId (snd s) /\
  input (fst (steps s evs)) = input (fst s) /\
  requests (fst (steps s evs)) = requests (fst s) /\
  Forall2 (fun m m' : ChatMessage =>
             id m' = id m /\ role m' = role m /\ meta m' = meta m /\
             (id m <> assistantId (snd s) ->
              content m <> EmptyString \/ role m <> assistant ->
              content m' = content m))
          (messages (fst s)) (messages (fst (steps s evs))) /\
  hasUserMessage (fst (steps s evs)) = hasUserMessage (fst s).
Proof.
  assert (G : forall evs s,
             assistantId (snd (steps s evs)) = assistantId (snd s) /\
             input (fst (steps s evs)) = input (fst s) /\
             requests (fst (steps s evs)) = requests (fst s) /\
             Forall2 (fun m m' : ChatMessage =>
                        id m' = id m /\ role m' = role m /\ meta m' = meta m /\
                        (id m <> assistantId (snd s) ->
                         content m <> EmptyString \/ role m <> assistant ->
                         content m' = content m))
                     (messages (fst s)) (messages (fst (steps s evs)))).
  { clear evs s. induction evs as [|ev evs IH]; intros s.
    - cbn. repeat split. apply Forall2_thread_refl.
    - unfold steps; cbn [fold_left]. fold (steps (step s ev) evs).
      destruct (IH (step s ev)) as [A [I [R F]]].
      assert (S1 : assistantId (snd (step s ev)) = assistantId (snd s) /\
                   input (fst (step s ev)) = input (fst s) /\
                   requests (fst (step s ev)) = requests (fst s) /\
                   Forall2 (fun m m' : ChatMessage =>
                              id m' = id m /\ role m' = role m /\ meta m' = meta m /\
                              (id m <> assistantId (snd s) ->
                               content m <> EmptyString \/ role m <> assistant ->
                               content m' = content m))
                           (messages (fst s)) (messages (fst (step s ev)))).
      { destruct s as [u l]. destruct ev; cbn [step fst snd].
        - repeat split; [apply assistantId_feed | apply Forall2_thread_refl].
        - repeat split. cbn [messages setLoading].
          eapply Forall2_impl; [|apply thread_commit].
          cbn. intros m m' [I' [R' [M' C']]]. repeat split; trivial;
            intros N K; now apply C'.
        - repeat split. cbn [messages setLoading].
          eapply Forall2_impl; [|apply (thread_commit _ u)].
          cbn. intros m m' [I' [R' [M' C']]]. repeat split; trivial;
            intros N K; now apply C'.
        - repeat split. cbn [messages setLoading].
          eapply Forall2_impl; [|apply thread_onError].
          cbn. intros m m' [I' [R' [M' C']]]. repeat split; trivial;
            intros N K; now apply C'.
        - apply (thread_runCallbacks (pending l) (u, clearPending l)). }
      destruct S1 as [A' [I' [R' F']]].
      rewrite A' in A, F. repeat split; try congruence.
      exact (Forall2_thread_trans F' F). }
  destruct (G evs s) as [A [I [R F]]]. repeat split; trivial.
  unfold hasUserMessage.
  induction F as [|m m' ms ms' [_ [Ro _]] F IH]; [reflexivity|].
  cbn [existsb]. now rewrite Ro, IH.
Qed.

(** *** How a turn ends *)

Lemma own_commit (aid : string) (l : Locals) (u : Ui) :
  existsb (own aid) (messages (commit l u)) = existsb (own aid) (messages u).
Proof.
  unfold commit, setMessages. cbn [messages].
  induction (messages u) as [|m ms IH]; [reflexivity|].
  cbn [List.map existsb]. rewrite IH. f_equal.
  unfold own. now destruct (String.eqb (id m) (assistantId l)).
Qed.

Lemma own_onError (aid : string) (e : Error) (u : Ui) :
  existsb (own aid) (messages (onError e u)) = existsb (own aid) (messages u).
Proof.
  unfold onError, setMessages. cbn [messages].
  induction (messages u) as [|m ms IH]; [reflexivity|].
  cbn [List.map existsb]. rewrite IH. f_equal.
  unfold own. now destruct (Role_eqb (role m) assistant && isEmpty (content m)).
Qed.

Lemma Forall_commit (Q : ChatMessage -> Prop) (l : Locals) (u : Ui) :
  (forall m, In m (messages u) ->
             Q (if String.eqb (id m) (assistantId l)
                then setContent (textAccum l) m else m)) ->
  Forall Q (messages (commit l u)).
Proof.
  intros H. unfold commit, setMessages. cbn [messages].
  apply Forall_forall. intros m' Hin. apply in_map_iff in Hin.
  destruct Hin as [m [<- Hin]]. now apply H.
Qed.

Lemma Forall_onError (Q : ChatMessage -> Prop) (e : Error) (u : Ui) :
  (forall m, In m (messages u) ->
             Q (if Role_eqb (role m) assistant && isEmpty (content m)
                then setContent (errorText e) m else m)) ->
  Forall Q (messages (onError e u)).
Proof.
  intros H. unfold onError, setMessages. cbn [messages].
  apply Forall_forall. intros m' Hin. apply in_map_iff in Hin.
  destruct Hin as [m [<- Hin]]. now apply H.
Qed.

Lemma inStep_start (q : string) (now1 now2 : Z) (rnd : string) (u u0 : Ui) (l0 : Locals) :
  ask q now1 now2 rnd u = (u0, Some l0) ->
  (forall m, In m (messages u) -> id m <> assistantId l0) ->
  inStep (assistantId l0) (u0, l0).
Proof.
  intros A Fr.
  destruct (asked _ _ _ _ _ A)
    as [uid [qu [L0 [Gu [Ga [_ [_ [_ [_ [_ [_ M]]]]]]]]]]].
  unfold inStep. cbn [fst snd]. rewrite L0. cbn [assistantId scheduled textAccum fresh].
  split; [reflexivity|]. split; [reflexivity|]. split; [discriminate|].
  rewrite M. split.
  - apply Forall_app. split.
    + apply Forall_forall. intros m Hin O. unfold own in O.
      apply String.eqb_eq in O. now elim (Fr m Hin).
    + constructor; [|constructor; [|constructor]].
      * unfold own; cbn. intros O. apply String.eqb_eq in O.
        rewrite O in Gu. congruence.
      * intros _. now split.
  - rewrite existsb_app. apply orb_true_iff. right.
    cbn [existsb]. unfold own. cbn [id].
    rewrite String.eqb_refl. now rewrite orb_true_r.
Qed.

Lemma inStep_frame (aid : string) (u : Ui) (l : Locals) :
  inStep aid (u, l) ->
  inStep aid (step (u, l) Frame) /\
  scheduled (snd (step (u, l) Frame)) = false /\
  textAccum (snd (step (u, l) Frame)) = textAccum l.
Proof.
  intros [A [C [T [F E]]]]. cbn [fst snd] in *. cbn [step].
  unfold coherent in C. destruct (scheduled l) eqn:S; rewrite C.
  - cbn [runCallbacks cb clearPending assistantId textAccum scheduled
         buffer pending emitted sentinel].
    split; [|now split].
    unfold inStep. cbn [fst snd assistantId scheduled textAccum].
    split; [exact A|]. split; [reflexivity|]. split; [discriminate|].
    split.
    + apply Forall_commit. cbn [assistantId textAccum].
      intros m Hin. rewrite Forall_forall in F. specialize (F m Hin).
      rewrite A. fold (own aid m). destruct (own aid m) eqn:O.
      * unfold own in *. cbn. intros _. split; [now apply F | reflexivity].
      * intros O'. congruence.
    + now rewrite own_commit.
  - cbn [runCallbacks]. split; [|split; [exact S | reflexivity]].
    unfold inStep, coherent.
    cbn [fst snd clearPending assistantId scheduled textAccum pending].
    rewrite S. split; [exact A|]. split; [reflexivity|].
    split; [exact T|]. split; [exact F | exact E].
Qed.

Lemma joined_nonempty (p : string) (ps : list string) :
  p <> EmptyString -> joined (p :: ps) <> EmptyString.
Proof. destruct p; [congruence | discriminate]. Qed.

Lemma inStep_chunk (aid : string) (u : Ui) (l : Locals) (chunk : string) :
  inStep aid (u, l) -> inStep aid (step (u, l) (Chunk chunk)).
Proof.
  intros [A [C [T [F E]]]]. cbn [fst snd] in *. cbn [step].
  unfold inStep. cbn [fst snd]. unfold feed.
  destruct (pump_adds (S (String.length (buffer (setBuffer (buffer l ++ chunk) l))))
              (setBuffer (buffer l ++ chunk) l)) as [ps [H1 [H2 [H3 [H4 H5]]]]].
  cbn [emitted textAccum assistantId scheduled setBuffer] in H1, H2, H4, H5.
  split; [congruence|]. split; [now apply coherent_pump|].
  rewrite H5, H2. split.
  - destruct (scheduled l) eqn:S.
    + intros _ N. specialize (T eq_refl).
      destruct (textAccum l); [now elim T | discriminate].
    + cbn [orb]. destruct ps as [|p ps]; [discriminate|]. intros _ N.
      inversion H3 as [|? ? Hp _]; subst.
      destruct (textAccum l); cbn in N.
      * now apply (@joined_nonempty p ps).
      * discriminate.
  - split; [|exact E].
    eapply Forall_impl; [|exact F]. cbn. intros m G O.
    destruct (G O) as [R W]. split; [exact R|].
    destruct (scheduled l); [discriminate|]. cbn [orb].
    destruct ps as [|p ps]; [|discriminate].
    intros _. cbn. rewrite append_nil_r. now apply W.
Qed.

Lemma inStep_steps (aid : string) (evs : list Event) (s : Ui * Locals) :
  inStep aid s -> forallb underWay evs = true -> inStep aid (steps s evs).
Proof.
  revert s; induction evs as [|ev evs IH]; intros s H U; [exact H|].
  cbn in U. apply andb_prop in U. destruct U as [U1 U2].
  unfold steps; cbn [fold_left]. fold (steps (step s ev) evs).
  apply IH; [|exact U2]. destruct s as [u l].
  destruct ev; try discriminate U1.
  - now apply inStep_chunk.
  - now apply inStep_frame.
Qed.

(** X7. How a turn ends, for a turn whose id no earlier message bears.
    When the stream ends, the turn's message shows all the text received,
    and the frame that may still be pending changes nothing. When the
    transport fails, the turn's message shows, from the next frame on, the
    text received if there is any, and the error text only if none was
    received. *)
Theorem turn_outcome
  (q : string) (now1 now2 : Z) (rnd : string) (u u0 : Ui) (l0 : Locals)
  (evs : list Event) :
  ask q now1 now2 rnd u = (u0, Some l0) ->
  (forall m, In m (messages u) -> id m <> assistantId l0) ->
  forallb underWay evs = true ->
  let s := steps (u0, l0) evs in
  existsb (own (assistantId l0)) (messages (fst s)) = true /\
  Forall (fun m => own (assistantId l0) m = true ->
                   content m = textAccum (snd s))
         (messages (fst (step s Eof))) /\
  messages (fst (step (step s Eof) Frame)) = messages (fst (step s Eof)) /\
  (forall e : Error,
      Forall (fun m => own (assistantId l0) m = true ->
                       content m = if isEmpty (textAccum (snd s))
                                   then errorText e else textAccum (snd s))
             (messages (fst (step (step s (Fail e)) Frame)))).
Proof.
  intros A Fr U s.
  assert (I : inStep (assistantId l0) s).
  { apply inStep_steps; [|exact U]. eapply inStep_start; eassumption. }
  destruct s as [u1 l1].
  destruct I as [Ia [C [T [F E]]]]. cbn [fst snd] in *.
  split; [exact E|]. split; [|split].
  - cbn [step fst]. cbn [messages setLoading].
    apply Forall_commit. intros m Hin. rewrite Ia. fold (own (assistantId l0) m).
    destruct (own (assistantId l0) m) eqn:O; [reflexivity | congruence].
  - cbn [step]. unfold coherent in C.
    destruct (scheduled l1) eqn:S; rewrite C; [|reflexivity].
    cbn [runCallbacks cb fst clearPending]. unfold commit at 1.
    cbn [assistantId textAccum setMessages messages setLoading].
    unfold commit, setMessages. cbn [messages].
    rewrite map_map. apply map_ext. intros m.
    destruct (String.eqb (id m) (assistantId l1)) eqn:O; cbn; now rewrite O.
  - intros e. cbn [step]. unfold coherent in C.
    destruct (scheduled l1) eqn:S; rewrite C.
    + cbn [runCallbacks cb fst clearPending].
      apply Forall_commit. cbn [assistantId textAccum clearPending]. intros m Hin.
      rewrite Ia. fold (own (assistantId l0) m).
      destruct (own (assistantId l0) m) eqn:O; [|congruence].
      intros _. cbn [content setContent].
      specialize (T eq_refl). apply isEmpty_false in T. now rewrite T.
    + cbn [runCallbacks fst]. cbn [messages setLoading].
      apply Forall_onError. intros m Hin.
      rewrite Forall_forall in F. specialize (F m Hin).
      destruct (Role_eqb (role m) assistant && isEmpty (content m)) eqn:B.
      * unfold own at 1. cbn [id setContent content]. intros O.
        destruct (F O) as [_ W]. specialize (W eq_refl).
        apply andb_prop in B. destruct B as [_ B].
        rewrite <- W, B. reflexivity.
      * intros O. destruct (F O) as [R W]. specialize (W eq_refl).
        rewrite R in B. cbn in B. rewrite <- W, B. reflexivity.
Qed.

End WithPlatform.

(** *** Instances on the reference engine *)

#[local] Existing Instance Reference.engine.

Lemma turn_under_way_blocks_questions_witness :
  let start := Chat.sendQuestion "http://127.0.0.1:8001" "openai/gpt-4o-mini"
                 "hi" 1700000000000 1700000000000 "0.4fzyo82mvyr" initial in
  let l0 := fresh "a_1700000000000_4fzyo8" in
  let evs := [ Chunk (Reference.contentFrame "ab" ++ str LF); Frame ] in
  start = (fst start, Some l0) /\
  forallb underWay evs = true /\
  loading (fst (steps (fst start, l0) evs)) = true /\
  Chat.sendQuestion "http://127.0.0.1:8001" "openai/gpt-4o-mini"
    "again" 1700000000001 1700000000001 "0.5" (fst (steps (fst start, l0) evs))
  = (fst (steps (fst start, l0) evs), None).
Proof.
  intros start l0 evs.
  assert (H : start = (fst start, Some l0)) by reflexivity.
  assert (U : forallb underWay evs = true) by reflexivity.
  split; [exact H|]. split; [exact U|].
  destruct (@turn_under_way_blocks_questions Reference.engine
              "http://127.0.0.1:8001" "openai/gpt-4o-mini"
              "hi" 1700000000000 1700000000000 "0.4fzyo82mvyr" initial
              (fst start) l0 evs H U) as [L [B _]].
  split; [exact L|]. apply B.
Defined.

Lemma turn_outcome_witness :
  let start := Chat.sendQuestion "http://127.0.0.1:8001" "openai/gpt-4o-mini"
                 "hi" 1700000000000 1700000000000 "0.4fzyo82mvyr" initial in
  let l0 := fresh "a_1700000000000_4fzyo8" in
  let evs := [ Chunk (Reference.contentFrame "ab" ++ str LF); Frame ] in
  let s := steps (fst start, l0) evs in
  start = (fst start, Some l0) /\
  (forall m, In m (messages initial) -> id m <> assistantId l0) /\
  forallb underWay evs = true /\
  Forall (fun m => own (assistantId l0) m = true ->
                   content m = textAccum (snd s))
         (messages (fst (step s Eof))).
Proof.
  intros start l0 evs s.
  assert (H : start = (fst start, Some l0)) by reflexivity.
  assert (N : forall m, In m (messages initial) -> id m <> assistantId l0).
  { simpl. intros m [<-|[]]. discriminate. }
  assert (U : forallb underWay evs = true) by reflexivity.
  split; [exact H|]. split; [exact N|]. split; [exact U|].
  exact (proj1 (proj2 (@turn_outcome Reference.engine
                         "http://127.0.0.1:8001" "openai/gpt-4o-mini"
                         "hi" 1700000000000 1700000000000 "0.4fzyo82mvyr" initial
                         (fst start) l0 evs H N U))).
Defined.

End TurnSpec.

(** ** The normalizers on well-formed and on malformed documents *)

Module NormalizerSpec.

Import Js JsFacts Value Dashboard.

Section WithPlatform.
Context {P : Platform}.

(** [xs.map] with a callback that does not throw. *)
Lemma mapi_Ok {A B : Type} (g : A -> nat -> B) (xs : list A) (k : nat) :
  mapi (fun x i => Ok (g x i)) xs k =
  Ok (List.map (fun p => g (fst p) (snd p)) (combine xs (seq k (List.length xs)))).
Proof.
  revert k; induction xs as [|x xs IH]; intros k; [reflexivity|].
  cbn [mapi bind List.length seq combine List.map fst snd].
  now rewrite IH.
Qed.


Lemma mapi_nth {A B : Type} (f : A -> nat -> result B) (xs : list A) (k : nat)
  (ys : list B) (i : nat) (x : A) :
  mapi f xs k = Ok ys -> nth_error xs i = Some x ->
  exists y, nth_error ys i = Some y /\ f x (k + i)%nat = Ok y.
Proof.
  revert k ys i; induction xs as [|a xs IH]; intros k ys i; cbn [mapi].
  - intros _ H. destruct i; discriminate H.
  - destruct (f a k) as [y|e] eqn:Fa; cbn [bind]; [|discriminate].
    destruct (mapi f xs (S k)) as [ys'|e] eqn:E; cbn [bind]; [|discriminate].
    intros H. injection H as <-. destruct i as [|i]; cbn [nth_error].
    + intros H. injection H as <-. exists y. rewrite Nat.add_0_r. now split.
    + intros H. destruct (IH _ _ _ E H) as [y' [N F]].
      exists y'. split; [exact N|]. now rewrite Nat.add_succ_r.
Qed.

(** X8. On a document without error marker whose [labels] is an array (or
    absent), the category normalizer does not throw and returns one datum
    per label, in the order of the labels and under their names; the value
    at a position is [Number(data[i] || 0)], which is zero wherever the
    data of the first dataset is shorter than the labels or missing. *)
Theorem category_one_datum_per_label (json : any) (labels : list any) :
  truthy json = true ->
  truthy (prop json "error") = false ->
  orElse (prop json "labels") (VArr []) = VArr labels ->
  exists series,
    parseCategoryChart json = Ok series /\
    List.map datumName series = labels /\
    (forall i d, nth_error series i = Some d ->
       value d = numberOr0
                   (index (orElse (optProp (optIndex (prop json "datasets") 0) "data")
                                  (VArr [])) i)) /\
    (forall i d data,
       nth_error series i = Some d ->
       orElse (optProp (optIndex (prop json "datasets") 0) "data") (VArr [])
         = VArr data ->
       (List.length data <= i)%nat -> value d = Int 0).
Proof.
  intros T E L. unfold parseCategoryChart. rewrite T, E, L.
  cbn [negb orb elements bind].
  set (D := orElse (optProp (optIndex (prop json "datasets") 0) "data") (VArr [])).
  rewrite (mapi_Ok (fun name i => {| datumName := name; value := numberOr0 (index D i) |})).
  eexists. split; [reflexivity|].
  assert (V : forall (xs : list any) k i d,
             nth_error
               (List.map (fun p => {| datumName := fst p;
                                      value := numberOr0 (index D (snd p)) |})
                         (combine xs (seq k (List.length xs)))) i = Some d ->
             value d = numberOr0 (index D (k + i))).
  { induction xs as [|x xs IH]; intros k i d; cbn.
    - destruct i; discriminate.
    - destruct i as [|i]; cbn.
      + intros H. injection H as <-. cbn. now rewrite Nat.add_0_r.
      + intros H. rewrite (IH _ _ _ H). f_equal. f_equal. lia. }
  split; [|split].
  - clear L. generalize 0%nat.
    induction labels as [|x xs IH]; intros k; [reflexivity|].
    cbn. f_equal. apply IH.
  - intros i d H. exact (V _ _ _ _ H).
  - intros i d data H ED Hlen. rewrite (V _ _ _ _ H), ED. cbn [index Nat.add].
    now rewrite nth_overflow.
Qed.

(** X9. A document without error marker whose [labels] is set and is not
    an array makes each of the three sequence normalizers throw the
    [TypeError] of [labels.map]: outside the inputs they degrade on, these
    normalizers are not total. The heat matrix normalizer does not read
    [labels] and returns a matrix for the same document. *)
Theorem normalizers_throw_on_bad_labels (json : any) :
  truthy json = true ->
  truthy (prop json "error") = false ->
  truthy (prop json "labels") = true ->
  (forall items, prop json "labels" <> VArr items) ->
  parseCategoryChart json = Throw (TypeError "labels.map") /\
  parseStackedChart json = Throw (TypeError "labels.map") /\
  parseMonthlyTrends json = Throw (TypeError "labels.map") /\
  title (parseHeatmap json)
  = match prop json "title" with VStr t => Some t | _ => None end.
Proof.
  intros T E L N.
  unfold parseCategoryChart, parseStackedChart, parseMonthlyTrends, orElse,
    parseHeatmap.
  rewrite T, E, L. cbn [negb orb].
  split; [|split; [|split]].
  - destruct (prop json "labels") as [| | | | |items|]; try reflexivity.
    now elim (N items).
  - destruct (prop json "labels") as [| | | | |items|]; try reflexivity.
    now elim (N items).
  - destruct (prop json "labels") as [| | | | |items|]; try reflexivity.
    now elim (N items).
  - destruct (negb _ || negb _); [|reflexivity].
    match goal with |- context [List.concat ?v] => now destruct (List.concat v) end.
Qed.

(** *** Trends and categories *)

Lemma index_orElse (d : any) (i : nat) :
  index (orElse d (VArr [])) i = optIndex d i.
Proof.
  unfold orElse, optIndex.
  destruct d as [| |b|n|s|items|fields]; cbn;
    try reflexivity; try (now destruct i).
  - destruct b; cbn; [reflexivity | now destruct i].
  - destruct (numberTruthy n); cbn; [reflexivity | now destruct i].
  - destruct s; cbn; [now destruct i | reflexivity].
Qed.

Lemma add_0_l (x : number) : add (Int 0) x = x.
Proof. now destruct x. Qed.

(** X10. With exactly one dataset, the trend normalizer and the category
    normalizer agree: whenever the category normalizer returns a series,
    the trend normalizer returns one of the same length with the same
    values, under the labels turned into strings. *)
Theorem trend_of_one_dataset_is_category (json ds : any) (series : list SimpleDatum) :
  truthy json = true ->
  truthy (prop json "error") = false ->
  prop json "datasets" = VArr [ds] ->
  nullish ds = false ->
  parseCategoryChart json = Ok series ->
  exists trend,
    parseMonthlyTrends json = Ok trend /\
    List.map trendValue trend = List.map value series /\
    List.map month trend = List.map (fun d => toString (datumName d)) series.
Proof.
  intros T E D N. unfold parseCategoryChart, parseMonthlyTrends.
  rewrite T, E, D. cbn [negb orb].
  assert (O : orElse (VArr [ds]) (VArr []) = VArr [ds]) by reflexivity.
  rewrite O. cbn [optIndex nullish index nth].
  unfold optProp. rewrite N.
  destruct (elements "labels.map" (orElse (prop json "labels") (VArr [])))
    as [items|e]; cbn [bind]; [|discriminate].
  match goal with
  | |- mapi ?fc _ _ = _ -> exists t, mapi ?ft _ _ = _ /\ _ =>
      set (Fc := fc); set (Ft := ft)
  end.
  generalize 0%nat. revert series.
  induction items as [|x xs IH]; intros series k; cbn [mapi].
  - cbn [bind]. intros H. injection H as <-. now exists [].
  - unfold Fc at 1. cbn [bind].
    destruct (mapi Fc xs (S k)) as [rest|e] eqn:R; cbn [bind]; [|discriminate].
    intros H. injection H as <-.
    destruct (IH _ _ R) as [trend [H1 [H2 H3]]].
    rewrite H1. unfold Ft at 1. cbn [elements bind foldM].
    unfold read. rewrite N. cbn [bind].
    eexists. split; [reflexivity|].
    cbn [List.map trendValue month value datumName].
    rewrite H2, H3, add_0_l, index_orElse. now split.
Qed.

(** *** The rows of a stacked chart *)









(** *** The bounds of a heat matrix *)

Lemma fold_min_spec (xs : list Z) (x : Z) :
  In (fold_left Z.min xs x) (x :: xs) /\
  forall z, In z (x :: xs) -> fold_left Z.min xs x <= z.
Proof.
  revert x; induction xs as [|y xs IH]; intros x; cbn [fold_left].
  - split; [now left|]. intros z [<-|[]]. lia.
  - destruct (IH (Z.min x y)) as [I L]. split.
    + destruct I as [I|I]; [|right; now right].
      rewrite <- I. destruct (Z.min_spec x y) as [[_ ->]|[_ ->]];
        [now left | right; now left].
    + intros z [<-|[<-|Hz]].
      * specialize (L (Z.min x y) (or_introl eq_refl)). lia.
      * specialize (L (Z.min x y) (or_introl eq_refl)). lia.
      * apply L. now right.
Qed.

Lemma fold_max_spec (xs : list Z) (x : Z) :
  In (fold_left Z.max xs x) (x :: xs) /\
  forall z, In z (x :: xs) -> z <= fold_left Z.max xs x.
Proof.
  revert x; induction xs as [|y xs IH]; intros x; cbn [fold_left].
  - split; [now left|]. intros z [<-|[]]. lia.
  - destruct (IH (Z.max x y)) as [I L]. split.
    + destruct I as [I|I]; [|right; now right].
      rewrite <- I. destruct (Z.max_spec x y) as [[_ ->]|[_ ->]];
        [right; now left | now left].
    + intros z [<-|[<-|Hz]].
      * specialize (L (Z.max x y) (or_introl eq_refl)). lia.
      * specialize (L (Z.max x y) (or_introl eq_refl)). lia.
      * apply L. now right.
Qed.

(** X12. When the source supplies neither [min] nor [max] and the cells
    are integers, the [min] and [max] of the heat matrix are cells of the
    matrix and bound every cell, so the colour scale of the heat map spans
    exactly the data. *)
Theorem heat_bounds_span_the_cells (json : any) (cells : list Z) :
  truthy json = true ->
  truthy (prop json "error") = false ->
  prop json "min" = VUndefined ->
  prop json "max" = VUndefined ->
  List.concat (values (parseHeatmap json)) = List.map Int cells ->
  cells <> [] ->
  exists lo hi,
    min (parseHeatmap json) = Int lo /\ max (parseHeatmap json) = Int hi /\
    In lo cells /\ In hi cells /\
    forall z, In z cells -> lo <= z <= hi.
Proof.
  intros T E Hlo Hhi V N.
  pose proof (@DashboardSpec.parseHeatmap_absent P json T E Hlo Hhi) as A.
  rewrite V in A. destruct cells as [|c cells]; [now elim N|].
  cbn [List.map] in A. destruct A as [A1 A2].
  rewrite DashboardSpec.mathMin_Int in A1. rewrite DashboardSpec.mathMax_Int in A2.
  destruct (fold_min_spec cells c) as [I1 L1].
  destruct (fold_max_spec cells c) as [I2 L2].
  exists (fold_left Z.min cells c), (fold_left Z.max cells c).
  repeat split; trivial; [now apply L1 | now apply L2].
Qed.

End WithPlatform.

(** *** Instances on the reference engine *)

#[local] Existing Instance Reference.engine.

Lemma category_one_datum_per_label_witness :
  truthy countPayload = true /\
  truthy (prop countPayload "error") = false /\
  orElse (prop countPayload "labels") (VArr []) = VArr [VStr "Incidents"] /\
  exists series,
    parseCategoryChart countPayload = Ok series /\
    List.map datumName series = [VStr "Incidents"].
Proof.
  assert (H1 : truthy countPayload = true) by reflexivity.
  assert (H2 : truthy (prop countPayload "error") = false) by reflexivity.
  assert (H3 : orElse (prop countPayload "labels") (VArr []) = VArr [VStr "Incidents"])
    by reflexivity.
  split; [exact H1|]. split; [exact H2|]. split; [exact H3|].
  destruct (@category_one_datum_per_label Reference.engine
              countPayload [VStr "Incidents"] H1 H2 H3) as [series [A [B _]]].
  exists series. split; [exact A | exact B].
Defined.

Lemma normalizers_throw_on_bad_labels_witness :
  let json := VObj [("labels", VStr "oops")] in
  truthy json = true /\
  truthy (prop json "error") = false /\
  truthy (prop json "labels") = true /\
  (forall items, prop json "labels" <> VArr items) /\
  parseCategoryChart json = Throw (TypeError "labels.map").
Proof.
  intros json.
  assert (H1 : truthy json = true) by reflexivity.
  assert (H2 : truthy (prop json "error") = false) by reflexivity.
  assert (H3 : truthy (prop json "labels") = true) by reflexivity.
  assert (H4 : forall items, prop json "labels" <> VArr items)
    by (intros items; simpl; discriminate).
  split; [exact H1|]. split; [exact H2|]. split; [exact H3|]. split; [exact H4|].
  exact (proj1 (@normalizers_throw_on_bad_labels Reference.engine json H1 H2 H3 H4)).
Defined.

Lemma trend_of_one_dataset_is_category_witness :
  let ds := VObj [("label", VStr "Count"); ("data", VArr [VNum (Int 42)])] in
  let series := [ {| datumName := VStr "Incidents"; value := Int 42 |} ] in
  truthy countPayload = true /\
  truthy (prop countPayload "error") = false /\
  prop countPayload "datasets" = VArr [ds] /\
  nullish ds = false /\
  parseCategoryChart countPayload = Ok series /\
  exists trend,
    parseMonthlyTrends countPayload = Ok trend /\
    List.map trendValue trend = [Int 42] /\
    List.map month trend = ["Incidents"].
Proof.
  intros ds series.
  assert (H1 : truthy countPayload = true) by reflexivity.
  assert (H2 : truthy (prop countPayload "error") = false) by reflexivity.
  assert (H3 : prop countPayload "datasets" = VArr [ds]) by reflexivity.
  assert (H4 : nullish ds = false) by reflexivity.
  assert (H5 : parseCategoryChart countPayload = Ok series) by reflexivity.
  split; [exact H1|]. split; [exact H2|]. split; [exact H3|]. split; [exact H4|].
  split; [exact H5|].
  exact (@trend_of_one_dataset_is_category Reference.engine
           countPayload ds series H1 H2 H3 H4 H5).
Defined.


Lemma heat_bounds_span_the_cells_witness :
  let json := VObj [("values", VArr [ VArr [VNum (Int 3); VNum (Int 7)];
                                      VArr [VNum (Int 5)] ])] in
  truthy json = true /\
  truthy (prop json "error") = false /\
  prop json "min" = VUndefined /\
  prop json "max" = VUndefined /\
  List.concat (values (parseHeatmap json)) = List.map Int [3; 7; 5] /\
  [3; 7; 5] <> [] /\
  exists lo hi,
    min (parseHeatmap json) = Int lo /\ max (parseHeatmap json) = Int hi /\
    In lo [3; 7; 5] /\ In hi [3; 7; 5] /\
    forall z, In z [3; 7; 5] -> lo <= z <= hi.
Proof.
  intros json.
  assert (H1 : truthy json = true) by reflexivity.
  assert (H2 : truthy (prop json "error") = false) by reflexivity.
  assert (H3 : prop json "min" = VUndefined) by reflexivity.
  assert (H4 : prop json "max" = VUndefined) by reflexivity.
  assert (H5 : List.concat (values (parseHeatmap json)) = List.map Int [3; 7; 5])
    by reflexivity.
  assert (H6 : [3; 7; 5] <> []) by discriminate.
  split; [exact H1|]. split; [exact H2|]. split; [exact H3|]. split; [exact H4|].
  split; [exact H5|]. split; [exact H6|].
  exact (@heat_bounds_span_the_cells Reference.engine json [3; 7; 5]
           H1 H2 H3 H4 H5 H6).
Defined.

End NormalizerSpec.

(** ** The indicators and the outcome of a cycle *)

Module CycleSpec.

Import Js JsFacts Value Dashboard Kpi DashboardSpec.

Section WithPlatform.
Context {P : Platform}.





(** *** A cycle that fails while it parses *)

Lemma bad_labels_throw (json : any) :
  truthy json = true ->
  truthy (prop json "error") = false ->
  truthy (prop json "labels") = true ->
  (forall items, prop json "labels" <> VArr items) ->
  parseCategoryChart json = Throw (TypeError "labels.map") /\
  parseStackedChart json = Throw (TypeError "labels.map") /\
  parseMonthlyTrends json = Throw (TypeError "labels.map").
Proof.
  intros T E L N.
  unfold parseCategoryChart, parseStackedChart, parseMonthlyTrends, orElse.
  rewrite T, E, L. cbn [negb orb].
  destruct (prop json "labels") as [| | | | |items|]; try (now repeat split).
  now elim (N items).
Qed.

Lemma try_bad_labels (ps : list Settled) (js : list any) (now : Z) (st : State)
  (k : nat) :
  Promise_all ps = Ok js ->
  (k < 17)%nat -> k <> 8%nat -> k <> 15%nat ->
  truthy (nth k js VUndefined) = true ->
  truthy (prop (nth k js VUndefined) "error") = false ->
  truthy (prop (nth k js VUndefined) "labels") = true ->
  (forall items, prop (nth k js VUndefined) "labels" <> VArr items) ->
  exists e, refreshAll_try ps now st = (st, Throw e).
Proof.
  intros A K K8 K15 T E L N.
  destruct (bad_labels_throw _ T E L N) as [Hc [Hs Ht]].
  unfold refreshAll_try. rewrite A. cbv zeta.
  do 17 (destruct k as [|k];
         [ try lia;
           rewrite ?Hc, ?Hs, ?Ht;
           repeat match goal with
                  | |- context [bind (Throw ?e) _] => cbn [bind]
                  | |- context [bind ?c _] =>
                      destruct c; cbn [bind]; [|eexists; reflexivity]
                  end;
           eexists; reflexivity
         | ]).
  lia.
Qed.

(** X14. One malformed payload fails the whole cycle. When all requests
    are fulfilled and one of the fifteen documents read by a sequence
    normalizer has a [labels] member that is set and is not an array, the
    cycle commits no data at all: every slot keeps its data and gets
    [loading = false] and the message of the error thrown, and the time of
    the last update stays as it was. *)
Theorem malformed_payload_fails_the_cycle
  (ps : list Settled) (js : list any) (now : Z) (st : State) (k : nat) :
  Promise_all ps = Ok js ->
  (k < 17)%nat -> k <> 8%nat -> k <> 15%nat ->
  truthy (nth k js VUndefined) = true ->
  truthy (prop (nth k js VUndefined) "error") = false ->
  truthy (prop (nth k js VUndefined) "labels") = true ->
  (forall items, prop (nth k js VUndefined) "labels" <> VArr items) ->
  exists e,
    snd (refreshAll_try ps now st) = Throw e /\
    (forall x, slots (refreshAll_settle ps now st) x
               = {| loading := false; error := Some (failureMessage e);
                    data := data (slots st x) |}) /\
    lastUpdated (refreshAll_settle ps now st) = lastUpdated st.
Proof.
  intros A K K8 K15 T E L N.
  destruct (@try_bad_labels ps js now st k A K K8 K15 T E L N) as [e R].
  exists e. unfold refreshAll_settle. rewrite R. cbn [snd].
  split; [reflexivity|]. split; [|reflexivity].
  intros x. now rewrite refreshAll_catch_slots.
Qed.

(** *** What a cycle commits *)

Lemma committed_data (st st0 : State) (x : Slot)
  (byCat types byLoc propLoc incTypes incTopLoc hazLoc hazRisk hazArea : list SimpleDatum)
  (trends hazMonthly : list TrendDatum)
  (stackedLoc typesLoc statusLoc hazVsInc : list GroupDatum)
  (heat hazHeat : HeatMatrix) :
  let commit :=
    run [ set entriesByCategory (loaded (Simple byCat));
          set incidentHazardTypes (loaded (Simple types));
          set monthlyTrends (loaded (Trend trends));
          set entriesByLocation (loaded (Simple byLoc));
          set stackedEntriesByLocation (loaded (Group stackedLoc));
          set typesByLocation (loaded (Group typesLoc));
          set proportionByLocation (loaded (Simple propLoc));
          set statusByLocation (loaded (Group statusLoc));
          set heatmap (loaded (Heat heat));
          set incidentsTypes (loaded (Simple incTypes));
          set incidentsTopLocations (loaded (Simple incTopLoc));
          set hazardsMonthly (loaded (Trend hazMonthly));
          set hazardsByLocation (loaded (Simple hazLoc));
          set hazardsByRisk (loaded (Simple hazRisk));
          set hazardsByArea (loaded (Simple hazArea));
          set hazardsHeatmap (loaded (Heat hazHeat));
          set hazVsIncByDept (loaded (Group hazVsInc)) ] in
  x <> kpis ->
  data (slots (commit st) x) <> None /\
  slots (commit st0) x = slots (commit st) x /\
  toasts (commit st) = toasts st /\ lastUpdated (commit st) = lastUpdated st.
Proof.
  intros commit N. subst commit.
  destruct x; try (now elim N); cbn; repeat split; discriminate.
Qed.

(** X15. The chart data of a cycle is committed as a whole or not at all.
    Whatever the requests return and whatever the state before, a settled
    cycle has either left the data of every slot as it was, or given data
    to each of the seventeen chart slots, and then data that depends on the
    payloads alone. The second case includes a failure: when a label of the
    category series is a number, the cycle fails after it has committed, and
    the chart slots hold the new data together with the error, while the
    indicators keep what they had. *)
Theorem chart_data_is_committed_as_a_whole :
  (forall (ps : list Settled) (now : Z) (st : State),
      (forall x, data (slots (refreshAll_settle ps now st) x) = data (slots st x)) \/
      (forall x, x <> kpis ->
         data (slots (refreshAll_settle ps now st) x) <> None /\
         forall st0, data (slots (refreshAll_settle ps now st0) x)
                     = data (slots (refreshAll_settle ps now st) x))) /\
  (let st := refreshAll_settle (respond true 200 numericLabel) 0 initial in
   Forall (fun x => isSet (data (slots st x)) = negb (if Slot_eq_dec x kpis then true else false) /\
                    error (slots st x)
                    = Some (failureMessage (TypeError "d.name?.toLowerCase")))
          allSlots /\
   lastUpdated st = None).
Proof.
  split.
  - intros ps now st.
    assert (C : forall e s x, data (slots (refreshAll_catch e s) x) = data (slots s x))
      by (intros e s x; now rewrite refreshAll_catch_slots).
    unfold refreshAll_settle, refreshAll_try.
    destruct (Promise_all ps) as [js|e]; [|left; intros x; apply C].
    repeat match goal with
           | |- context [bind ?c _] =>
               destruct c; cbn [bind]; [|left; intros x; apply C]
           end.
    right. intros x N.
    destruct (composeKpis _) as [kpiData|e].
    + split.
      * match goal with
        | |- context [run [set kpis ?f; setLastUpdated now] ?s] =>
            assert (E : slots (run [set kpis f; setLastUpdated now] s) x = slots s x)
              by (destruct x; try (now elim N); reflexivity)
        end.
        rewrite E. now apply committed_data.
      * intros st0.
        destruct x; try (now elim N); reflexivity.
    + split.
      * rewrite C. now apply committed_data.
      * intros st0. rewrite !C.
        destruct x; try (now elim N); reflexivity.
  - cbv zeta. split; [repeat constructor | reflexivity].
Qed.

(** X16. A failed cycle tells the user once, a successful cycle records
    its time. After a cycle whose [try] block completed, the notifications
    are as before and the time of the last update is the time of this
    cycle; after one that threw, exactly one notification was added, titled
    [Error loading data] and carrying the message the slots carry, and the
    time of the last update is as before. Marking the slots as loading
    touches neither. *)
Theorem cycle_notifies_once_or_records_time
  (ps : list Settled) (now : Z) (st : State) :
  toasts (refreshAll_begin st) = toasts st /\
  lastUpdated (refreshAll_begin st) = lastUpdated st /\
  match snd (refreshAll_try ps now st) with
  | Ok _ =>
      toasts (refreshAll_settle ps now st) = toasts st /\
      lastUpdated (refreshAll_settle ps now st) = Some now
  | Throw e =>
      toasts (refreshAll_settle ps now st)
      = (toasts st ++ [ {| toastTitle := "Error loading data";
                           description := failureMessage e |} ])%list /\
      lastUpdated (refreshAll_settle ps now st) = lastUpdated st
  end.
Proof.
  split; [reflexivity|]. split; [reflexivity|].
  unfold refreshAll_settle, refreshAll_try.
  destruct (Promise_all ps) as [js|e]; [|now split].
  repeat match goal with
         | |- context [bind ?c _] =>
             destruct c; cbn [bind]; [|now split]
         end.
  destruct (composeKpis _) as [kpiData|e]; cbn [snd]; now split.
Qed.

(** X17. What an HTTP error shows. For a response that is not [ok],
    [fetchJSON] rejects without reading the JSON body, with the text of the
    body as message, or with [Request failed: <status>] when the body is
    empty or cannot be read; the message is never empty, so the slots show
    it as it is and never the generic [Failed to load charts]. *)
Theorem http_error_message_is_the_body
  (status : Z) (text : option string) (json : result any) :
  exists e,
    fetchJSON (Response false status text json) = Throw e /\
    message e <> EmptyString /\
    failureMessage e = message e /\
    (forall t, text = Some t -> t <> EmptyString -> message e = t) /\
    (text = None \/ text = Some EmptyString ->
     message e = "Request failed: " ++ decimal status).
Proof.
  eexists. split; [reflexivity|]. cbn [message].
  assert (M : (if isEmpty (match text with Some t => t | None => EmptyString end)
               then "Request failed: " ++ decimal status
               else match text with Some t => t | None => EmptyString end)
              <> EmptyString).
  { destruct text as [[|c t]|]; discriminate. }
  split; [exact M|]. split; [|split].
  - unfold failureMessage. cbn [message].
    apply isEmpty_false in M. now rewrite M.
  - intros t -> N. destruct t; [now elim N | reflexivity].
  - intros [->| ->]; reflexivity.
Qed.

End WithPlatform.

(** *** Instances on the reference engine *)

#[local] Existing Instance Reference.engine.


Lemma malformed_payload_fails_the_cycle_witness :
  let bad := VObj [("labels", VStr "oops")] in
  let ps := respond true 200 bad in
  let js := repeat bad 17 in
  Promise_all ps = Ok js /\
  (0 < 17)%nat /\ 0%nat <> 8%nat /\ 0%nat <> 15%nat /\
  truthy (nth 0 js VUndefined) = true /\
  truthy (prop (nth 0 js VUndefined) "error") = false /\
  truthy (prop (nth 0 js VUndefined) "labels") = true /\
  (forall items, prop (nth 0 js VUndefined) "labels" <> VArr items) /\
  exists e,
    snd (refreshAll_try ps 0 initial) = Throw e /\
    (forall x, slots (refreshAll_settle ps 0 initial) x
               = {| loading := false; error := Some (failureMessage e);
                    data := data (slots initial x) |}) /\
    lastUpdated (refreshAll_settle ps 0 initial) = lastUpdated initial.
Proof.
  intros bad ps js.
  assert (H1 : Promise_all ps = Ok js) by reflexivity.
  assert (H2 : (0 < 17)%nat) by lia.
  assert (H3 : 0%nat <> 8%nat) by lia.
  assert (H4 : 0%nat <> 15%nat) by lia.
  assert (H5 : truthy (nth 0 js VUndefined) = true) by reflexivity.
  assert (H6 : truthy (prop (nth 0 js VUndefined) "error") = false) by reflexivity.
  assert (H7 : truthy (prop (nth 0 js VUndefined) "labels") = true) by reflexivity.
  assert (H8 : forall items, prop (nth 0 js VUndefined) "labels" <> VArr items)
    by (intros items; simpl; discriminate).
  repeat (split; [assumption|]).
  exact (@malformed_payload_fails_the_cycle Reference.engine ps js 0 initial 0%nat
           H1 H2 H3 H4 H5 H6 H7 H8).
Defined.

End CycleSpec.

(** ** The insights of a chart card, from the request to the view *)

Module InsightsViewSpec.

Import Js JsFacts Insights InsightsView.

Lemma drop_app_le (j : nat) (a b : string) :
  (j <= String.length a)%nat -> drop j (a ++ b) = drop j a ++ b.
Proof.
  revert a; induction j as [|j IH]; intros a H.
  - now destruct a.
  - destruct a as [|c a]; simpl in *; [lia|]. apply IH. lia.
Qed.

Lemma drop_app_ge (j : nat) (a b : string) :
  (String.length a <= j)%nat -> drop j (a ++ b) = drop (j - String.length a) b.
Proof.
  revert j; induction a as [|c a IH]; intros j H.
  - simpl. now rewrite Nat.sub_0_r.
  - destruct j as [|j]; simpl in *; [lia|]. apply IH. lia.
Qed.

Lemma take_app_le (k : nat) (a b : string) :
  (k <= String.length a)%nat -> take k (a ++ b) = take k a.
Proof.
  revert a; induction k as [|k IH]; intros a H.
  - reflexivity.
  - destruct a as [|c a]; simpl in *; [lia|]. f_equal. apply IH. lia.
Qed.

Lemma length_drop (j : nat) (s : string) :
  String.length (drop j s) = (String.length s - j)%nat.
Proof.
  revert s; induction j as [|j IH]; intros s.
  - simpl. lia.
  - destruct s as [|c s]; simpl; [reflexivity | apply IH].
Qed.

Lemma prefix_app (p a b : string) :
  String.prefix p a = true -> String.prefix p (a ++ b) = true.
Proof.
  revert a; induction p as [|c p IH]; intros a H; [now destruct (a ++ b)|].
  destruct a as [|d a]; simpl in *; [discriminate|].
  destruct (ascii_dec c d); [now apply IH | discriminate].
Qed.

Lemma prefix_app_long (p r x : string) :
  String.prefix p (r ++ x) = true ->
  (String.length p <= String.length r)%nat ->
  String.prefix p r = true.
Proof.
  revert r; induction p as [|c p IH]; intros r H L; [now destruct r|].
  destruct r as [|d r]; simpl in *; [lia|].
  destruct (ascii_dec c d); [apply IH; [exact H | lia] | discriminate].
Qed.

(** A pattern that lies across the seam of [r ++ c :: x] holds [c]. *)
Lemma prefix_straddle (p r x : string) (c : ascii) :
  String.prefix p (r ++ String c x) = true ->
  (String.length r < String.length p)%nat ->
  contains p c = true.
Proof.
  revert r; induction p as [|d p IH]; intros r H L; [simpl in L; lia|].
  destruct r as [|e r]; simpl in H.
  - destruct (ascii_dec d c) as [->|]; [|discriminate].
    simpl. now rewrite Ascii.eqb_refl.
  - destruct (ascii_dec d e); [|discriminate].
    simpl. rewrite (IH r H); [apply orb_true_r | simpl in L; lia].
Qed.

(** The marker occurs nowhere in the fixed part of an annotation. *)
Lemma no_META_in_label (m : string) (i : nat) :
  (i < 17)%nat ->
  String.prefix META (drop i ("[insights error] " ++ m)) = false.
Proof.
  intros H.
  do 17 (destruct i as [|i]; [reflexivity|]). lia.
Qed.

(** The occurrences of the marker in a text with an annotation after it
    are those in the text, when the message holds none. *)
Lemma occursAt_annotated (text : string) (e : Error) (j : nat) :
  (forall i, ~ occursAt (shownMessage e) META i) ->
  occursAt (text ++ annotation e) META j <-> occursAt text META j.
Proof.
  intros M. unfold occursAt. split.
  - intros [L Hp].
    destruct (Nat.le_gt_cases j (String.length text)) as [Hj|Hj].
    + split; [exact Hj|].
      rewrite drop_app_le in Hp by exact Hj.
      destruct (Nat.le_gt_cases (String.length META) (String.length (drop j text)))
        as [Hl|Hl].
      * now apply prefix_app_long with (x := annotation e).
      * apply prefix_straddle in Hp; [discriminate Hp | exact Hl].
    + exfalso.
      rewrite drop_app_ge in Hp by lia.
      remember (j - String.length text)%nat as k eqn:Hk.
      destruct k as [|k]; [lia|].
      change (annotation e) with (String LF ("[insights error] " ++ shownMessage e)) in Hp, L.
      cbn [drop] in Hp.
      destruct (Nat.lt_ge_cases k 17) as [Hs|Hs].
      * rewrite no_META_in_label in Hp by exact Hs. discriminate Hp.
      * rewrite (@drop_app_ge k "[insights error] " (shownMessage e)) in Hp
          by exact Hs.
        apply (M (k - String.length "[insights error] ")%nat). split; [|exact Hp].
        rewrite length_append in L. cbn [String.length] in L.
        rewrite length_append in L. simpl String.length in *. lia.
  - intros [L Hp]. split.
    + rewrite length_append. lia.
    + rewrite drop_app_le by exact L. now apply prefix_app.
Qed.

Lemma body_none (t : string) :
  (forall j, ~ occursAt t META j) -> body t = t.
Proof.
  intros N. unfold body, lastIndexOf.
  destruct (@lastIndexOfFrom_spec META t 0) as [[E _]|[k [_ [O _]]]]; [lia| |].
  - now rewrite E.
  - now elim (N k).
Qed.

Lemma body_last (t : string) (k : nat) :
  occursAt t META k ->
  (forall j, (k < j)%nat -> ~ occursAt t META j) ->
  body t = take k t.
Proof.
  intros O L. unfold body, lastIndexOf.
  destruct (@lastIndexOfFrom_spec META t 0) as [[_ N]|[k' [E [O' L']]]]; [lia| |].
  - now elim (N k).
  - assert (K : k' = k).
    { destruct (Nat.lt_trichotomy k k') as [H|[H|H]]; [|now symmetry|].
      - now elim (L k' H).
      - now elim (L' k H). }
    subst k'. rewrite E.
    destruct (Z.leb_spec 0 (0 + Z.of_nat k)) as [_|Hneg]; [|lia].
    rewrite Z.add_0_l. apply slice_0. exact (proj1 O).
Qed.




(** X19. An error that comes after the metadata is not shown. When the
    message of the error does not itself hold the marker [[[META]]]: if the
    text received holds the marker, the view after the error is the view
    before it, so the annotation is cut away with the metadata and the
    reader sees no trace of the failure; if the text holds no marker, the
    view is the text followed by the annotation. *)
Theorem error_after_META_is_not_shown (st : State) (e : Error) :
  (forall i, ~ occursAt (shownMessage e) META i) ->
  ((exists i, occursAt (insights st) META i) ->
   shown (step st (Fail e)) = shown st) /\
  ((forall i, ~ occursAt (insights st) META i) ->
   shown (step st (Fail e)) = insights st ++ annotation e /\
   shown st = insights st).
Proof.
  intros M. unfold shown. cbn [step insights].
  pose proof (fun j => @occursAt_annotated (insights st) e j M) as A.
  split.
  - intros [i Hi]. unfold body at 2. unfold lastIndexOf.
    destruct (@lastIndexOfFrom_spec META (insights st) 0)
      as [[_ N]|[k [E [O L]]]]; [lia| |].
    + now elim (N i).
    + rewrite E. destruct (Z.leb_spec 0 (0 + Z.of_nat k)) as [_|Hneg]; [|lia].
      rewrite Z.add_0_l, slice_0 by exact (proj1 O).
      rewrite (@body_last (insights st ++ annotation e) k).
      * apply take_app_le. exact (proj1 O).
      * now apply A.
      * intros j Hj Oj. apply A in Oj. now apply (L j).
  - intros N. split.
    + apply body_none. intros j Oj. apply A in Oj. now apply (N j).
    + now apply body_none.
Qed.

(** The stream [Summary][[META]]{...} breaks off with a network error. *)
Lemma error_after_META_is_not_shown_witness :
  let st := {| insights := "Summary[[META]]{"; loading := true; aborts := 0 |} in
  let e := mkError "TypeError" "network error" in
  (forall i, ~ occursAt (shownMessage e) META i) /\
  (exists i, occursAt (insights st) META i) /\
  shown (step st (Fail e)) = shown st.
Proof.
  intros st e.
  assert (M : forall i, ~ occursAt (shownMessage e) META i).
  { intros i [L H]. simpl in L.
    do 14 (destruct i as [|i]; [discriminate H|]). lia. }
  assert (O : exists i, occursAt (insights st) META i).
  { exists 7%nat. split; [simpl; lia | reflexivity]. }
  split; [exact M|]. split; [exact O|].
  exact (proj1 (@error_after_META_is_not_shown st e M) O).
Defined.

End InsightsViewSpec.

(** ** Uploading a workbook *)

Module UploadSpec.

Import Js JsFacts Value Dashboard Upload.

Lemma endsWith_spec (s suffix : string) :
  endsWith s suffix = true <-> exists stem, s = stem ++ suffix.
Proof.
  unfold endsWith. split.
  - intros H. apply andb_prop in H. destruct H as [_ E].
    apply String.eqb_eq in E.
    set (n := (String.length s - String.length suffix)%nat) in *.
    exists (take n s).
    transitivity (take n s ++ drop n s); [symmetry; apply take_drop | now rewrite E].
  - intros [stem ->]. rewrite length_append.
    apply andb_true_intro. split.
    + apply Nat.leb_le. lia.
    + replace (String.length stem + String.length suffix - String.length suffix)%nat
        with (String.length stem) by lia.
      rewrite InsightsViewSpec.drop_app_ge by lia.
      rewrite Nat.sub_diag. apply String.eqb_refl.
Qed.

Section WithPlatform.
Context {P : Platform}.

(** X20. Only an Excel name reaches the server. [onFiles] looks at the
    first file alone. It posts that file exactly when its name, in lower
    case, is some stem followed by [.xlsx] or [.xls]; with no file it does
    nothing at all, and with another name it posts nothing, leaves the
    charts, the time of the last update and both flags as they are, and
    adds the one notification [Invalid file type]. *)
Theorem upload_checks_the_name_first
  (files : option (list File)) (resp : Fetched) (ps : list Settled) (now : Z)
  (pg : Page) :
  (files = None \/ files = Some [] -> onFiles files resp ps now pg = pg) /\
  (forall f rest, files = Some (f :: rest) ->
     onFiles files resp ps now pg = onFiles (Some [f]) resp ps now pg /\
     (accepted f = true <->
      exists stem, toLowerCase (fileName f) = stem ++ ".xlsx" \/
                   toLowerCase (fileName f) = stem ++ ".xls") /\
     (accepted f = true ->
      posted (onFiles files resp ps now pg) = (posted pg ++ [fileName f])%list) /\
     (accepted f = false ->
      let pg' := onFiles files resp ps now pg in
      posted pg' = posted pg /\
      slots (charts pg') = slots (charts pg) /\
      lastUpdated (charts pg') = lastUpdated (charts pg) /\
      toasts (charts pg')
      = (toasts (charts pg) ++
         [ {| toastTitle := "Invalid file type";
              description := "Please upload an Excel file (.xlsx or .xls)." |} ])%list /\
      uploading pg' = uploading pg /\ hasUploaded pg' = hasUploaded pg /\
      successes pg' = successes pg /\ inputValue pg' = inputValue pg)).
Proof.
  split.
  - intros [->| ->]; reflexivity.
  - intros f rest ->. split; [reflexivity|]. split; [|split].
    + unfold accepted. rewrite orb_true_iff, !endsWith_spec. split.
      * intros [[stem E]|[stem E]]; exists stem; [now left | now right].
      * intros [stem [E|E]]; [left | right]; now exists stem.
    + intros A. unfold onFiles. rewrite A. cbn [negb].
      destruct (upload_try resp ps now _) as [pg1 r] eqn:U.
      unfold upload_try in U.
      destruct resp as [e|ok status text json].
      * injection U as <- <-. reflexivity.
      * destruct ok; cbn [negb] in U; injection U as <- <-; reflexivity.
    + intros A pg'. subst pg'. unfold onFiles. rewrite A. cbn [negb].
      now repeat split.
Qed.

(** X21. How an upload ends, for a file that was posted. The flag
    [uploading] is cleared and the file input emptied whatever happened.
    After an [ok] response the charts are those of one refresh cycle and
    [hasUploaded] is set, also when that cycle failed: its failure is told
    by the cycle's own notification and never as a failed upload. After any
    other outcome the charts keep their slots and [hasUploaded] its value,
    nothing is refreshed, and one notification [Upload failed] is added,
    whose text is not empty: the body of the response, [Upload failed]
    for an empty or unreadable body, and for a rejected request its message
    or [Please try again.] *)
Theorem upload_outcome
  (f : File) (rest : list File) (resp : Fetched) (ps : list Settled) (now : Z)
  (pg : Page) :
  accepted f = true ->
  let pg' := onFiles (Some (f :: rest)) resp ps now pg in
  uploading pg' = false /\
  (inputValue pg' = None \/ inputValue pg' = Some EmptyString) /\
  match resp with
  | Response true _ _ _ =>
      charts pg' = refreshAll ps now (charts pg) /\
      hasUploaded pg' = true /\
      successes pg'
      = (successes pg ++
         [ {| toastTitle := "Upload complete";
              description := "Your Excel data has been processed." |} ])%list
  | _ =>
      slots (charts pg') = slots (charts pg) /\
      lastUpdated (charts pg') = lastUpdated (charts pg) /\
      hasUploaded pg' = hasUploaded pg /\
      successes pg' = successes pg /\
      exists msg,
        msg <> EmptyString /\
        toasts (charts pg')
        = (toasts (charts pg) ++
           [ {| toastTitle := "Upload failed"; description := msg |} ])%list /\
        match resp with
        | NetworkFailure e =>
            msg = if isEmpty (message e) then "Please try again." else message e
        | Response _ _ (Some (String c t)) _ => msg = String c t
        | Response _ _ _ _ => msg = "Upload failed"
        end
  end.
Proof.
  intros A pg'. subst pg'. unfold onFiles. rewrite A. cbn [negb].
  destruct resp as [e|ok status text json].
  - cbn. split; [reflexivity|]. split; [destruct (inputValue pg); auto|].
    repeat split.
    exists (if isEmpty (message e) then "Please try again." else message e).
    split; [|split; reflexivity].
    destruct (message e); discriminate.
  - destruct ok.
    + cbn. split; [reflexivity|]. split; [destruct (inputValue pg); auto|].
      now repeat split.
    + cbn. split; [reflexivity|]. split; [destruct (inputValue pg); auto|].
      repeat split.
      destruct text as [[|c t]|]; cbn.
      * exists "Upload failed". now repeat split.
      * exists (String c t). now repeat split.
      * exists "Upload failed". now repeat split.
Qed.

(** X22. Once a dataset counts as uploaded, it stays so: neither an
    upload, whatever its outcome, nor the effect on the category data ever
    resets [hasUploaded]; and the effect sets it exactly when the category
    series holds a positive value, so a refresh that brings only zeros (or
    nothing) does not hide the upload panel. *)
Theorem hasUploaded_is_never_reset
  (files : option (list File)) (resp : Fetched) (ps : list Settled) (now : Z)
  (pg : Page) :
  (hasUploaded pg = true ->
   hasUploaded (onFiles files resp ps now pg) = true /\
   hasUploaded (dataEffect pg) = true) /\
  (hasUploaded (dataEffect pg) =
   hasUploaded pg ||
   match data (slots (charts pg) entriesByCategory) with
   | Some (Simple ds) => existsb (fun d => positive (value d)) ds
   | _ => false
   end) /\
  (forall ds,
      data (slots (charts pg) entriesByCategory) = Some (Simple ds) ->
      Forall (fun d => value d = Int 0 \/ value d = NaN) ds ->
      dataEffect pg = pg).
Proof.
  split; [|split].
  - intros H. split.
    + unfold onFiles. destruct files as [[|f rest]|]; try exact H.
      destruct (negb (accepted f)); [exact H|].
      destruct resp as [e|ok status text json]; [exact H|].
      destruct ok; [reflexivity | exact H].
    + unfold dataEffect.
      destruct (data _) as [[ds| | | |]|]; try exact H.
      destruct (existsb _ ds); [reflexivity | exact H].
  - unfold dataEffect.
    destruct (data _) as [[ds| | | |]|]; try (now rewrite orb_false_r).
    destruct (existsb _ ds); cbn; [now rewrite orb_true_r | now rewrite orb_false_r].
  - intros ds D Z0. unfold dataEffect. rewrite D.
    assert (E : existsb (fun d => positive (value d)) ds = false).
    { clear D. induction Z0 as [|d ds' Hd _ IH]; [reflexivity|].
      cbn [existsb]. rewrite IH. now destruct Hd as [-> | ->]. }
    now rewrite E.
Qed.

End WithPlatform.

#[local] Existing Instance Reference.engine.

Lemma upload_outcome_witness :
  let f := {| fileName := "Report.XLSX" |} in
  let pg := {| charts := initial; uploading := false; hasUploaded := false;
               successes := []; posted := []; inputValue := Some "Report.XLSX" |} in
  let pg' := onFiles (Some [f]) (Response true 200 (Some EmptyString) (Ok VNull))
               oneRejects 0 pg in
  accepted f = true /\
  uploading pg' = false /\
  charts pg' = refreshAll oneRejects 0 initial /\
  hasUploaded pg' = true.
Proof.
  intros f pg pg'.
  assert (A : accepted f = true) by reflexivity.
  split; [exact A|].
  pose proof (@upload_outcome Reference.engine f []
                (Response true 200 (Some EmptyString) (Ok VNull)) oneRejects 0 pg A)
    as [U [_ [C [H _]]]].
  split; [exact U|]. split; [exact C | exact H].
Defined.

End UploadSpec.

(** ** The pie of shares by location *)

Module PieSpec.

Import Value Dashboard Pie.

Lemma insert_perm (x : SimpleDatum) (l : list SimpleDatum) :
  Permutation (insert byValueDesc x l) (x :: l).
Proof.
  induction l as [|y ys IH]; cbn [insert]; [apply Permutation_refl|].
  destruct (Upload.positive _); [|apply Permutation_refl].
  apply Permutation_trans with (y :: x :: ys).
  - now apply perm_skip.
  - apply perm_swap.
Qed.

Lemma sort_perm (l : list SimpleDatum) : Permutation (sort byValueDesc l) l.
Proof.
  induction l as [|x xs IH]; [apply Permutation_refl|].
  cbn [sort fold_right]. fold (sort byValueDesc xs).
  apply Permutation_trans with (x :: sort byValueDesc xs).
  - apply insert_perm.
  - now apply perm_skip.
Qed.

Lemma insert_sorted (x : SimpleDatum) (l : list SimpleDatum) :
  integral x -> Forall integral l ->
  StronglySorted (fun a b => valueZ b <= valueZ a) l ->
  StronglySorted (fun a b => valueZ b <= valueZ a) (insert byValueDesc x l).
Proof.
  intros [zx Hx] I S. induction S as [|y ys S IH F].
  - cbn. constructor; constructor.
  - inversion I as [|? ? [zy Hy] Iys]; subst.
    cbn [insert]. unfold byValueDesc, sub. rewrite Hx, Hy.
    cbn [Upload.positive]. destruct (Z.ltb_spec 0 (zy - zx)) as [G|G].
    + constructor; [now apply IH|].
      apply (Permutation_Forall (Permutation_sym (insert_perm x ys))).
      constructor; [|exact F]. unfold valueZ. rewrite Hx, Hy. lia.
    + constructor; [now constructor|].
      constructor; [unfold valueZ; rewrite Hx, Hy; lia|].
      eapply Forall_impl; [|exact F]. intros b Hb.
      unfold valueZ in *. rewrite Hx. rewrite Hy in Hb. lia.
Qed.

Lemma sort_sorted (l : list SimpleDatum) :
  Forall integral l ->
  StronglySorted (fun a b => valueZ b <= valueZ a) (sort byValueDesc l).
Proof.
  induction 1 as [|x xs Hx Hxs IH]; [constructor|].
  cbn [sort fold_right]. fold (sort byValueDesc xs).
  apply insert_sorted; [exact Hx | | exact IH].
  apply (Permutation_Forall (Permutation_sym (sort_perm xs))). exact Hxs.
Qed.

Lemma sorted_split (n : nat) (l : list SimpleDatum) :
  StronglySorted (fun a b => valueZ b <= valueZ a) l ->
  forall a b, In a (firstn n l) -> In b (skipn n l) -> valueZ b <= valueZ a.
Proof.
  intros S. revert n. induction S as [|y ys S IH F]; intros n a b Ha Hb.
  - rewrite firstn_nil in Ha. contradiction.
  - destruct n as [|n]; [contradiction|].
    cbn [firstn skipn] in Ha, Hb. destruct Ha as [<-|Ha].
    + rewrite Forall_forall in F. apply F.
      rewrite <- (firstn_skipn n ys). apply in_or_app. now right.
    + now apply (IH n).
Qed.

Lemma sumZ_app (a b : list SimpleDatum) : sumZ (a ++ b) = sumZ a + sumZ b.
Proof.
  induction a as [|x a IH]; cbn [app sumZ fold_right]; [reflexivity|].
  fold (sumZ (a ++ b)). fold (sumZ a). lia.
Qed.

Lemma sumZ_perm (a b : list SimpleDatum) : Permutation a b -> sumZ a = sumZ b.
Proof.
  induction 1 as [|x a b _ IH|x y a|a b c _ IH1 _ IH2]; cbn [sumZ fold_right].
  - reflexivity.
  - fold (sumZ a). fold (sumZ b). lia.
  - lia.
  - congruence.
Qed.

Lemma reduce_integral (l : list SimpleDatum) (z : Z) :
  Forall integral l ->
  fold_left (fun s d => add s (value d)) l (Int z) = Int (z + sumZ l).
Proof.
  intros F. revert z. induction F as [|x xs [zx Hx] _ IH]; intros z.
  - cbn. f_equal. lia.
  - cbn [fold_left sumZ fold_right]. fold (sumZ xs). rewrite Hx. cbn [add].
    rewrite IH. f_equal. unfold valueZ. rewrite Hx. lia.
Qed.

Lemma sumZ_nonneg (l : list SimpleDatum) :
  Forall (fun d => 0 <= valueZ d) l -> 0 <= sumZ l.
Proof.
  induction 1 as [|x xs Hx _ IH]; cbn [sumZ fold_right]; [lia|].
  fold (sumZ xs). lia.
Qed.

(** X23. The pie of the fifteen largest shares. For a series whose values
    are integers, the pie shows a rearrangement of the series split after
    its fifteenth entry, in which no entry that is left out is larger than
    one that is shown; [Others] is added exactly when the values left out
    add up to more than zero, and then carries that sum. So the pie has at
    most sixteen slices, a series of at most fifteen entries is shown whole,
    and where no value is negative the slices add up to the total of the
    series. *)
Theorem pie_keeps_the_largest_and_the_total (data : list SimpleDatum) :
  Forall integral data ->
  exists top rest,
    Permutation (top ++ rest) data /\
    List.length top = Nat.min 15 (List.length data) /\
    (forall a b, In a top -> In b rest -> valueZ b <= valueZ a) /\
    finalData data
    = (if 0 <? sumZ rest
       then (top ++ [ {| datumName := VStr "Others"; value := Int (sumZ rest) |} ])%list
       else top) /\
    (List.length (finalData data) <= 16)%nat /\
    ((List.length data <= 15)%nat -> rest = [] /\ Permutation (finalData data) data) /\
    (Forall (fun d => 0 <= valueZ d) data -> sumZ (finalData data) = sumZ data).
Proof.
  intros I.
  set (sorted := sort byValueDesc data).
  assert (Pm : Permutation sorted data) by apply sort_perm.
  assert (Is : Forall integral sorted)
    by (apply (Permutation_Forall (Permutation_sym Pm)); exact I).
  assert (Ir : Forall integral (skipn 15 sorted)).
  { rewrite Forall_forall in *. intros d Hd. apply Is.
    rewrite <- (firstn_skipn 15 sorted). apply in_or_app. now right. }
  assert (O : othersTotal sorted = Int (sumZ (skipn 15 sorted))).
  { unfold othersTotal, N. now rewrite reduce_integral by exact Ir. }
  assert (Fd : finalData data
               = if 0 <? sumZ (skipn 15 sorted)
                 then (firstn 15 sorted ++
                       [ {| datumName := VStr "Others";
                            value := Int (sumZ (skipn 15 sorted)) |} ])%list
                 else firstn 15 sorted).
  { unfold finalData. fold sorted. rewrite O. reflexivity. }
  assert (Lt : List.length (firstn 15 sorted) = Nat.min 15 (List.length data)).
  { rewrite length_firstn. now rewrite (Permutation_length Pm). }
  exists (firstn 15 sorted), (skipn 15 sorted).
  split; [now rewrite firstn_skipn|]. split; [exact Lt|]. split.
  { apply sorted_split. now apply sort_sorted. }
  split; [exact Fd|]. split; [|split].
  - rewrite Fd. destruct (0 <? _).
    + rewrite length_app, Lt. cbn [List.length]. lia.
    + rewrite Lt. lia.
  - intros L.
    assert (E : skipn 15 sorted = []).
    { apply skipn_all2. rewrite (Permutation_length Pm). exact L. }
    split; [exact E|].
    rewrite Fd, E. cbn. rewrite <- (firstn_skipn 15 sorted) in Pm.
    now rewrite E, app_nil_r in Pm.
  - intros Nn.
    assert (Nr : 0 <= sumZ (skipn 15 sorted)).
    { apply sumZ_nonneg. rewrite Forall_forall in *. intros d Hd.
      apply Nn. apply (Permutation_in _ Pm).
      rewrite <- (firstn_skipn 15 sorted). apply in_or_app. now right. }
    rewrite <- (sumZ_perm Pm).
    replace (sumZ sorted) with (sumZ (firstn 15 sorted) + sumZ (skipn 15 sorted))
      by (now rewrite <- sumZ_app, firstn_skipn).
    rewrite Fd.
    destruct (Z.ltb_spec 0 (sumZ (skipn 15 sorted))) as [G|G].
    + rewrite sumZ_app. cbn [sumZ fold_right valueZ value]. lia.
    + lia.
Qed.

Lemma pie_keeps_the_largest_and_the_total_witness :
  let data := List.map (fun z => {| datumName := VStr "L"; value := Int z |})
                [3; 1; 4; 1; 5; 9; 2; 6; 5; 3; 5; 8; 9; 7; 9; 3; 2] in
  Forall integral data /\
  List.map value (finalData data)
  = List.map Int [9; 9; 9; 8; 7; 6; 5; 5; 5; 4; 3; 3; 3; 2; 2; 2] /\
  (List.length (finalData data) <= 16)%nat.
Proof.
  intros data.
  assert (I : Forall integral data).
  { repeat constructor; eexists; reflexivity. }
  split; [exact I|]. split; [reflexivity|].
  destruct (pie_keeps_the_largest_and_the_total I)
    as [top [rest [_ [_ [_ [_ [L _]]]]]]].
  exact L.
Defined.

End PieSpec.

(** ** The chart of a chat message *)

Module LabelsSpec.

Import Js JsFacts Value Labels.

Lemma shortenLabel_long (E : ascii) (s : string) (max : Z) :
  2 <= max -> max < len s ->
  slice s 0 (Z.max 1 (max - 1)) = take (Z.to_nat (max - 1)) s /\
  String.length (take (Z.to_nat (max - 1)) s) = Z.to_nat (max - 1).
Proof.
  intros H L. unfold len in L.
  assert (K : (Z.to_nat (max - 1) <= String.length s)%nat) by lia.
  replace (Z.max 1 (max - 1)) with (Z.of_nat (Z.to_nat (max - 1))) by lia.
  split; [now apply slice_0 | now apply length_take].
Qed.

Lemma shortenLabel_within (E : ascii) (label : any) (max : Z) :
  2 <= max -> len (shortenLabel E label (Some max)) <= max.
Proof.
  intros H. unfold shortenLabel.
  set (s := toString (coalesce label (VStr EmptyString))).
  destruct (Z.leb_spec (len s) max) as [G|G]; [exact G|].
  destruct (@shortenLabel_long E s max H G) as [S T].
  rewrite S. unfold len. rewrite length_append, T. cbn [str String.length]. lia.
Qed.

(** X24. A shortened label fits. A label of at most [max] code units is
    returned as it is (as a string, the empty one for [null] and
    [undefined]); a longer one, for [max] of two or more, is cut to its
    first [max - 1] code units followed by the ellipsis, so the result has
    exactly [max] code units, and shortening it again changes nothing. For
    [max] below two the result is not within [max]: a longer label becomes
    its first code unit and the ellipsis. *)
Theorem shortened_label_fits (E : ascii) (label : any) (max : Z) :
  let s := toString (coalesce label (VStr EmptyString)) in
  let r := shortenLabel E label (Some max) in
  (len s <= max -> r = s) /\
  (2 <= max -> max < len s ->
   r = take (Z.to_nat (max - 1)) s ++ str E /\ len r = max /\
   shortenLabel E (VStr r) (Some max) = r) /\
  (2 <= max -> len r <= max) /\
  (max <= 1 -> 2 <= len s -> len r = 2) /\
  shortenLabel E label None = shortenLabel E label (Some 16).
Proof.
  intros s r. subst r. unfold shortenLabel. fold s.
  split; [|split; [|split; [|split]]].
  - intros H. destruct (Z.leb_spec (len s) max) as [_|G]; [reflexivity | lia].
  - intros H L. destruct (Z.leb_spec (len s) max) as [G|_]; [lia|].
    destruct (@shortenLabel_long E s max H L) as [S T].
    rewrite S.
    assert (Ln : len (take (Z.to_nat (max - 1)) s ++ str E) = max).
    { unfold len. rewrite length_append, T. cbn [str String.length]. lia. }
    split; [reflexivity|]. split; [exact Ln|].
    cbn [coalesce nullish toString]. rewrite Ln.
    destruct (Z.leb_spec max max) as [_|G]; [reflexivity | lia].
  - intros H. now apply (@shortenLabel_within E label max).
  - intros H L. destruct (Z.leb_spec (len s) max) as [G|_]; [lia|].
    replace (Z.max 1 (max - 1)) with (Z.of_nat 1) by lia.
    unfold len in *. rewrite slice_0 by lia.
    rewrite length_append, length_take by lia. reflexivity.
  - reflexivity.
Qed.

Lemma test_spec (s : string) :
  test s = true <->
  exists pre a b c d f g post,
    s = pre ++ String a (String b (String c (String d
              (String "-" (String f (String g post)))))) /\
    isDigit a = true /\ isDigit b = true /\ isDigit c = true /\
    isDigit d = true /\ isDigit f = true /\ isDigit g = true.
Proof.
  split.
  - induction s as [|x s IH]; [discriminate|].
    cbn [test]. intros H. apply orb_prop in H. destruct H as [H|H].
    + destruct s as [|b [|c [|d [|e [|f [|g post]]]]]]; try discriminate H.
      cbn [yearMonthAt] in H.
      do 6 (apply andb_prop in H; destruct H as [H ?]).
      match goal with K : Ascii.eqb e _ = true |- _ => apply Ascii.eqb_eq in K; subst e end.
      exists EmptyString, x, b, c, d, f, g, post. now repeat split.
    + destruct (IH H) as [pre [a [b [c [d [f [g [post [-> D]]]]]]]]].
      exists (String x pre), a, b, c, d, f, g, post. split; [reflexivity | exact D].
  - intros [pre [a [b [c [d [f [g [post [-> [Da [Db [Dc [Dd [Df Dg]]]]]]]]]]]]]].
    induction pre as [|x pre IH].
    + cbn [append test yearMonthAt]. rewrite Da, Db, Dc, Dd, Df, Dg. reflexivity.
    + cbn [append test]. rewrite IH. apply orb_true_r.
Qed.

Lemma pointsFrom_spec (labels : list any) (ds : any) (i : nat) :
  List.map pointName (pointsFrom labels ds i) = labels /\
  List.length (pointsFrom labels ds i) = List.length labels /\
  forall k p, nth_error (pointsFrom labels ds i) k = Some p ->
              pointValue p
              = coalesce (optIndex (optProp ds "data") (i + k)) (VNum (Int 0)).
Proof.
  revert i; induction labels as [|l rest IH]; intros i.
  - repeat split. intros [|k] p H; discriminate H.
  - destruct (IH (S i)) as [A [B C]]. cbn [pointsFrom List.map List.length].
    rewrite A, B. repeat split.
    intros [|k] p H; cbn [nth_error] in H.
    + injection H as <-. cbn [pointValue]. now rewrite Nat.add_0_r.
    + rewrite (C k p H). now rewrite Nat.add_succ_r.
Qed.

(** X25. Which chart a block gets, and what its axis shows. The data has
    one point per label, named by the label, whose value is the entry of
    the first dataset at that position, or zero where that is missing or
    [null]. The chart is a line chart exactly when there is a first label
    and its text holds, anywhere, four digits, a hyphen and two digits;
    the other labels are not looked at. Otherwise it is a bar chart whose
    ticks are never longer than its [maxChars], which is twelve for more
    than eight bars and eighteen otherwise. *)
Theorem chart_of_a_block (E : ascii) (labels : list any) (ds : any) :
  let data := pointsFrom labels ds 0 in
  List.map pointName data = labels /\
  (forall k p, nth_error data k = Some p ->
     pointValue p = coalesce (optIndex (optProp ds "data") k) (VNum (Int 0))) /\
  (chart labels ds = LineChart data <->
   exists l rest pre a b c d f g post,
     labels = l :: rest /\
     toString l = pre ++ String a (String b (String c (String d
                           (String "-" (String f (String g post)))))) /\
     isDigit a = true /\ isDigit b = true /\ isDigit c = true /\
     isDigit d = true /\ isDigit f = true /\ isDigit g = true) /\
  (chart labels ds <> LineChart data ->
   exists axis,
     chart labels ds = BarChart data axis /\
     maxChars axis = (if (8 <? List.length labels)%nat then 12 else 18) /\
     angle axis = (if (8 <? List.length labels)%nat then -35 else 0) /\
     forall v, len (tick E axis v) <= maxChars axis).
Proof.
  intros data. subst data.
  destruct (pointsFrom_spec labels ds 0) as [A [B C]].
  split; [exact A|]. split; [exact C|].
  assert (T : isTime labels = true <->
              exists l rest pre a b c d f g post,
                labels = l :: rest /\
                toString l = pre ++ String a (String b (String c (String d
                                      (String "-" (String f (String g post)))))) /\
                isDigit a = true /\ isDigit b = true /\ isDigit c = true /\
                isDigit d = true /\ isDigit f = true /\ isDigit g = true).
  { unfold isTime. destruct labels as [|l rest].
    - split; [discriminate|]. intros [l [rest [pre [a [b [c [d [f [g [post [H _]]]]]]]]]]].
      discriminate H.
    - rewrite test_spec. split.
      + intros [pre [a [b [c [d [f [g [post H]]]]]]]].
        exists l, rest, pre, a, b, c, d, f, g, post. split; [reflexivity | exact H].
      + intros [l' [rest' [pre [a [b [c [d [f [g [post [H D]]]]]]]]]]].
        injection H as <- <-. now exists pre, a, b, c, d, f, g, post. }
  unfold chart. rewrite B. split.
  - rewrite <- T. destruct (isTime labels); split; try reflexivity; discriminate.
  - destruct (isTime labels); [intros N; now elim N|]. intros _.
    eexists. split; [reflexivity|]. unfold tick. cbn [maxChars angle].
    split; [reflexivity|]. split; [reflexivity|].
    intros v.
    apply shortenLabel_within.
    destruct (8 <? List.length labels)%nat; lia.
Qed.

End LabelsSpec.

(** ** Follow-up suggestions *)

Module SuggestionsSpec.

Import Js Value Chat Suggestions.

Ltac distinct :=
  repeat (constructor;
          [ simpl; intros H;
            repeat (destruct H as [H|H]; [discriminate H|]); exact H | ]);
  constructor.

Lemma picked (hasInc hasHaz hasAud hasIns : bool) :
  let r := firstn 6 (uniq (curated hasInc hasHaz hasAud hasIns) []) in
  (4 <= List.length r <= 6)%nat /\ NoDup r /\
  (hasInc = true ->
   firstn 5 r = [ "Incidents — Monthly trend"; "Top incident locations";
                  "Incidents by type"; "Incidents in 2024";
                  "Incidents in March 2024" ]) /\
  (hasInc = true -> hasHaz = true ->
   r = [ "Incidents — Monthly trend"; "Top incident locations";
         "Incidents by type"; "Incidents in 2024"; "Incidents in March 2024";
         "Hazards — Monthly trend" ]) /\
  (hasInc = false -> hasHaz = false -> hasAud = false -> hasIns = false ->
   r = [ "Monthly incidents"; "Top hazard locations"; "Audits — Monthly trend";
         "Inspections — Monthly trend"; "Incident types distribution" ]).
Proof.
  destruct hasInc, hasHaz, hasAud, hasIns; vm_compute;
    (split; [lia|]); (split; [distinct|]);
    repeat split; intros; try reflexivity; discriminate.
Qed.

(** X26. The suggestions under a reply. For every assistant message there
    are between four and six suggestions, without repetition. When the
    reply, in whatever case, names incidents, the five prompts on incidents
    come first; when it names hazards as well, the one prompt that follows
    is the first on hazards, so that no prompt on audits or inspections is
    ever offered then, whatever else the reply names. A reply that names
    none of the four categories gets the five general prompts, and without
    an assistant message there is no suggestion. *)
Theorem suggestions_are_few_and_distinct (m : ChatMessage) :
  let r := buildSuggestions (Some m) in
  (4 <= List.length r <= 6)%nat /\ NoDup r /\
  (includes (toLowerCase (content m)) "incident" = true ->
   firstn 5 r = [ "Incidents — Monthly trend"; "Top incident locations";
                  "Incidents by type"; "Incidents in 2024";
                  "Incidents in March 2024" ]) /\
  (includes (toLowerCase (content m)) "incident" = true ->
   includes (toLowerCase (content m)) "hazard" = true ->
   r = [ "Incidents — Monthly trend"; "Top incident locations";
         "Incidents by type"; "Incidents in 2024"; "Incidents in March 2024";
         "Hazards — Monthly trend" ]) /\
  (meta m = VUndefined ->
   (forall word, In word ["incident"; "hazard"; "audit"; "inspection"] ->
                 includes (toLowerCase (content m)) word = false) ->
   r = [ "Monthly incidents"; "Top hazard locations"; "Audits — Monthly trend";
         "Inspections — Monthly trend"; "Incident types distribution" ]) /\
  buildSuggestions None = [].
Proof.
  intros r. subst r. unfold buildSuggestions.
  remember (datasetLabels (orElse (meta m) (VObj []))) as labels eqn:El.
  set (text := toLowerCase (content m)).
  destruct (picked (existsb (fun l => includes l "incident") labels || includes text "incident")
                   (existsb (fun l => includes l "hazard") labels || includes text "hazard")
                   (existsb (fun l => includes l "audit") labels || includes text "audit")
                   (existsb (fun l => includes l "inspection") labels
                    || includes text "inspection"))
    as [L [D [I [IH F]]]].
  split; [exact L|]. split; [exact D|]. split; [|split; [|split]].
  - intros H. apply I. rewrite H. apply orb_true_r.
  - intros H1 H2. apply IH; [rewrite H1 | rewrite H2]; apply orb_true_r.
  - intros M N. rewrite M in El. vm_compute in El. subst labels.
    apply F; cbn [existsb orb]; apply N; simpl; auto.
  - reflexivity.
Qed.

Lemma suggestions_are_few_and_distinct_witness :
  let m := {| id := "a1"; role := assistant;
              content := "Incidents and HAZARDS rose; audits are due.";
              meta := VUndefined |} in
  includes (toLowerCase (content m)) "incident" = true /\
  includes (toLowerCase (content m)) "hazard" = true /\
  includes (toLowerCase (content m)) "audit" = true /\
  buildSuggestions (Some m)
  = [ "Incidents — Monthly trend"; "Top incident locations";
      "Incidents by type"; "Incidents in 2024"; "Incidents in March 2024";
      "Hazards — Monthly trend" ].
Proof.
  intros m.
  assert (H1 : includes (toLowerCase (content m)) "incident" = true) by reflexivity.
  assert (H2 : includes (toLowerCase (content m)) "hazard" = true) by reflexivity.
  assert (H3 : includes (toLowerCase (content m)) "audit" = true) by reflexivity.
  split; [exact H1|]. split; [exact H2|]. split; [exact H3|].
  exact (proj1 (proj2 (proj2 (proj2 (suggestions_are_few_and_distinct m)))) H1 H2).
Defined.

End SuggestionsSpec.

(** ** The typewriter of the headline *)

Module TypewriterSpec.

Import Js JsFacts Typewriter.

Lemma take_all (s : string) : take (String.length s) s = s.
Proof.
  induction s as [|c s IH]; [reflexivity|]. cbn. now rewrite IH.
Qed.

Section Words.

Variable words : list string.
Variables typingSpeed deletingSpeed pauseMs : Z.

Abbreviation tick := (Typewriter.tick words).
Abbreviation run := (Typewriter.run words).
Abbreviation trace := (Typewriter.trace words).
Abbreviation current := (Typewriter.current words).
Abbreviation text := (Typewriter.text words).

Lemma run_add (a b : nat) (st : State) : run (a + b) st = run b (run a st).
Proof.
  revert st; induction a as [|a IH]; intros st; [reflexivity|].
  cbn [Nat.add Typewriter.run]. apply IH.
Qed.

Lemma trace_add (a b : nat) (st : State) :
  trace (a + b) st = (trace a st ++ trace b (run a st))%list.
Proof.
  revert st; induction a as [|a IH]; intros st; [reflexivity|].
  cbn [Nat.add Typewriter.trace Typewriter.run app]. now rewrite IH.
Qed.

Lemma steady_tick (st : State) : steady words st -> steady words (tick st).
Proof.
  intros [[i [Hi Li]] [S P]]. unfold Typewriter.tick.
  destruct (paused st) eqn:Pa.
  - split; [now exists i|]. split; [exact S | discriminate].
  - destruct (deleting st) eqn:D; cbn [negb].
    + destruct (Nat.ltb_spec 0 (subIndex st)) as [G|G].
      * split; [now exists i|]. split.
        -- unfold Typewriter.current in *. cbn [index subIndex] in *. lia.
        -- cbn [paused]. discriminate.
      * split; [|split].
        -- cbn [index]. rewrite Hi. unfold next.
           destruct words as [|w ws] eqn:W; [simpl in Li; lia|].
           eexists. split; [reflexivity|]. apply Nat.mod_upper_bound.
           simpl. lia.
        -- cbn [subIndex]. lia.
        -- cbn [paused]. discriminate.
    + destruct (Nat.ltb_spec (subIndex st) (String.length (current st))) as [G|G].
      * split; [now exists i|]. split.
        -- unfold Typewriter.current in *. cbn [index subIndex] in *. lia.
        -- cbn [paused]. discriminate.
      * split; [now exists i|]. split.
        -- exact S.
        -- intros _. cbn [deleting subIndex]. split; [reflexivity|].
           unfold Typewriter.current in *. cbn [index] in *. lia.
Qed.

Lemma steady_run (n : nat) (st : State) : steady words st -> steady words (run n st).
Proof.
  revert st; induction n as [|n IH]; intros st H; [exact H|].
  cbn [Typewriter.run]. apply IH. now apply steady_tick.
Qed.

(** X27. The typewriter never leaves its words. With at least one word,
    after any number of timers from the first render, the index names a
    word of the list, the cursor lies within that word, so that the text
    shown is the prefix of the word of that length, and the typewriter
    pauses only on a whole word that it is about to delete. *)
Theorem typewriter_stays_within_its_words (n : nat) :
  words <> [] ->
  let st := run n initial in
  (exists i, index st = Some i /\ (i < List.length words)%nat /\
             current st = nth i words EmptyString) /\
  (subIndex st <= String.length (current st))%nat /\
  text st = take (subIndex st) (current st) /\
  (paused st = true -> deleting st = true /\ text st = current st).
Proof.
  intros W st.
  assert (S0 : steady words initial).
  { split; [|split].
    - exists 0%nat. split; [reflexivity|]. destruct words; [now elim W | simpl; lia].
    - cbn. lia.
    - discriminate. }
  pose proof (@steady_run n initial S0) as [[i [Hi Li]] [S P]]. fold st in Hi, S, P.
  assert (T : text st = take (subIndex st) (current st))
    by (unfold Typewriter.text; now apply slice_0).
  split; [|split; [exact S|split; [exact T|]]].
  - exists i. split; [exact Hi|]. split; [exact Li|].
    unfold Typewriter.current. rewrite Hi.
    destruct words as [|w ws] eqn:E; [now elim W|].
    rewrite <- E in *. now rewrite Nat.mod_small by exact Li.
  - intros Pa. destruct (P Pa) as [D Sb]. split; [exact D|].
    rewrite T, Sb.
    rewrite <- (append_nil_r (current st)) at 2. apply take_length_app.
Qed.

(** *** One word *)

Section OneWord.

Variable i : nat.
Hypothesis inside : (i < List.length words)%nat.

Let w : string := nth i words EmptyString.

Lemma current_at (k : nat) (d p : bool) :
  current {| index := Some i; subIndex := k; deleting := d; paused := p |} = w.
Proof.
  unfold Typewriter.current. cbn [index].
  destruct words as [|x xs] eqn:E; [simpl in inside; lia|].
  rewrite <- E in *. subst w. rewrite Nat.mod_small by exact inside. now rewrite E.
Qed.

Lemma text_at (k : nat) (d p : bool) :
  (k <= String.length w)%nat ->
  text {| index := Some i; subIndex := k; deleting := d; paused := p |} = take k w.
Proof.
  intros H. unfold Typewriter.text. rewrite current_at. cbn [subIndex].
  now apply slice_0.
Qed.

Lemma typing (k m : nat) :
  (m + k <= String.length w)%nat ->
  run k {| index := Some i; subIndex := m; deleting := false; paused := false |}
  = {| index := Some i; subIndex := m + k; deleting := false; paused := false |} /\
  List.map text (trace k {| index := Some i; subIndex := m; deleting := false;
                            paused := false |})
  = prefixes w m k /\
  List.map (delay typingSpeed deletingSpeed pauseMs)
    (trace k {| index := Some i; subIndex := m; deleting := false; paused := false |})
  = repeat typingSpeed k.
Proof.
  revert m; induction k as [|k IH]; intros m H.
  - rewrite Nat.add_0_r. now repeat split.
  - cbn [Typewriter.run Typewriter.trace List.map prefixes repeat].
    assert (T : tick {| index := Some i; subIndex := m; deleting := false;
                        paused := false |}
                = {| index := Some i; subIndex := S m; deleting := false;
                     paused := false |}).
    { unfold Typewriter.tick. cbn [paused deleting negb subIndex index].
      rewrite current_at.
      destruct (Nat.ltb_spec m (String.length w)) as [_|G]; [|lia].
      now rewrite Nat.add_1_r. }
    rewrite T. destruct (IH (S m)) as [A [B C]]; [lia|].
    rewrite A, B, C. rewrite text_at by lia.
    replace (S m + k)%nat with (m + S k)%nat by lia. now repeat split.
Qed.

Lemma erasing (k m : nat) :
  (k <= m)%nat -> (m <= String.length w)%nat ->
  run k {| index := Some i; subIndex := m; deleting := true; paused := false |}
  = {| index := Some i; subIndex := m - k; deleting := true; paused := false |} /\
  List.map text (trace k {| index := Some i; subIndex := m; deleting := true;
                            paused := false |})
  = rev (prefixes w (S (m - k)) k) /\
  List.map (delay typingSpeed deletingSpeed pauseMs)
    (trace k {| index := Some i; subIndex := m; deleting := true; paused := false |})
  = repeat deletingSpeed k.
Proof.
  revert m; induction k as [|k IH]; intros m H L.
  - rewrite Nat.sub_0_r. now repeat split.
  - cbn [Typewriter.run Typewriter.trace List.map repeat].
    assert (T : tick {| index := Some i; subIndex := m; deleting := true;
                        paused := false |}
                = {| index := Some i; subIndex := m - 1; deleting := true;
                     paused := false |}).
    { unfold Typewriter.tick. cbn [paused deleting negb subIndex index].
      destruct (Nat.ltb_spec 0 m) as [_|G]; [reflexivity | lia]. }
    rewrite T. destruct (IH (m - 1)%nat) as [A [B C]]; [lia | lia|].
    rewrite A, B, C. rewrite text_at by lia.
    replace (m - 1 - k)%nat with (m - S k)%nat by lia.
    split; [reflexivity|]. split; [|reflexivity].
    assert (Pk : forall c f, prefixes w f (S c)
                             = (prefixes w f c ++ [take (f + c) w])%list).
    { induction c as [|c IHc]; intros f.
      - cbn. now rewrite Nat.add_0_r.
      - change (prefixes w f (S (S c)))
          with (take f w :: prefixes w (S f) (S c)).
        rewrite IHc. cbn [prefixes app].
        now replace (S f + c)%nat with (f + S c)%nat by lia. }
    rewrite (Pk k (S (m - S k))). rewrite rev_app_distr. cbn [rev app].
    now replace (S (m - S k) + k)%nat with m by lia.
Qed.

End OneWord.

(** X28. One word of the typewriter, timer by timer. From the state in
    which a word of [n] code units starts, the next [2n + 3] timers show
    its prefixes of the lengths 0 to [n], then the whole word for the
    pause, then its prefixes of the lengths [n] down to 0, and lead to the
    state in which the following word starts, the first word following the
    last. They take [n + 1] typing delays, one pause and [n + 1] deleting
    delays. *)
Theorem typewriter_types_pauses_and_deletes (i : nat) :
  (i < List.length words)%nat ->
  let w := nth i words EmptyString in
  let n := String.length w in
  run (2 * n + 3) (start i) = start ((i + 1) mod List.length words) /\
  List.map text (trace (2 * n + 3) (start i))
  = (prefixes w 0 (S n) ++ [w] ++ rev (prefixes w 0 (S n)))%list /\
  elapsed words typingSpeed deletingSpeed pauseMs (2 * n + 3) (start i)
  = (Z.of_nat n + 1) * typingSpeed + pauseMs + (Z.of_nat n + 1) * deletingSpeed.
Proof.
  intros I w n.
  destruct (@typing i I n 0%nat) as [A1 [B1 C1]]; [fold w; fold n; lia|].
  fold w in B1. cbn [Nat.add] in A1.
  set (s1 := {| index := Some i; subIndex := n; deleting := false; paused := false |}).
  set (s2 := {| index := Some i; subIndex := n; deleting := true; paused := true |}).
  set (s3 := {| index := Some i; subIndex := n; deleting := true; paused := false |}).
  set (s4 := {| index := Some i; subIndex := 0; deleting := true; paused := false |}).
  assert (T1 : tick s1 = s2).
  { unfold Typewriter.tick, s1. cbn [paused deleting negb subIndex index].
    rewrite (@current_at i I). fold w. fold n.
    now rewrite Nat.ltb_irrefl. }
  assert (T2 : tick s2 = s3) by reflexivity.
  destruct (@erasing i I n n) as [A3 [B3 C3]]; [lia | fold w; fold n; lia|].
  fold w in B3. rewrite Nat.sub_diag in A3, B3. fold s3 in A3, B3, C3. fold s4 in A3.
  assert (T4 : tick s4 = start ((i + 1) mod List.length words)).
  { unfold Typewriter.tick, s4, start, next.
    cbn [paused deleting negb subIndex index Nat.ltb Nat.leb].
    destruct words as [|x xs] eqn:E; [simpl in I; lia | reflexivity]. }
  assert (R : run (n + 1 + 1) (start i) = s3).
  { rewrite !run_add. unfold start. rewrite A1. fold s1.
    cbn [Typewriter.run]. now rewrite T1, T2. }
  assert (Tr : trace (2 * n + 3) (start i)
               = (trace n (start i) ++ [s1] ++ [s2] ++ trace n s3 ++ [s4])%list).
  { replace (2 * n + 3)%nat with (n + (1 + (1 + (n + 1))))%nat by lia.
    rewrite trace_add. unfold start at 2. rewrite A1. fold s1. f_equal.
    rewrite trace_add. cbn [Typewriter.trace Typewriter.run app]. rewrite T1. f_equal.
    rewrite trace_add. cbn [Typewriter.trace Typewriter.run app]. rewrite T2. f_equal.
    rewrite trace_add. rewrite A3. reflexivity. }
  split; [|split].
  - replace (2 * n + 3)%nat with ((n + 1 + 1) + (n + 1))%nat by lia.
    rewrite run_add, R, run_add, A3. cbn [Typewriter.run]. exact T4.
  - rewrite Tr. rewrite !map_app. unfold start at 1. rewrite B1, B3.
    cbn [List.map app].
    assert (X1 : text s1 = take n w) by (apply (@text_at i I); fold w; fold n; lia).
    assert (X2 : text s2 = w).
    { unfold s2. rewrite (@text_at i I) by (fold w; fold n; lia). fold w.
      apply take_all. }
    assert (X4 : text s4 = take 0 w) by (apply (@text_at i I); lia).
    rewrite X1, X2, X4.
    assert (Pk : forall c f, prefixes w f (S c)
                             = (prefixes w f c ++ [take (f + c) w])%list).
    { induction c as [|c IHc]; intros f.
      - cbn. now rewrite Nat.add_0_r.
      - change (prefixes w f (S (S c)))
          with (take f w :: prefixes w (S f) (S c)).
        rewrite IHc. cbn [prefixes app].
        now replace (S f + c)%nat with (f + S c)%nat by lia. }
    assert (P1 : prefixes w 0 (S n) = (prefixes w 0 n ++ [take n w])%list)
      by (now rewrite Pk).
    assert (P2 : rev (prefixes w 0 (S n))
                 = (rev (prefixes w 1 n) ++ [take 0 w])%list) by reflexivity.
    rewrite P2, P1. rewrite <- app_assoc. reflexivity.
  - unfold elapsed. rewrite Tr. rewrite !map_app. unfold start at 1.
    rewrite C1, C3. cbn [List.map app].
    assert (Sum : forall (z : Z) (k : nat) (rest : list Z),
               fold_right Z.add 0 (repeat z k ++ rest)
               = Z.of_nat k * z + fold_right Z.add 0 rest).
    { intros z k rest. induction k as [|k IHk]; [simpl; lia|].
      cbn [repeat app fold_right]. rewrite IHk. lia. }
    rewrite Sum. cbn [fold_right]. rewrite Sum. cbn [fold_right].
    unfold delay, s1, s2, s4. cbn [paused deleting]. lia.
Qed.

End Words.

Lemma typewriter_stays_within_its_words_witness :
  ["Safe"; "Ops"] <> [] /\
  text ["Safe"; "Ops"] (run ["Safe"; "Ops"] 3 initial)
  = take (subIndex (run ["Safe"; "Ops"] 3 initial))
         (current ["Safe"; "Ops"] (run ["Safe"; "Ops"] 3 initial)).
Proof.
  assert (W : ["Safe"; "Ops"] <> []) by discriminate.
  split; [exact W|].
  exact (proj1 (proj2 (proj2 (@typewriter_stays_within_its_words
                                ["Safe"; "Ops"] 3%nat W)))).
Defined.

Lemma typewriter_types_pauses_and_deletes_witness :
  (1 < List.length ["Safe"; "Ops"])%nat /\
  run ["Safe"; "Ops"] 9 (start 1) = start 0 /\
  List.map (text ["Safe"; "Ops"]) (trace ["Safe"; "Ops"] 9 (start 1))
  = [EmptyString; "O"; "Op"; "Ops"; "Ops"; "Ops"; "Op"; "O"; EmptyString].
Proof.
  assert (I : (1 < List.length ["Safe"; "Ops"])%nat) by (simpl; lia).
  split; [exact I|].
  destruct (@typewriter_types_pauses_and_deletes ["Safe"; "Ops"] 100 70 1600 1%nat I)
    as [A [B _]].
  split; [exact A | exact B].
Defined.

End TypewriterSpec.
